(** * generate_dataset_replica.py: a shallow embedding and its properties

    The script drives an external simulator (habitat-sim) through a scripted
    camera trajectory, saves per-frame images and pickles the trajectory.

    Conventions of the embedding.
    - Python [int] is [Z].  The depth buffer, whose values the script
      rescales and casts, is a [float32] array with IEEE 754 single-precision
      arithmetic.  The other floating-point numbers (times, angles, vectors,
      camera intrinsics) are idealised as real numbers [R].
    - A [dict] with string keys is a [gmap string _]; a Python list is a
      [list], appended at the end.  The dictionary of sensor buffers is a
      record with one field per sensor uuid.
    - A raised exception aborts the script: effectful code lives in a state
      and error monad [M] over the process state [World].  The [while] loop
      takes fuel; running out of it is an outcome of its own, neither a
      result nor an exception.
    - The simulator, the quaternion type of its math library, PIL and pickle
      are outside the repository: the operations the script calls on them are
      the fields of the class [Engine], and every value they return is taken
      as a value of its own (no buffer is shared between two frames).
    - A ghost [trace] in the state records simulator construction and
      teardown, physics steps and file writes, in order.
    - Left out: console output, the creation of the tutorial output
      directory at import time, and [set_button_launcher], which the script
      never calls.  ([simulate], which it never calls either, is modelled
      on its own.) *)

From Stdlib Require Import Reals Lra ZArith Lia.
From Stdlib Require SpecFloat.
From stdpp Require Import gmap strings list pretty.

Open Scope Z_scope.

(** ** NumPy arrays and the conversions of [save_sample] *)

(** A two-dimensional array: its shape and its elements in row-major order
    (what [flatten()] returns). *)
Record ndarray (A : Type) : Type := NdArray {
  shape0 : nat;
  shape1 : nat;
  flat : list A
}.
Arguments NdArray {A} _ _ _.
Arguments shape0 {A} _.
Arguments shape1 {A} _.
Arguments flat {A} _.

(** Element-wise operation on an array (NumPy broadcasting of a scalar). *)
Definition nd_map {A B : Type} (f : A → B) (a : ndarray A) : ndarray B :=
  NdArray (shape0 a) (shape1 a) (f <$> flat a).

(** The depth buffer is a NumPy [float32] array.  Its elements and the
    operations on them are those of IEEE 754 single precision (24 bits of
    precision, results rounded to nearest, ties to even), as the Standard
    Library specifies them. *)
Definition float32 : Type := SpecFloat.spec_float.

Definition float32_div : float32 → float32 → float32 := SpecFloat.SFdiv 24 128.
Definition float32_mul : float32 → float32 → float32 := SpecFloat.SFmul 24 128.

(** A Python [int] as the operand of an operation on a [float32] array. *)
Definition float32_of_Z (z : Z) : float32 :=
  SpecFloat.binary_normalize 24 128 z 0 false.



(** [m * 2^e], the value of a mantissa at an exponent. *)
Definition scaled (m e : Z) : R := (IZR m * powerRZ 2 e)%R.


(** The integral part of a float, rounding toward zero; infinities and NaN
    have none. *)
Definition float_trunc (x : float32) : option Z :=
  match x with
  | SpecFloat.S754_zero _ => Some 0
  | SpecFloat.S754_finite s m e =>
      Some (SpecFloat.cond_Zopp s (Z.shiftl (Zpos m) e))
  | _ => None
  end.

(** [.astype(np.uint8)] on a [float32] value, a C cast: the fractional part
    is dropped.  When the integral part does not fit in eight bits the cast
    is undefined in C and NumPy promises no result: the byte is [None]. *)
Definition astype_uint8_float (x : float32) : option Z :=
  z ← float_trunc x;
  if (0 <=? z) && (z <=? 255) then Some z else None.

(** [.astype(np.uint8)] on an integer value: the low eight bits. *)
Definition astype_uint8_int (z : Z) : Z := z mod 256.



(** [(depth_obs / 10 * 255).astype(np.uint8)] *)
Definition depth_pixels (depth_obs : ndarray float32) : ndarray (option Z) :=
  nd_map astype_uint8_float
    (nd_map (λ d, float32_mul d (float32_of_Z 255))
       (nd_map (λ d, float32_div d (float32_of_Z 10)) depth_obs)).

(** [(semantic_obs.flatten() % 40).astype(np.uint8)], one element.  NumPy's
    [%] takes the sign of the divisor, as [Z.modulo] does. *)
Definition semantic_index (v : Z) : Z := astype_uint8_int (v mod 40).

(** [(semantic_obs.flatten() % 40).astype(np.uint8)] *)
Definition semantic_indices (semantic_obs : ndarray Z) : list Z :=
  astype_uint8_int <$> ((λ v, v mod 40) <$> flat semantic_obs).


(** ** Python values, exceptions and vectors *)

Global Instance R_eq_dec : EqDecision R := Req_dec_T.
Global Instance Rlt_decision (x y : R) : Decision (x < y)%R := Rlt_dec x y.

(** The scalar values stored in the script's dictionaries. *)
Inductive pyval : Type :=
| PBool (b : bool)
| PInt (z : Z)
| PFloat (x : R)
| PStr (s : string).

Global Instance pyval_eq_dec : EqDecision pyval.
Proof. solve_decision. Defined.

Inductive exn : Type :=
| KeyError (key : string)
| NameError (name : string)
| AttributeError (attr : string)
| TypeError
| TraitError
| SimulatorError
| OSError (path : string).

(** [mn.Vector3] and three-element [np.array]s. *)
Record Vector3 : Type := Vec3 { vx : R; vy : R; vz : R }.

Definition vadd (a b : Vector3) : Vector3 :=
  Vec3 (vx a + vx b) (vy a + vy b) (vz a + vz b).

(** The numeric value of a Python scalar in an arithmetic expression. *)
Definition to_float (v : pyval) : option R :=
  match v with
  | PBool b => Some (if b then 1 else 0)%R
  | PInt z => Some (IZR z)
  | PFloat x => Some x
  | PStr _ => None
  end.

(** [a in b] on strings: [a] occurs in [b] as a substring. *)
Fixpoint str_in (a b : string) : bool :=
  String.prefix a b ||
  match b with
  | EmptyString => false
  | String _ b' => str_in a b'
  end.

(** [os.path.join] of two components (POSIX). *)
Definition path_join (a b : string) : string :=
  if String.prefix "/" b then b
  else if bool_decide (a = "") || String.prefix "/" (String.rev a) then a +:+ b
  else a +:+ "/" +:+ b.

(** ** The simulator's configuration schema, as [make_cfg] fills it *)

Inductive SensorType : Type := COLOR | DEPTH | SEMANTIC.
Inductive SensorSubType : Type := PINHOLE.

(** An attribute the script leaves alone is [None] (the engine's default). *)
Record SimulatorConfiguration : Type := {
  gpu_device_id : Z;
  scene_dataset_config_file : pyval;
  scene_id : pyval;
  enable_physics : pyval;
  override_scene_light_defaults : option pyval;
  scene_light_setup : option pyval
}.

Record CameraSensorSpec : Type := {
  uuid : string;
  sensor_type : SensorType;
  resolution : list pyval;
  position : list pyval;
  orientation : option (list pyval);
  sensor_subtype : SensorSubType
}.

Record AgentConfiguration : Type := {
  sensor_specifications : list CameraSensorSpec
}.

Record Configuration : Type := {
  sim_cfg : SimulatorConfiguration;
  agents : list AgentConfiguration
}.

(** ** The external engine *)

Definition rgba : Type := Z * Z * Z * Z.

(** What [get_sensor_observations] returns: one buffer per sensor that
    [make_cfg] declares, named by the sensor's uuid. *)
Record Observation : Type := {
  color_sensor_1st_person : ndarray rgba;
  depth_sensor : ndarray float32;
  semantic_sensor : ndarray Z
}.

(** The calls the script makes on a simulator instance, whose state is
    [SimState].  [Simulator cfg] is the constructor ([None]: it raises);
    the [node_] operations act on [sim.agents[0].scene_node];
    [rotated angle axis q] is the orientation [q] turned by [angle] about
    [axis]. *)
Class Engine : Type := {
  SimState : Type;
  Rotation : Type;
  Simulator : Configuration → option SimState;
  close : SimState → SimState;
  load_configs : string → SimState → SimState;
  get_world_time : SimState → R;
  step_physics : R → SimState → SimState;
  get_sensor_observations : SimState → Observation;
  get_scene_handles : SimState → list string;
  node_translation : SimState → Vector3;
  node_set_translation : Vector3 → SimState → SimState;
  node_rotation : SimState → Rotation;
  node_rotate : R → Vector3 → SimState → SimState;
  rotated : R → Vector3 → Rotation → Rotation;
  color_hfov : SimState → R;
  d3_40_colors_rgb : ndarray Z
}.

(** What the script relies on for its loop to end: changing the agent's pose
    does not move the clock, and a physics step of 1/30 s advances it by at
    least [min_advance > 0]. *)
Class EngineLaws (E : Engine) : Prop := {
  time_node_rotate : ∀ a ax s,
    get_world_time (node_rotate a ax s) = get_world_time s;
  time_node_set_translation : ∀ v s,
    get_world_time (node_set_translation v s) = get_world_time s;
  step_advances : ∃ min_advance : R, (0 < min_advance)%R ∧
    ∀ s, (get_world_time s + min_advance <= get_world_time (step_physics (1 / 30) s))%R
}.

(** The scene node keeps a translation and an orientation side by side:
    setting one leaves the other alone, and [rotate] turns the orientation. *)
Class SceneNodeLaws (E : Engine) : Prop := {
  translation_set : ∀ v s, node_translation (node_set_translation v s) = v;
  translation_rotate : ∀ a ax s,
    node_translation (node_rotate a ax s) = node_translation s;
  rotation_set : ∀ v s,
    node_rotation (node_set_translation v s) = node_rotation s;
  rotation_rotate : ∀ a ax s,
    node_rotation (node_rotate a ax s) = rotated a ax (node_rotation s)
}.

(** ** Files, events and the process state *)

(** A PIL image in mode "P": size, palette and one palette index per pixel.
    A pixel of a mode "L" image is a byte, or [None] where the cast that
    produced it is undefined. *)
Record PImage : Type := {
  p_width : nat;
  p_height : nat;
  p_palette : list Z;
  p_data : list Z
}.

Inductive image : Type :=
| FromArrayRGBA (a : ndarray rgba)
| FromArrayL (a : ndarray (option Z))
| ConvertRGBA (p : PImage).

Inductive event : Type :=
| EvCreate (h : nat)
| EvClose (h : nat)
| EvStep (h : nat)
| EvWrite (path : string).

Global Instance event_eq_dec : EqDecision event.
Proof. solve_decision. Defined.

(** What a run is given from outside: the import-time capability flag, how
    the script was started, the repository root, which paths the operating
    system lets it write, and the dropdown changes a notebook user makes
    between the selection cell and the next one. *)
Record Env : Type := {
  HAS_WIDGETS : bool;
  is_main : bool;
  no_display : bool;
  no_make_video : bool;
  dir_path : string;
  writable : string → bool;
  ui_events : list (gmap string string)
}.

(** [display] and [make_video], lines 250-264: the command-line flags when
    run as a script, both off otherwise. *)
Definition display (env : Env) : bool :=
  if is_main env then negb (no_display env) else false.

Definition make_video (env : Env) : bool :=
  if is_main env then negb (no_make_video env) else false.

Definition data_path (env : Env) : string := path_join (dir_path env) "data".

(** [make_default_settings] *)
Definition make_default_settings (env : Env) : gmap string pyval :=
  let rgb_sensor := true in
  let depth_sensor := true in
  let semantic_sensor := true in
  list_to_map [
    ("width", PInt 1280);
    ("height", PInt 720);
    ("scene_dataset",
      PStr (path_join (data_path env) "replica_cad/replicaCAD.scene_dataset_config.json"));
    ("scene", PStr "NONE");
    ("default_agent", PInt 0);
    ("sensor_height", PFloat 1.5);
    ("sensor_pitch", PFloat 0);
    ("color_sensor", PBool rgb_sensor);
    ("depth_sensor", PBool depth_sensor);
    ("semantic_sensor", PBool semantic_sensor);
    ("seed", PInt 1);
    ("enable_physics", PBool true)
  ].

(** The pose changes of the trajectory loop, as data. *)
Inductive node_cmd : Type :=
| Rotate (angle : R) (axis : Vector3)
| TranslateBy (v : Vector3).

(** [- mn.math.pi_half / 20.0] *)
Definition yaw_step : R := (- (PI / 2) / 20)%R.

Definition y_axis : Vector3 := Vec3 0 1 0.

(** Lines 323-332: what one iteration does to the agent's scene node, in the
    order of the calls. *)
Definition pose_cmds (count : Z) : list node_cmd :=
  if count <? 40 then
    [Rotate yaw_step y_axis]
  else if count <? 60 then
    [TranslateBy (Vec3 0.3 0 0); Rotate yaw_step y_axis]
  else if count <? 80 then
    [TranslateBy (Vec3 0.0 0 0.3); Rotate yaw_step y_axis]
  else
    [TranslateBy (Vec3 (-0.1) 0 (-0.1))].

(** [np.radians] *)
Definition radians (deg : R) : R := (deg * PI / 180)%R.

Section Script.
Context {E : Engine}.

(** [scene_node.rotate(angle, axis)] and [scene_node.translation += v]. *)
Definition run_cmd (c : node_cmd) (s : SimState) : SimState :=
  match c with
  | Rotate angle axis => node_rotate angle axis s
  | TranslateBy v => node_set_translation (vadd (node_translation s) v) s
  end.

Definition pose_update (count : Z) (s : SimState) : SimState :=
  foldl (λ s c, run_cmd c s) s (pose_cmds count).

(** The values of the pickled dictionary. *)
Inductive pickled : Type :=
| PklObservations (l : list Observation)
| PklRotations (l : list Rotation)
| PklTranslations (l : list Vector3)
| PklDict (d : gmap string pyval).

Inductive file : Type :=
| Png (img : image)
| Pickle (d : gmap string pickled).

(** The module-level manager globals; each holds the handle of the simulator
    it was obtained from. *)
Record Managers : Type := {
  obj_attr_mgr : option nat;
  prim_attr_mgr : option nat;
  stage_attr_mgr : option nat;
  rigid_obj_mgr : option nat;
  metadata_mediator : option nat
}.

(** The process state.  [heap] holds every simulator constructed so far,
    a handle being its index; [sim] is the global of that name ([None] is
    Python's [None]); [selected_scene] is [None] while the global is
    unbound; [trace] records engine life-cycle calls, physics steps and
    file writes in the order they happen. *)
Record World : Type := {
  heap : list SimState;
  sim : option nat;
  managers : Managers;
  selected_scene : option string;
  files : gmap string file;
  trace : list event
}.

Definition no_managers : Managers :=
  {| obj_attr_mgr := None; prim_attr_mgr := None; stage_attr_mgr := None;
     rigid_obj_mgr := None; metadata_mediator := None |}.

(** Lines 28-36 in a fresh interpreter, over the files already on disk. *)
Definition initial_world (files0 : gmap string file) : World :=
  {| heap := []; sim := None; managers := no_managers;
     selected_scene := None; files := files0; trace := [] |}.

Definition set_heap (x : list SimState) (w : World) : World :=
  {| heap := x; sim := sim w; managers := managers w;
     selected_scene := selected_scene w; files := files w; trace := trace w |}.
Definition set_sim (x : option nat) (w : World) : World :=
  {| heap := heap w; sim := x; managers := managers w;
     selected_scene := selected_scene w; files := files w; trace := trace w |}.
Definition set_managers (x : Managers) (w : World) : World :=
  {| heap := heap w; sim := sim w; managers := x;
     selected_scene := selected_scene w; files := files w; trace := trace w |}.
Definition set_selected_scene (x : option string) (w : World) : World :=
  {| heap := heap w; sim := sim w; managers := managers w;
     selected_scene := x; files := files w; trace := trace w |}.
Definition set_files (x : gmap string file) (w : World) : World :=
  {| heap := heap w; sim := sim w; managers := managers w;
     selected_scene := selected_scene w; files := x; trace := trace w |}.
Definition add_event (ev : event) (w : World) : World :=
  {| heap := heap w; sim := sim w; managers := managers w;
     selected_scene := selected_scene w; files := files w;
     trace := trace w ++ [ev] |}.

(** ** The state and error monad *)

(** A computation ends normally, raises, or exhausts the fuel given to a
    loop of the model. *)
Inductive result (A : Type) : Type :=
| Ok (a : A) (w : World)
| Raise (e : exn) (w : World)
| OutOfFuel.
Arguments Ok {A} _ _.
Arguments Raise {A} _ _.
Arguments OutOfFuel {A}.

Definition M (A : Type) : Type := World → result A.

Global Instance M_ret : MRet M := λ A a w, Ok a w.
Global Instance M_bind : MBind M := λ A B f m w,
  match m w with
  | Ok a w' => f a w'
  | Raise e w' => Raise e w'
  | OutOfFuel => OutOfFuel
  end.

Definition raise {A : Type} (e : exn) : M A := λ w, Raise e w.
Definition out_of_fuel {A : Type} : M A := λ _, OutOfFuel.
Definition modify (f : World → World) : M unit := λ w, Ok tt (f w).
Definition gets {A : Type} (f : World → A) : M A := λ w, Ok (f w) w.

(** [d[k]] *)
Definition dict_get {V : Type} (d : gmap string V) (k : string) : M V :=
  match d !! k with
  | Some v => mret v
  | None => raise (KeyError k)
  end.

(** The global [sim], for a method call on it. *)
Definition current_sim : M nat :=
  s ← gets sim;
  match s with
  | Some h => mret h
  | None => raise (AttributeError "NoneType")
  end.

Definition sim_get {A : Type} (h : nat) (f : SimState → A) : M A :=
  hp ← gets heap;
  match hp !! h with
  | Some s => mret (f s)
  | None => raise (AttributeError "dangling")
  end.

Definition sim_call (h : nat) (f : SimState → SimState) : M unit :=
  hp ← gets heap;
  match hp !! h with
  | Some s => modify (set_heap (<[h := f s]> hp))
  | None => raise (AttributeError "dangling")
  end.

Definition get_selected_scene : M string :=
  s ← gets selected_scene;
  match s with
  | Some v => mret v
  | None => raise (NameError "selected_scene")
  end.

(** [open(path, "wb")] and a write: the file is created or replaced. *)
Definition write_file (env : Env) (path : string) (content : file) : M unit :=
  if writable env path then
    modify (λ w, add_event (EvWrite path) (set_files (<[path := content]> (files w)) w))
  else raise (OSError path).

(** ** Configuration and simulator life cycle *)

(** [make_cfg] *)
Definition make_cfg (settings : gmap string pyval) : M Configuration :=
  scene_dataset ← dict_get settings "scene_dataset";
  scene ← dict_get settings "scene";
  physics ← dict_get settings "enable_physics";
  let sim_cfg := {|
    gpu_device_id := 0;
    scene_dataset_config_file :=
      default scene_dataset (settings !! "scene_dataset_config");
    scene_id := scene;
    enable_physics := physics;
    override_scene_light_defaults := settings !! "override_scene_light_defaults";
    scene_light_setup := settings !! "scene_light_setup"
  |} in
  height ← dict_get settings "height";
  width ← dict_get settings "width";
  sensor_height ← dict_get settings "sensor_height";
  sensor_pitch ← dict_get settings "sensor_pitch";
  let color_sensor_1st_person_spec := {|
    uuid := "color_sensor_1st_person";
    sensor_type := COLOR;
    resolution := [height; width];
    position := [PFloat 0; sensor_height; PFloat 0];
    orientation := Some [sensor_pitch; PFloat 0; PFloat 0];
    sensor_subtype := PINHOLE
  |} in
  let depth_sensor_spec := {|
    uuid := "depth_sensor";
    sensor_type := DEPTH;
    resolution := [height; width];
    position := [PFloat 0; sensor_height; PFloat 0];
    orientation := None;
    sensor_subtype := PINHOLE
  |} in
  let semantic_sensor_spec := {|
    uuid := "semantic_sensor";
    sensor_type := SEMANTIC;
    resolution := [height; width];
    position := [PFloat 0; sensor_height; PFloat 0];
    orientation := None;
    sensor_subtype := PINHOLE
  |} in
  let sensor_specs :=
    [color_sensor_1st_person_spec; depth_sensor_spec; semantic_sensor_spec] in
  let agent_cfg := {| sensor_specifications := sensor_specs |} in
  mret {| sim_cfg := sim_cfg; agents := [agent_cfg] |}.

(** Lines 139-140: [if sim != None: sim.close()] *)
Definition close_current : M unit :=
  s ← gets sim;
  match s with
  | Some h => sim_call h close;; modify (add_event (EvClose h))
  | None => mret tt
  end.

(** Line 142: [sim = habitat_sim.Simulator(cfg)] *)
Definition new_simulator (cfg : Configuration) : M nat :=
  match Simulator cfg with
  | Some s =>
      hp ← gets heap;
      let h := length hp in
      modify (set_heap (hp ++ [s]));;
      modify (add_event (EvCreate h));;
      modify (set_sim (Some h));;
      mret h
  | None => raise SimulatorError
  end.

(** Lines 144-151: the managers are taken from the new simulator, and the
    example object configurations are loaded through the first of them. *)
Definition derive_managers (env : Env) : M unit :=
  h ← current_sim;
  modify (λ w, set_managers {|
    obj_attr_mgr := Some h;
    prim_attr_mgr := prim_attr_mgr (managers w);
    stage_attr_mgr := stage_attr_mgr (managers w);
    rigid_obj_mgr := rigid_obj_mgr (managers w);
    metadata_mediator := metadata_mediator (managers w) |} w);;
  sim_call h (load_configs (path_join (data_path env) "objects/example_objects"));;
  h ← current_sim;
  modify (λ w, set_managers {|
    obj_attr_mgr := obj_attr_mgr (managers w);
    prim_attr_mgr := Some h;
    stage_attr_mgr := stage_attr_mgr (managers w);
    rigid_obj_mgr := rigid_obj_mgr (managers w);
    metadata_mediator := metadata_mediator (managers w) |} w);;
  h ← current_sim;
  modify (λ w, set_managers {|
    obj_attr_mgr := obj_attr_mgr (managers w);
    prim_attr_mgr := prim_attr_mgr (managers w);
    stage_attr_mgr := Some h;
    rigid_obj_mgr := rigid_obj_mgr (managers w);
    metadata_mediator := metadata_mediator (managers w) |} w);;
  h ← current_sim;
  modify (λ w, set_managers {|
    obj_attr_mgr := obj_attr_mgr (managers w);
    prim_attr_mgr := prim_attr_mgr (managers w);
    stage_attr_mgr := stage_attr_mgr (managers w);
    rigid_obj_mgr := Some h;
    metadata_mediator := metadata_mediator (managers w) |} w);;
  h ← current_sim;
  modify (λ w, set_managers {|
    obj_attr_mgr := obj_attr_mgr (managers w);
    prim_attr_mgr := prim_attr_mgr (managers w);
    stage_attr_mgr := stage_attr_mgr (managers w);
    rigid_obj_mgr := rigid_obj_mgr (managers w);
    metadata_mediator := Some h |} w).

(** [make_simulator_from_settings] *)
Definition make_simulator_from_settings (env : Env)
    (sim_settings : gmap string pyval) : M unit :=
  cfg ← make_cfg sim_settings;
  close_current;;
  new_simulator cfg;;
  derive_managers env;;
  modify (set_selected_scene (Some "NONE")).

(** ** Scene selection *)

(** [on_scene_ddl_change] *)
Definition on_scene_ddl_change (ddl_values : gmap string string) : M string :=
  new ← dict_get ddl_values "new";
  modify (set_selected_scene (Some new));;
  get_selected_scene.

(** [set_handle_ddl_widget]: the dropdown is display only, but its
    constructor validates its arguments: [widgets.Dropdown] raises a
    [TraitError] when [value] is not among [options].  The selection is
    handed back unchanged. *)
Definition set_handle_ddl_widget (scene_handles : list string)
    (sel_handle : string) : M string :=
  if bool_decide (sel_handle ∈ scene_handles) then mret sel_handle
  else raise TraitError.

(** Lines 229-232: the [for] loop with its [break]. *)
Fixpoint first_valid_scene (scene_handles : list string) : M unit :=
  match scene_handles with
  | [] => mret tt
  | scene_handle :: rest =>
      if negb (str_in "NONE" scene_handle) then
        modify (set_selected_scene (Some scene_handle))
      else first_valid_scene rest
  end.

(** [build_widget_ui]; its argument is the mediator of simulator [mm]. *)
Definition build_widget_ui (env : Env) (mm : nat) : M unit :=
  scene_handles ← sim_get mm get_scene_handles;
  (if bool_decide (length scene_handles = 0%nat) then
     modify (set_selected_scene (Some "NONE"))
   else first_valid_scene scene_handles);;
  if negb (HAS_WIDGETS env) then mret tt
  else
    sel ← get_selected_scene;
    sel' ← set_handle_ddl_widget scene_handles sel;
    modify (set_selected_scene (Some sel')).

(** The dropdown's change events, delivered to the registered handler; there
    is no dropdown without widgets. *)
Fixpoint deliver_ui_events (evs : list (gmap string string)) : M unit :=
  match evs with
  | [] => mret tt
  | ev :: rest => on_scene_ddl_change ev;; deliver_ui_events rest
  end.

Definition user_interaction (env : Env) : M unit :=
  if HAS_WIDGETS env then deliver_ui_events (ui_events env) else mret tt.

(** Lines 311-314: the selection is read once and the simulator rebuilt when
    it differs from the settings; returns the settings dictionary. *)
Definition load_selected_scene (env : Env)
    (sim_settings : gmap string pyval) : M (gmap string pyval) :=
  scene ← dict_get sim_settings "scene";
  sel ← get_selected_scene;
  if bool_decide (scene ≠ PStr sel) then
    let sim_settings := <["scene" := PStr sel]> sim_settings in
    make_simulator_from_settings env sim_settings;;
    mret sim_settings
  else mret sim_settings.

(** ** Saving one frame *)

(** A method call on the global [sim] that returns a value, or mutates it. *)
Definition sim_read {A : Type} (f : SimState → A) : M A :=
  h ← current_sim; sim_get h f.

Definition sim_do (f : SimState → SimState) : M unit :=
  h ← current_sim; sim_call h f.

(** The default of [save_sample]'s [save_path] argument. *)
Definition save_path (env : Env) : string := dir_path env +:+ "/output".

Definition rgb_image_path (env : Env) (idx : Z) : string :=
  save_path env +:+ "/rgb_image_" +:+ pretty idx +:+ ".png".
Definition semantic_image_path (env : Env) (idx : Z) : string :=
  save_path env +:+ "/semantic_image_" +:+ pretty idx +:+ ".png".
Definition depth_image_path (env : Env) (idx : Z) : string :=
  save_path env +:+ "/depth_image_" +:+ pretty idx +:+ ".png".

(** Lines 278-281: the palette image built from the semantic buffer. *)
Definition semantic_image (semantic_obs : ndarray Z) : image :=
  ConvertRGBA {|
    p_width := shape1 semantic_obs;
    p_height := shape0 semantic_obs;
    p_palette := flat d3_40_colors_rgb;
    p_data := semantic_indices semantic_obs
  |}.

(** [save_sample] *)
Definition save_sample (env : Env) (rgb_obs : ndarray rgba)
    (semantic_obs : ndarray Z) (depth_obs : ndarray float32) (idx : Z) : M unit :=
  let rgb_img := FromArrayRGBA rgb_obs in
  write_file env (rgb_image_path env idx) (Png rgb_img);;
  let semantic_img := semantic_image semantic_obs in
  write_file env (semantic_image_path env idx) (Png semantic_img);;
  let depth_img := FromArrayL (depth_pixels depth_obs) in
  write_file env (depth_image_path env idx) (Png depth_img).

(** ** The trajectory loop *)

(** The variables the loop updates, lines 316-320. *)
Record Traj : Type := {
  observations : list Observation;
  translations : list Vector3;
  rotations : list Rotation;
  count : Z
}.

Definition traj_init : Traj :=
  {| observations := []; translations := []; rotations := []; count := 1 |}.

(** Line 322: [sim.get_world_time() < start_time + 4.0] *)
Definition loop_guard (start_time : R) : M bool :=
  now ← sim_read get_world_time;
  mret (bool_decide (now < start_time + 4)%R).

(** Lines 323-346: one iteration. *)
Definition loop_body (env : Env) (t : Traj) : M Traj :=
  sim_do (pose_update (count t));;
  h ← current_sim;
  sim_call h (step_physics (1 / 30));;
  modify (add_event (EvStep h));;
  if make_video env then
    observation ← sim_read get_sensor_observations;
    let observations := observations t ++ [observation] in
    let rgb := color_sensor_1st_person observation in
    let semantic := semantic_sensor observation in
    let depth := depth_sensor observation in
    translation ← sim_read node_translation;
    rotation ← sim_read node_rotation;
    let translations := translations t ++ [translation] in
    let rotations := rotations t ++ [rotation] in
    if display env then
      save_sample env rgb semantic depth (count t);;
      mret {| observations := observations; translations := translations;
              rotations := rotations; count := count t + 1 |}
    else
      mret {| observations := observations; translations := translations;
              rotations := rotations; count := count t |}
  else mret t.

(** The [while] loop; [fuel] bounds the number of iterations of the model. *)
Fixpoint trajectory_loop (env : Env) (fuel : nat) (start_time : R)
    (t : Traj) : M Traj :=
  continue ← loop_guard start_time;
  if continue : bool then
    match fuel with
    | O => out_of_fuel
    | S fuel' =>
        t' ← loop_body env t;
        trajectory_loop env fuel' start_time t'
    end
  else mret t.

(** ** The snapshot *)

Definition as_float (v : pyval) : M R :=
  match to_float v with
  | Some x => mret x
  | None => raise TypeError
  end.

(** Lines 349-353 *)
Definition make_camera_info (sim_settings : gmap string pyval)
    : M (gmap string pyval) :=
  width ← dict_get sim_settings "width";
  height ← dict_get sim_settings "height";
  fov ← sim_read color_hfov;
  w ← as_float width;
  let fx := (0.5 * w / tan (radians fov / 2))%R in
  let fy := fx in
  h ← as_float height;
  let cx := (w / 2)%R in
  let cy := (h / 2)%R in
  mret (list_to_map [
    ("width", width); ("height", height); ("fov", PFloat fov);
    ("fx", PFloat fx); ("fy", PFloat fy); ("cx", PFloat cx); ("cy", PFloat cy)
  ]).

(** Lines 354-359 *)
Definition data_to_save (t : Traj) (camera_info : gmap string pyval)
    : gmap string pickled :=
  list_to_map [
    ("observations", PklObservations (observations t));
    ("rotations", PklRotations (rotations t));
    ("translations", PklTranslations (translations t));
    ("camera_info", PklDict camera_info)
  ].

Definition output_filename (env : Env) : string :=
  dir_path env +:+ "/output/data.pkl".

(** Lines 348-363 *)
Definition save_pickle (env : Env) (sim_settings : gmap string pyval)
    (t : Traj) : M unit :=
  camera_info ← make_camera_info sim_settings;
  write_file env (output_filename env) (Pickle (data_to_save t camera_info)).

(** ** The script, lines 296-363 *)

(** Lines 296-304: the first simulator is built from the default settings
    and the scene selection runs on its metadata mediator. *)
Definition startup (env : Env) : M unit :=
  let sim_settings := make_default_settings env in
  make_simulator_from_settings env sim_settings;;
  mm ← current_sim;
  build_widget_ui env mm.

Definition main (env : Env) (fuel : nat) : M unit :=
  let sim_settings := make_default_settings env in
  startup env;;
  user_interaction env;;
  sim_settings ← load_selected_scene env sim_settings;
  start_time ← sim_read get_world_time;
  sim_do (node_set_translation (Vec3 (-2) 0 0));;
  t ← trajectory_loop env fuel start_time traj_init;
  save_pickle env sim_settings t.

(** ** Trace observers *)

(** The simulators alive after a sequence of events. *)
Fixpoint live_after (live : list nat) (tr : list event) : list nat :=
  match tr with
  | [] => live
  | EvCreate h :: tr' => live_after (live ++ [h]) tr'
  | EvClose h :: tr' => live_after (filter (λ h', h' ≠ h) live) tr'
  | _ :: tr' => live_after live tr'
  end.

Definition live (tr : list event) : list nat := live_after [] tr.

(** How often a path was written. *)
Definition write_count (path : string) (tr : list event) : nat :=
  length (filter (λ ev, ev = EvWrite path) tr).

End Script.

Arguments Ok {E A} _ _.
Arguments Raise {E A} _ _.
Arguments OutOfFuel {E A}.

(** ** Predicates used by the statements *)

Section Predicates.
Context {E : Engine}.

(** The states at the head of the loop: [loop_reaches env start t w t' w']
    when some number of iterations, each entered through a true guard, leads
    from [(t, w)] to [(t', w')]. *)
Inductive loop_reaches (env : Env) (start_time : R)
    : Traj → World → Traj → World → Prop :=
| reaches_here t w : loop_reaches env start_time t w t w
| reaches_step t w t1 w1 t2 w2 :
    loop_guard start_time w = Ok true w →
    loop_body env t w = Ok t1 w1 →
    loop_reaches env start_time t1 w1 t2 w2 →
    loop_reaches env start_time t w t2 w2.

(** The events an iteration can add: a physics step, or the write of one of
    the three images of a frame. *)
Definition frame_event (env : Env) (ev : event) : Prop :=
  (∃ h, ev = EvStep h) ∨
  (∃ idx, ev = EvWrite (rgb_image_path env idx) ∨
          ev = EvWrite (semantic_image_path env idx) ∨
          ev = EvWrite (depth_image_path env idx)).

(** Exactly one simulator is alive, the one the global [sim] names. *)
Definition one_live (w : World) : Prop :=
  ∃ h, sim w = Some h ∧ live (trace w) = [h].

(** No simulator is alive but the one the global [sim] names (which may
    itself have been closed). *)
Definition lifecycle_ok (w : World) : Prop :=
  live (trace w) = [] ∨ one_live w.

(** An operation that touches nothing but the stored selection. *)
Definition selection_only (w w' : World) : Prop :=
  heap w' = heap w ∧ sim w' = sim w ∧ trace w' = trace w ∧ files w' = files w.

(** At every point of a trace at most one simulator is alive. *)
Definition at_most_one_live (tr : list event) : Prop :=
  ∀ p, p `prefix_of` tr → (length (live p) ≤ 1)%nat.

(** The events that neither create nor close a simulator. *)
Definition quiet_event (ev : event) : Prop :=
  match ev with
  | EvCreate _ | EvClose _ => False
  | EvStep _ | EvWrite _ => True
  end.

(** The global [sim], when bound to a simulator, names one on the heap. *)
Definition sim_sane (w : World) : Prop :=
  ∀ h, sim w = Some h → is_Some (heap w !! h).

(** The settings keys [make_cfg] reads unconditionally. *)
Definition has_cfg_keys (settings : gmap string pyval) : Prop :=
  Forall (λ k, is_Some (settings !! k))
    ["scene_dataset"; "scene"; "enable_physics"; "height"; "width";
     "sensor_height"; "sensor_pitch"].

(** The events of simulator construction and teardown. *)
Definition lifecycle_event (ev : event) : Prop :=
  ∃ h, ev = EvCreate h ∨ ev = EvClose h.

(** A computation without loops never exhausts fuel. *)
Definition fuel_free {A : Type} (m : M A) : Prop := ∀ w, m w ≠ OutOfFuel.

(** The selection a computation leaves behind, when it ends normally. *)
Definition selection_of {A : Type} (r : result A) : option string :=
  match r with
  | Ok _ w => selected_scene w
  | _ => None
  end.

(** A state as a rebuild leaves it: one simulator [s] on the heap, named by
    [sim], and the selection reset. *)
Definition after_rebuild (s : SimState) : World :=
  {| heap := [s]; sim := Some 0%nat;
     managers := {| obj_attr_mgr := Some 0%nat; prim_attr_mgr := Some 0%nat;
                    stage_attr_mgr := Some 0%nat; rigid_obj_mgr := Some 0%nat;
                    metadata_mediator := Some 0%nat |};
     selected_scene := Some "NONE"; files := ∅; trace := [EvCreate 0] |}.

End Predicates.

(** The scene selection as the specification words it: the first handle that
    is not the sentinel, the sentinel when there is none. *)
Definition spec_choose_scene (scene_handles : list string) : string :=
  default "NONE" (find (λ h, bool_decide (h ≠ "NONE")) scene_handles).

(** The selection as the code makes it, from the handle list alone: the
    first handle in which "NONE" does not occur. *)
Definition first_without_NONE (scene_handles : list string) : option string :=
  find (λ h, negb (str_in "NONE" h)) scene_handles.

(** ** A small engine to run the script on

    Its clock advances two seconds per physics step, its sensors return
    one-pixel buffers, and a rotation is the list of turns applied so far.
    It reports the scene handles it is given. *)

Record ToyState : Type := {
  toy_cfg : Configuration;
  toy_time : R;
  toy_translation : Vector3;
  toy_rotation : list (R * Vector3);
  toy_closed : bool
}.

Definition toy_observation : Observation :=
  {| color_sensor_1st_person := NdArray 1 1 [(0, 0, 0, 255)];
     depth_sensor := NdArray 1 1 [float32_of_Z 10];
     semantic_sensor := NdArray 1 1 [83] |}.

Definition toy_engine (scene_handles : list string) : Engine := {|
  SimState := ToyState;
  Rotation := list (R * Vector3);
  Simulator cfg := Some {| toy_cfg := cfg; toy_time := 0;
                           toy_translation := Vec3 0 0 0; toy_rotation := [];
                           toy_closed := false |};
  close s := {| toy_cfg := toy_cfg s; toy_time := toy_time s;
                toy_translation := toy_translation s;
                toy_rotation := toy_rotation s; toy_closed := true |};
  load_configs _ s := s;
  get_world_time := toy_time;
  step_physics dt s := {| toy_cfg := toy_cfg s; toy_time := toy_time s + 60 * dt;
                          toy_translation := toy_translation s;
                          toy_rotation := toy_rotation s;
                          toy_closed := toy_closed s |};
  get_sensor_observations _ := toy_observation;
  get_scene_handles _ := scene_handles;
  node_translation := toy_translation;
  node_set_translation v s := {| toy_cfg := toy_cfg s; toy_time := toy_time s;
                                 toy_translation := v;
                                 toy_rotation := toy_rotation s;
                                 toy_closed := toy_closed s |};
  node_rotation := toy_rotation;
  node_rotate a ax s := {| toy_cfg := toy_cfg s; toy_time := toy_time s;
                           toy_translation := toy_translation s;
                           toy_rotation := (a, ax) :: toy_rotation s;
                           toy_closed := toy_closed s |};
  rotated a ax q := (a, ax) :: q;
  color_hfov _ := 90%R;
  d3_40_colors_rgb := NdArray 40 3 (replicate 120 0)
|}.

Definition toy_state (t : R) : ToyState :=
  {| toy_cfg := {| sim_cfg := {| gpu_device_id := 0;
                                 scene_dataset_config_file := PStr "";
                                 scene_id := PStr "NONE";
                                 enable_physics := PBool true;
                                 override_scene_light_defaults := None;
                                 scene_light_setup := None |};
                   agents := [] |};
     toy_time := t; toy_translation := Vec3 0 0 0; toy_rotation := [];
     toy_closed := false |}.

Definition toy_handles : list string := ["NONE"; "apt_0"].

(** The small engine's state right after a build. *)
Definition toy_world : World (E := toy_engine toy_handles) :=
  after_rebuild (E := toy_engine toy_handles) (toy_state 0).

(** A command-line run in a checkout at [/repo], every path writable. *)
Definition toy_env (widgets no_disp : bool) : Env := {|
  HAS_WIDGETS := widgets;
  is_main := true;
  no_display := no_disp;
  no_make_video := false;
  dir_path := "/repo";
  writable := λ _, true;
  ui_events := []
|}.

(** ** The helper [simulate] *)

Section Helpers.
Context {E : Engine}.

(** The [while] loop of [simulate], lines 171-174, on the simulator [h];
    [deadline] is [start_time + dt]. *)
Fixpoint simulate_loop (fuel : nat) (h : nat) (deadline : R) (get_frames : bool)
    (observations : list Observation) : M (list Observation) :=
  tm ← sim_get h get_world_time;
  if bool_decide (tm < deadline)%R then
    match fuel with
    | O => out_of_fuel
    | S fuel' =>
        sim_call h (step_physics (1 / 60));;
        modify (add_event (EvStep h));;
        if get_frames then
          observation ← sim_get h get_sensor_observations;
          simulate_loop fuel' h deadline get_frames (observations ++ [observation])
        else simulate_loop fuel' h deadline get_frames observations
    end
  else mret observations.

(** [simulate(sim, dt, get_frames)], its argument [sim] being the simulator
    [h]. *)
Definition simulate (fuel : nat) (h : nat) (dt : R) (get_frames : bool)
    : M (list Observation) :=
  let observations := [] in
  start_time ← sim_get h get_world_time;
  simulate_loop fuel h (start_time + dt) get_frames observations.

(** ** Further observers *)

(** The simulator state after [k] physics steps of [dt] seconds. *)
Definition after_steps (dt : R) (k : nat) (s : SimState) : SimState :=
  Nat.iter k (step_physics dt) s.

(** How a computation leaves a property of the state: [keeps I m] when [m],
    started where [I] holds, ends where [I] holds, whether it returns or
    raises. *)
Definition keeps (I : World → Prop) {A : Type} (m : M A) : Prop :=
  ∀ w, I w →
    match m w with
    | Ok _ w' | Raise _ w' => I w'
    | OutOfFuel => True
    end.

(** How often simulator [h] was stepped. *)
Definition step_count (h : nat) (tr : list event) : nat :=
  length (filter (λ ev, ev = EvStep h) tr).

(** The simulator constructions and teardowns of a trace, in order. *)
Definition lifecycle_part (tr : list event) : list event :=
  List.filter (λ ev, match ev with
                     | EvCreate _ | EvClose _ => true
                     | EvStep _ | EvWrite _ => false
                     end) tr.

(** The paths written, in order. *)
Definition written_paths (tr : list event) : list string :=
  omap (λ ev, match ev with EvWrite p => Some p | _ => None end) tr.

(** The events of one captured and displayed frame. *)
Definition frame_events (env : Env) (h : nat) (idx : Z) : list event :=
  [EvStep h; EvWrite (rgb_image_path env idx);
   EvWrite (semantic_image_path env idx); EvWrite (depth_image_path env idx)].

(** The snapshot file is as it was found, and no write to it is recorded. *)
Definition snapshot_untouched (env : Env) (files0 : gmap string file)
    (w : World) : Prop :=
  write_count (output_filename env) (trace w) = 0%nat ∧
  files w !! output_filename env = files0 !! output_filename env.

(** The image files of the frames captured so far, as long as frame [k] of
    the list carries the number [first + k]. *)
Definition frames_on_disk (env : Env) (first : Z) (t : Traj) (w : World) : Prop :=
  ∀ (k : nat) o, observations t !! k = Some o →
    files w !! rgb_image_path env (first + Z.of_nat k) =
      Some (Png (FromArrayRGBA (color_sensor_1st_person o))) ∧
    files w !! semantic_image_path env (first + Z.of_nat k) =
      Some (Png (semantic_image (semantic_sensor o))) ∧
    files w !! depth_image_path env (first + Z.of_nat k) =
      Some (Png (FromArrayL (depth_pixels (depth_sensor o)))).

(** [keeps_on_raise I m]: where [m] raises, started where [I] holds, [I]
    holds in the state it leaves. *)
Definition keeps_on_raise (I : World → Prop) {A : Type} (m : M A) : Prop :=
  ∀ w, I w →
    match m w with
    | Raise _ w' => I w'
    | _ => True
    end.

End Helpers.

(** The settings keys [make_cfg] reads unconditionally, in the order of its
    reads. *)
Definition cfg_keys : list string :=
  ["scene_dataset"; "scene"; "enable_physics"; "height"; "width";
   "sensor_height"; "sensor_pitch"].

Definition first_missing_key (settings : gmap string pyval) : option string :=
  find (λ k, bool_decide (settings !! k = None)) cfg_keys.

(** [a] occurs in [b]: some prefix and suffix surround it. *)
Definition occurs_in (a b : string) : Prop :=
  ∃ pre post, b = pre +:+ a +:+ post.

(** The small engine with a constructor that knows the empty scene only:
    for any other scene it raises. *)
Definition picky_engine (scene_handles : list string) : Engine :=
  let T := toy_engine scene_handles in {|
  SimState := @SimState T;
  Rotation := @Rotation T;
  Simulator cfg :=
    if bool_decide (scene_id (sim_cfg cfg) = PStr "NONE") then @Simulator T cfg
    else None;
  close := @close T;
  load_configs := @load_configs T;
  get_world_time := @get_world_time T;
  step_physics := @step_physics T;
  get_sensor_observations := @get_sensor_observations T;
  get_scene_handles := @get_scene_handles T;
  node_translation := @node_translation T;
  node_set_translation := @node_set_translation T;
  node_rotation := @node_rotation T;
  node_rotate := @node_rotate T;
  rotated := @rotated T;
  color_hfov := @color_hfov T;
  d3_40_colors_rgb := @d3_40_colors_rgb T
|}.

(** A command-line run with [--no-make-video]. *)
Definition toy_env_no_video : Env := {|
  HAS_WIDGETS := false;
  is_main := true;
  no_display := false;
  no_make_video := true;
  dir_path := "/repo";
  writable := λ _, true;
  ui_events := []
|}.

(** A checkout in which nothing can be written. *)
Definition toy_env_read_only : Env := {|
  HAS_WIDGETS := false;
  is_main := true;
  no_display := false;
  no_make_video := false;
  dir_path := "/repo";
  writable := λ _, false;
  ui_events := []
|}.

(** * Properties *)

(** ** Buffer conversions *)


Lemma powerRZ_2_gt0 (e : Z) : (0 < powerRZ 2 e)%R.
Proof. apply powerRZ_lt. lra. Qed.





Lemma scaled_le_inv (a b e : Z) : (scaled a e <= scaled b e)%R → a ≤ b.
Proof.
  unfold scaled. intros H. apply le_IZR.
  pose proof (powerRZ_2_gt0 e). nra.
Qed.

Lemma scaled_inj (a b e : Z) : scaled a e = scaled b e → a = b.
Proof.
  intros H. apply Z.le_antisymm; apply (scaled_le_inv _ _ e); rewrite H; lra.
Qed.

























Lemma semantic_index_mod (v : Z) : semantic_index v = v mod 40.
Proof.
  unfold semantic_index, astype_uint8_int.
  apply Z.mod_small. pose proof (Z.mod_pos_bound v 40). lia.
Qed.

Lemma semantic_indices_map (semantic_obs : ndarray Z) :
  semantic_indices semantic_obs = (λ v, v mod 40) <$> flat semantic_obs.
Proof.
  unfold semantic_indices. rewrite <- list_fmap_compose.
  apply list_fmap_ext. intros _ v _. apply (semantic_index_mod v).
Qed.

(** ** The pose state machine *)

Section PoseMachine.
Context {E : Engine}.

Lemma pose_update_cmds (count : Z) (s : SimState) :
  pose_update count s = foldl (λ s c, run_cmd c s) s (pose_cmds count).
Proof. reflexivity. Qed.

Lemma pose_cmds_turning (count : Z) :
  count < 40 → pose_cmds count = [Rotate yaw_step y_axis].
Proof.
  intros H. unfold pose_cmds.
  destruct (Z.ltb_spec count 40); [reflexivity|lia].
Qed.

Lemma pose_cmds_advancing_x (count : Z) :
  40 ≤ count < 60 →
  pose_cmds count = [TranslateBy (Vec3 0.3 0 0); Rotate yaw_step y_axis].
Proof.
  intros H. unfold pose_cmds.
  destruct (Z.ltb_spec count 40); [lia|].
  destruct (Z.ltb_spec count 60); [reflexivity|lia].
Qed.

Lemma pose_cmds_advancing_z (count : Z) :
  60 ≤ count < 80 →
  pose_cmds count = [TranslateBy (Vec3 0.0 0 0.3); Rotate yaw_step y_axis].
Proof.
  intros H. unfold pose_cmds.
  destruct (Z.ltb_spec count 40); [lia|].
  destruct (Z.ltb_spec count 60); [lia|].
  destruct (Z.ltb_spec count 80); [reflexivity|lia].
Qed.

Lemma pose_cmds_drifting (count : Z) :
  80 ≤ count → pose_cmds count = [TranslateBy (Vec3 (-0.1) 0 (-0.1))].
Proof.
  intros H. unfold pose_cmds.
  destruct (Z.ltb_spec count 40); [lia|].
  destruct (Z.ltb_spec count 60); [lia|].
  destruct (Z.ltb_spec count 80); [lia|reflexivity].
Qed.

End PoseMachine.

(** C1: the pose change of an iteration is a function of [count] alone.
    Below 40 (so at 39) it is one rotation by -(pi/2)/20 about the Y axis and
    nothing else; from 40 to 59 the translation grows by (0.3, 0, 0) and the
    same rotation follows; from 60 to 79 the translation grows by
    (0, 0, 0.3) and the same rotation follows; from 80 on the translation
    grows by (-0.1, 0, -0.1) and there is no rotation. *)
Theorem pose_delta_by_count (E : Engine) (s : SimState) (count : Z) :
  let yaw := (- (PI / 2) / 20)%R in
  let Y := Vec3 0 1 0 in
  let translated v := node_set_translation (vadd (node_translation s) v) s in
  (count < 40 → pose_update count s = node_rotate yaw Y s) ∧
  (40 ≤ count < 60 →
     pose_update count s = node_rotate yaw Y (translated (Vec3 0.3 0 0))) ∧
  (60 ≤ count < 80 →
     pose_update count s = node_rotate yaw Y (translated (Vec3 0 0 0.3))) ∧
  (80 ≤ count →
     pose_update count s = translated (Vec3 (-0.1) 0 (-0.1))).
Proof.
  intros yaw Y translated. rewrite pose_update_cmds.
  split; [|split; [|split]]; intros H.
  - rewrite pose_cmds_turning by lia. reflexivity.
  - rewrite pose_cmds_advancing_x by lia. reflexivity.
  - rewrite pose_cmds_advancing_z by lia. simpl. unfold translated.
    replace 0.0%R with 0%R by lra. reflexivity.
  - rewrite pose_cmds_drifting by lia. reflexivity.
Qed.

(** On a scene node that keeps translation and orientation apart, the pose
    change reads off as a pair: what is added to the translation, and
    whether the orientation is turned by -(pi/2)/20 about the Y axis. *)
Theorem pose_update_effect (E : Engine) (HN : SceneNodeLaws E)
    (s : SimState) (count : Z) :
  let yaw := (- (PI / 2) / 20)%R in
  let Y := Vec3 0 1 0 in
  let turned := rotated yaw Y (node_rotation s) in
  let moved v := vadd (node_translation s) v in
  (count < 40 →
     node_translation (pose_update count s) = node_translation s ∧
     node_rotation (pose_update count s) = turned) ∧
  (40 ≤ count < 60 →
     node_translation (pose_update count s) = moved (Vec3 0.3 0 0) ∧
     node_rotation (pose_update count s) = turned) ∧
  (60 ≤ count < 80 →
     node_translation (pose_update count s) = moved (Vec3 0 0 0.3) ∧
     node_rotation (pose_update count s) = turned) ∧
  (80 ≤ count →
     node_translation (pose_update count s) = moved (Vec3 (-0.1) 0 (-0.1)) ∧
     node_rotation (pose_update count s) = node_rotation s).
Proof.
  intros yaw Y turned moved. rewrite pose_update_cmds.
  split; [|split; [|split]]; intros H.
  - rewrite pose_cmds_turning by lia. simpl.
    rewrite translation_rotate, rotation_rotate. split; reflexivity.
  - rewrite pose_cmds_advancing_x by lia. simpl.
    rewrite translation_rotate, rotation_rotate, translation_set, rotation_set.
    split; reflexivity.
  - rewrite pose_cmds_advancing_z by lia. simpl.
    rewrite translation_rotate, rotation_rotate, translation_set, rotation_set.
    replace 0.0%R with 0%R by lra. split; reflexivity.
  - rewrite pose_cmds_drifting by lia. simpl.
    rewrite translation_set, rotation_set. split; reflexivity.
Qed.

(** ** Stepping through monadic code *)

Section Exec.
Context {E : Engine}.

Lemma bind_Ok {A B : Type} (m : M A) (f : A → M B) w b w' :
  (m ≫= f) w = Ok b w' → ∃ a w1, m w = Ok a w1 ∧ f a w1 = Ok b w'.
Proof.
  unfold mbind, M_bind. destruct (m w) as [a w1|e w1|]; [|discriminate..].
  intros H. exists a, w1. split; [reflexivity|exact H].
Qed.

Lemma bind_Ok_intro {A B : Type} (m : M A) (f : A → M B) w a w1 :
  m w = Ok a w1 → (m ≫= f) w = f a w1.
Proof. unfold mbind, M_bind. intros ->. reflexivity. Qed.

Lemma mret_Ok {A : Type} (a b : A) w w' :
  (mret a : M A) w = Ok b w' → b = a ∧ w' = w.
Proof. unfold mret, M_ret. intros [= -> ->]. split; reflexivity. Qed.

Lemma gets_Ok {A : Type} (f : World → A) w a w' :
  gets f w = Ok a w' → a = f w ∧ w' = w.
Proof. unfold gets. intros [= <- <-]. split; reflexivity. Qed.

Lemma modify_Ok (f : World → World) w u w' :
  modify f w = Ok u w' → w' = f w.
Proof. unfold modify. intros [= _ <-]. reflexivity. Qed.

Lemma dict_get_Ok {V : Type} (d : gmap string V) k w v w' :
  dict_get d k w = Ok v w' → d !! k = Some v ∧ w' = w.
Proof.
  unfold dict_get. destruct (d !! k) as [v0|]; [|discriminate].
  intros [-> ->]%mret_Ok. split; reflexivity.
Qed.

Lemma dict_get_Some {V : Type} (d : gmap string V) k v w :
  d !! k = Some v → dict_get d k w = Ok v w.
Proof. unfold dict_get. intros ->. reflexivity. Qed.

Lemma current_sim_Ok w h w' :
  current_sim w = Ok h w' → sim w = Some h ∧ w' = w.
Proof.
  unfold current_sim. intros (s & w1 & [-> ->]%gets_Ok & H)%bind_Ok.
  destruct (sim w) as [h0|]; [|discriminate].
  apply mret_Ok in H as [-> ->]. split; reflexivity.
Qed.

Lemma sim_get_Ok {A : Type} h (f : SimState → A) w a w' :
  sim_get h f w = Ok a w' → ∃ s, heap w !! h = Some s ∧ a = f s ∧ w' = w.
Proof.
  unfold sim_get. intros (hp & w1 & [-> ->]%gets_Ok & H)%bind_Ok.
  destruct (heap w !! h) as [s|]; [|discriminate].
  apply mret_Ok in H as [-> ->]. exists s. repeat split.
Qed.

Lemma sim_call_Ok h (f : SimState → SimState) w u w' :
  sim_call h f w = Ok u w' →
  ∃ s, heap w !! h = Some s ∧ w' = set_heap (<[h := f s]> (heap w)) w.
Proof.
  unfold sim_call. intros (hp & w1 & [-> ->]%gets_Ok & H)%bind_Ok.
  destruct (heap w !! h) as [s|]; [|discriminate].
  apply modify_Ok in H. exists s. split; [reflexivity|exact H].
Qed.

Lemma sim_read_Ok {A : Type} (f : SimState → A) w a w' :
  sim_read f w = Ok a w' →
  ∃ h s, sim w = Some h ∧ heap w !! h = Some s ∧ a = f s ∧ w' = w.
Proof.
  unfold sim_read. intros (h & w1 & [Hs ->]%current_sim_Ok & H)%bind_Ok.
  apply sim_get_Ok in H as (s & Hh & -> & ->). exists h, s. repeat split; assumption.
Qed.

Lemma sim_read_Some {A : Type} (f : SimState → A) w h s :
  sim w = Some h → heap w !! h = Some s → sim_read f w = Ok (f s) w.
Proof.
  intros Hs Hh. unfold sim_read, current_sim, sim_get, gets, mbind, M_bind.
  rewrite Hs. simpl. rewrite Hh. reflexivity.
Qed.

Lemma sim_do_Some (f : SimState → SimState) w h s :
  sim w = Some h → heap w !! h = Some s →
  sim_do f w = Ok tt (set_heap (<[h := f s]> (heap w)) w).
Proof.
  intros Hs Hh. unfold sim_do, current_sim, sim_call, gets, mbind, M_bind.
  rewrite Hs. simpl. rewrite Hh. reflexivity.
Qed.

Lemma sim_do_Ok (f : SimState → SimState) w u w' :
  sim_do f w = Ok u w' →
  ∃ h s, sim w = Some h ∧ heap w !! h = Some s ∧
         w' = set_heap (<[h := f s]> (heap w)) w.
Proof.
  unfold sim_do. intros (h & w1 & [Hs ->]%current_sim_Ok & H)%bind_Ok.
  apply sim_call_Ok in H as (s & Hh & ->). exists h, s. repeat split; assumption.
Qed.

Lemma get_selected_scene_Ok w v w' :
  get_selected_scene w = Ok v w' → selected_scene w = Some v ∧ w' = w.
Proof.
  unfold get_selected_scene. intros (s & w1 & [-> ->]%gets_Ok & H)%bind_Ok.
  destruct (selected_scene w) as [v0|]; [|discriminate].
  apply mret_Ok in H as [-> ->]. split; reflexivity.
Qed.

Lemma write_file_Ok env path content w u w' :
  write_file env path content w = Ok u w' →
  writable env path = true ∧
  w' = add_event (EvWrite path) (set_files (<[path := content]> (files w)) w).
Proof.
  unfold write_file. destruct (writable env path); [|discriminate].
  intros ->%modify_Ok. split; reflexivity.
Qed.

(** [make_cfg] only reads its argument: the state is untouched and the
    configuration names the scene of the settings. *)
Lemma make_cfg_Ok settings w cfg w' :
  make_cfg settings w = Ok cfg w' →
  w' = w ∧ settings !! "scene" = Some (scene_id (sim_cfg cfg)).
Proof.
  unfold make_cfg.
  intros (v1 & w1 & [_ ->]%dict_get_Ok & H)%bind_Ok.
  apply bind_Ok in H as (v2 & w2 & [Hscene ->]%dict_get_Ok & H).
  apply bind_Ok in H as (v3 & w3 & [_ ->]%dict_get_Ok & H).
  apply bind_Ok in H as (v4 & w4 & [_ ->]%dict_get_Ok & H).
  apply bind_Ok in H as (v5 & w5 & [_ ->]%dict_get_Ok & H).
  apply bind_Ok in H as (v6 & w6 & [_ ->]%dict_get_Ok & H).
  apply bind_Ok in H as (v7 & w7 & [_ ->]%dict_get_Ok & H).
  apply mret_Ok in H as [-> ->]. split; [reflexivity|exact Hscene].
Qed.

Lemma close_current_Ok w u w' :
  close_current w = Ok u w' →
  match sim w with
  | Some h => ∃ s, heap w !! h = Some s ∧
      w' = add_event (EvClose h) (set_heap (<[h := close s]> (heap w)) w)
  | None => w' = w
  end.
Proof.
  unfold close_current. intros (s & w1 & [-> ->]%gets_Ok & H)%bind_Ok.
  destruct (sim w) as [h|].
  - apply bind_Ok in H as (u1 & w1 & (s & Hs & ->)%sim_call_Ok & H).
    apply modify_Ok in H. exists s. split; [exact Hs|exact H].
  - apply mret_Ok in H as [_ ->]. reflexivity.
Qed.

Lemma new_simulator_Ok cfg w h w' :
  new_simulator cfg w = Ok h w' →
  ∃ s, Simulator cfg = Some s ∧ h = length (heap w) ∧
       w' = set_sim (Some h) (add_event (EvCreate h) (set_heap (heap w ++ [s]) w)).
Proof.
  unfold new_simulator. destruct (Simulator cfg) as [s|]; [|discriminate].
  intros (hp & w1 & [-> ->]%gets_Ok & H)%bind_Ok.
  apply bind_Ok in H as (u1 & w1 & ->%modify_Ok & H).
  apply bind_Ok in H as (u2 & w2 & ->%modify_Ok & H).
  apply bind_Ok in H as (u3 & w3 & ->%modify_Ok & H).
  apply mret_Ok in H as [-> ->]. exists s. repeat split.
Qed.

Lemma derive_managers_Ok env w u w' :
  derive_managers env w = Ok u w' →
  ∃ h s, sim w = Some h ∧ heap w !! h = Some s ∧
    sim w' = sim w ∧ trace w' = trace w ∧ files w' = files w ∧
    selected_scene w' = selected_scene w ∧
    heap w' = <[h := load_configs
                  (path_join (data_path env) "objects/example_objects") s]> (heap w) ∧
    metadata_mediator (managers w') = Some h.
Proof.
  unfold derive_managers. intros (h & w1 & [Hs ->]%current_sim_Ok & H)%bind_Ok.
  apply bind_Ok in H as (u1 & w1 & ->%modify_Ok & H).
  apply bind_Ok in H as (u2 & w2 & (s & Hh & ->)%sim_call_Ok & H).
  apply bind_Ok in H as (h2 & w3 & [Hs2 ->]%current_sim_Ok & H).
  apply bind_Ok in H as (u3 & w3 & ->%modify_Ok & H).
  apply bind_Ok in H as (h3 & w4 & [Hs3 ->]%current_sim_Ok & H).
  apply bind_Ok in H as (u4 & w4 & ->%modify_Ok & H).
  apply bind_Ok in H as (h4 & w5 & [Hs4 ->]%current_sim_Ok & H).
  apply bind_Ok in H as (u5 & w5 & ->%modify_Ok & H).
  apply bind_Ok in H as (h5 & w6 & [Hs5 ->]%current_sim_Ok & H).
  apply modify_Ok in H as ->.
  simpl in *. exists h, s. repeat split; try assumption. congruence.
Qed.

(** What a completed rebuild leaves behind. *)
Lemma make_simulator_from_settings_Ok env settings w u w' :
  make_simulator_from_settings env settings w = Ok u w' →
  ∃ cfg s0,
    settings !! "scene" = Some (scene_id (sim_cfg cfg)) ∧
    Simulator cfg = Some s0 ∧
    sim w' = Some (length (heap w)) ∧
    length (heap w') = S (length (heap w)) ∧
    heap w' !! length (heap w) =
      Some (load_configs (path_join (data_path env) "objects/example_objects") s0) ∧
    trace w' = trace w ++ from_option (λ h0, [EvClose h0]) [] (sim w)
                       ++ [EvCreate (length (heap w))] ∧
    files w' = files w ∧
    metadata_mediator (managers w') = Some (length (heap w)) ∧
    selected_scene w' = Some "NONE".
Proof.
  unfold make_simulator_from_settings.
  intros (cfg & w1 & [-> Hscene]%make_cfg_Ok & H)%bind_Ok.
  apply bind_Ok in H as (u1 & w1 & Hclose%close_current_Ok & H).
  apply bind_Ok in H as (h & w2 & (s0 & Hsim & -> & ->)%new_simulator_Ok & H).
  apply bind_Ok in H as (u2 & w3 & Hm%derive_managers_Ok & H).
  apply modify_Ok in H as ->.
  destruct Hm as (h & s & Hh & Hs & Hsim' & Htr & Hfiles & Hsel & Hheap & Hmm).
  simpl in Hh. injection Hh as <-.
  assert (Hlen : length (heap w1) = length (heap w)).
  { destruct (sim w) as [h0|].
    - destruct Hclose as (s1 & _ & ->). simpl. apply length_insert.
    - subst w1. reflexivity. }
  simpl in *. rewrite Hlen in *.
  exists cfg, s0. split; [exact Hscene|]. split; [exact Hsim|].
  split; [rewrite Hsim'; reflexivity|].
  assert (Hs0 : (heap w1 ++ [s0]) !! length (heap w) = Some s0).
  { rewrite <- Hlen. rewrite lookup_app_r by lia.
    replace (length (heap w1) - length (heap w1))%nat with 0%nat by lia.
    reflexivity. }
  rewrite Hs0 in Hs. injection Hs as <-.
  split; [rewrite Hheap, length_insert, length_app; simpl; lia|].
  split.
  { rewrite Hheap. apply list_lookup_insert_eq.
    rewrite length_app; simpl; lia. }
  split.
  { rewrite Htr. destruct (sim w) as [h0|].
    - destruct Hclose as (s1 & _ & ->). simpl. rewrite <- app_assoc. reflexivity.
    - subst w1. reflexivity. }
  split.
  { rewrite Hfiles. destruct (sim w) as [h0|].
    - destruct Hclose as (s1 & _ & ->). reflexivity.
    - subst w1. reflexivity. }
  split; [exact Hmm|reflexivity].
Qed.

(** ** Live simulators *)

Lemma live_after_app l tr1 tr2 :
  live_after l (tr1 ++ tr2) = live_after (live_after l tr1) tr2.
Proof.
  revert l. induction tr1 as [|ev tr1 IH]; intros l; [reflexivity|].
  destruct ev; simpl; apply IH.
Qed.

Lemma live_app tr1 tr2 : live (tr1 ++ tr2) = live_after (live tr1) tr2.
Proof. apply live_after_app. Qed.

Lemma live_after_close_only h : live_after [h] [EvClose h] = [].
Proof. simpl. rewrite filter_cons. case_decide; [congruence|reflexivity]. Qed.

Lemma lifecycle_ok_initial files0 : lifecycle_ok (initial_world files0).
Proof. left. reflexivity. Qed.

(** Between the start and the end of a rebuild at most one simulator is
    alive, and exactly one at its end. *)
Lemma rebuild_live w tr (closes : list event) h :
  lifecycle_ok w →
  closes = from_option (λ h0, [EvClose h0]) [] (sim w) →
  live (trace w ++ closes ++ [EvCreate h]) = [h] ∧
  (trace w `prefix_of` tr → tr `prefix_of` trace w ++ closes ++ [EvCreate h] →
   (length (live tr) ≤ 1)%nat).
Proof.
  intros Hok ->.
  assert (Hclosed : live_after (live (trace w))
            (from_option (λ h0, [EvClose h0]) [] (sim w)) = []).
  { destruct Hok as [Hl|(h0 & Hs & Hl)]; rewrite Hl.
    - destruct (sim w); reflexivity.
    - rewrite Hs. apply live_after_close_only. }
  assert (Hstart : (length (live (trace w)) ≤ 1)%nat).
  { destruct Hok as [Hl|(h0 & _ & Hl)]; rewrite Hl; simpl; lia. }
  split.
  - rewrite app_assoc, live_app, live_app, Hclosed. reflexivity.
  - intros [k1 ->] [k2 Hk]. rewrite <- app_assoc in Hk.
    apply app_inv_head in Hk. rewrite live_app.
    destruct (sim w) as [h0|]; simpl in Hk, Hclosed.
    + destruct k1 as [|e1 [|e2 [|e3 k1]]]; simplify_eq/=;
        rewrite ?Hclosed; simpl; try lia; destruct k1; discriminate.
    + destruct k1 as [|e1 [|e2 k1]]; simplify_eq/=;
        rewrite ?Hclosed; simpl; try lia; destruct k1; discriminate.
Qed.

(** C10: a rebuild that returns ends by resetting the stored selection to
    "NONE".  In particular, when the script's re-read finds a selection other
    than the default scene "NONE", it loads that scene (the new simulator is
    built from a configuration that names it, and the settings record it),
    and the stored selection is "NONE" afterwards, not the scene loaded. *)
Theorem rebuild_resets_selection (env : Env) :
  (∀ sim_settings (w w' : World),
     make_simulator_from_settings env sim_settings w = Ok tt w' →
     selected_scene w' = Some "NONE") ∧
  (∀ (w w' : World) sim_settings' sel,
     selected_scene w = Some sel → sel ≠ "NONE" →
     load_selected_scene env (make_default_settings env) w = Ok sim_settings' w' →
     sim_settings' !! "scene" = Some (PStr sel) ∧
     (∃ cfg s0, Simulator cfg = Some s0 ∧ scene_id (sim_cfg cfg) = PStr sel ∧
        sim w' = Some (length (heap w)) ∧
        trace w' = trace w ++ from_option (λ h0, [EvClose h0]) [] (sim w)
                           ++ [EvCreate (length (heap w))]) ∧
     selected_scene w' = Some "NONE" ∧
     selected_scene w' ≠ Some sel).
Proof.
  split.
  - intros st w w' H.
    apply make_simulator_from_settings_Ok in H
      as (cfg & s0 & _ & _ & _ & _ & _ & _ & _ & _ & Hsel). exact Hsel.
  - intros w w' st sel Hsel Hne H. unfold load_selected_scene in H.
    apply bind_Ok in H as (scene & w1 & [Hscene ->]%dict_get_Ok & H).
    assert (scene = PStr "NONE") as ->.
    { unfold make_default_settings in Hscene. simpl in Hscene.
      rewrite lookup_insert_ne in Hscene by discriminate.
      rewrite lookup_insert_ne in Hscene by discriminate.
      rewrite lookup_insert_ne in Hscene by discriminate.
      rewrite lookup_insert_eq in Hscene. congruence. }
    apply bind_Ok in H as (sel' & w1 & [Hsel' ->]%get_selected_scene_Ok & H).
    rewrite Hsel in Hsel'. injection Hsel' as <-.
    rewrite bool_decide_eq_true_2 in H by congruence.
    apply bind_Ok in H as (u & w1 & Hre & H).
    apply mret_Ok in H as [-> ->].
    apply make_simulator_from_settings_Ok in Hre
      as (cfg & s0 & Hcfg & Hsim & Hs & _ & _ & Htr & _ & _ & Hnone).
    rewrite lookup_insert_eq in Hcfg. injection Hcfg as Hcfg.
    split; [apply lookup_insert_eq|]. split.
    + exists cfg, s0. repeat split; [exact Hsim|congruence|exact Hs|exact Htr].
    + split; [exact Hnone|]. rewrite Hnone. congruence.
Qed.

End Exec.

(** ** Output paths *)

Lemma string_app_assoc (s1 s2 s3 : string) :
  (s1 +:+ s2) +:+ s3 = s1 +:+ (s2 +:+ s3).
Proof.
  induction s1 as [|a s1 IH]; [reflexivity|].
  change (String a ((s1 +:+ s2) +:+ s3) = String a (s1 +:+ (s2 +:+ s3))).
  f_equal. exact IH.
Qed.

Lemma rgb_image_path_not_pickle env idx :
  rgb_image_path env idx ≠ output_filename env.
Proof.
  unfold rgb_image_path, output_filename, save_path.
  rewrite string_app_assoc. intros H%String.app_inj.
  cbv -[pretty] in H. discriminate H.
Qed.

Lemma semantic_image_path_not_pickle env idx :
  semantic_image_path env idx ≠ output_filename env.
Proof.
  unfold semantic_image_path, output_filename, save_path.
  rewrite string_app_assoc. intros H%String.app_inj.
  cbv -[pretty] in H. discriminate H.
Qed.

Lemma depth_image_path_not_pickle env idx :
  depth_image_path env idx ≠ output_filename env.
Proof.
  unfold depth_image_path, output_filename, save_path.
  rewrite string_app_assoc. intros H%String.app_inj.
  cbv -[pretty] in H. discriminate H.
Qed.

Lemma semantic_image_path_not_depth env idx :
  semantic_image_path env idx ≠ depth_image_path env idx.
Proof.
  unfold semantic_image_path, depth_image_path.
  intros H%String.app_inj. cbv -[pretty] in H. discriminate H.
Qed.

(** ** The trajectory loop *)

Section Loop.
Context {E : Engine}.

Lemma frame_event_not_pickle env ev :
  frame_event env ev → ev ≠ EvWrite (output_filename env).
Proof.
  intros [[h ->] | [idx [-> | [-> | ->]]]]; [discriminate|..]; intros [= H]; revert H.
  - apply rgb_image_path_not_pickle.
  - apply semantic_image_path_not_pickle.
  - apply depth_image_path_not_pickle.
Qed.

Lemma save_sample_Ok env rgb semantic depth idx w u w' :
  save_sample env rgb semantic depth idx w = Ok u w' →
  heap w' = heap w ∧ sim w' = sim w ∧ selected_scene w' = selected_scene w ∧
  trace w' = trace w ++ [EvWrite (rgb_image_path env idx);
                         EvWrite (semantic_image_path env idx);
                         EvWrite (depth_image_path env idx)] ∧
  files w' = <[depth_image_path env idx := Png (FromArrayL (depth_pixels depth))]>
             (<[semantic_image_path env idx := Png (semantic_image semantic)]>
              (<[rgb_image_path env idx := Png (FromArrayRGBA rgb)]> (files w))).
Proof.
  unfold save_sample.
  intros (u1 & w1 & [_ ->]%write_file_Ok & H)%bind_Ok.
  apply bind_Ok in H as (u2 & w2 & [_ ->]%write_file_Ok & H).
  apply write_file_Ok in H as [_ ->]. simpl.
  repeat split. rewrite <- !app_assoc. reflexivity.
Qed.

Lemma loop_guard_Ok start_time w b w' :
  loop_guard start_time w = Ok b w' →
  w' = w ∧ ∃ h s, sim w = Some h ∧ heap w !! h = Some s ∧
    b = bool_decide (get_world_time s < start_time + 4)%R.
Proof.
  unfold loop_guard.
  intros (tm & w1 & (h & s & Hs & Hh & -> & ->)%sim_read_Ok & H)%bind_Ok.
  apply mret_Ok in H as [-> ->]. split; [reflexivity|].
  exists h, s. repeat split; assumption.
Qed.

(** One iteration, in full. *)
Lemma loop_body_Ok env t w t' w' :
  loop_body env t w = Ok t' w' →
  ∃ h s, sim w = Some h ∧ heap w !! h = Some s ∧
    let s' := step_physics (1 / 30) (pose_update (count t) s) in
    sim w' = Some h ∧ heap w' = <[h := s']> (heap w) ∧
    selected_scene w' = selected_scene w ∧
    if make_video env then
      observations t' = observations t ++ [get_sensor_observations s'] ∧
      translations t' = translations t ++ [node_translation s'] ∧
      rotations t' = rotations t ++ [node_rotation s'] ∧
      if display env then
        count t' = count t + 1 ∧
        trace w' = trace w ++ [EvStep h;
                               EvWrite (rgb_image_path env (count t));
                               EvWrite (semantic_image_path env (count t));
                               EvWrite (depth_image_path env (count t))]
      else count t' = count t ∧ trace w' = trace w ++ [EvStep h] ∧
           files w' = files w
    else t' = t ∧ trace w' = trace w ++ [EvStep h] ∧ files w' = files w.
Proof.
  unfold loop_body.
  intros (u1 & w1 & (h & s & Hs & Hh & ->)%sim_do_Ok & H)%bind_Ok.
  apply bind_Ok in H as (h' & w1 & [Hs' ->]%current_sim_Ok & H).
  simpl in Hs'. rewrite Hs in Hs'. injection Hs' as <-.
  apply bind_Ok in H as (u2 & w2 & (s1 & Hh1 & ->)%sim_call_Ok & H).
  simpl in Hh1. pose proof (lookup_lt_Some _ _ _ Hh) as Hlt.
  rewrite list_lookup_insert_eq in Hh1 by exact Hlt. injection Hh1 as <-.
  apply bind_Ok in H as (u3 & w3 & ->%modify_Ok & H).
  simpl in H. rewrite list_insert_insert_eq in H.
  exists h, s. split; [exact Hs|]. split; [exact Hh|]. simpl.
  set (s' := step_physics (1 / 30) (pose_update (count t) s)) in *.
  set (w3 := add_event _ _) in H.
  assert (Hh3 : heap w3 !! h = Some s')
    by (simpl; apply list_lookup_insert_eq; exact Hlt).
  destruct (make_video env).
  - apply bind_Ok in H as (o & w4 & (h1 & s1 & Hs1 & Hh1 & -> & ->)%sim_read_Ok & H).
    simpl in Hs1. rewrite Hs in Hs1. injection Hs1 as <-.
    rewrite Hh3 in Hh1. injection Hh1 as <-.
    apply bind_Ok in H as (tr & w4 & (h1 & s1 & Hs1 & Hh1 & -> & ->)%sim_read_Ok & H).
    simpl in Hs1. rewrite Hs in Hs1. injection Hs1 as <-.
    rewrite Hh3 in Hh1. injection Hh1 as <-.
    apply bind_Ok in H as (ro & w4 & (h1 & s1 & Hs1 & Hh1 & -> & ->)%sim_read_Ok & H).
    simpl in Hs1. rewrite Hs in Hs1. injection Hs1 as <-.
    rewrite Hh3 in Hh1. injection Hh1 as <-.
    destruct (display env).
    + apply bind_Ok in H as (u4 & w4 & Hsave%save_sample_Ok & H).
      apply mret_Ok in H as [-> ->].
      destruct Hsave as (Hheap & Hsim & Hsel & Htr & _).
      rewrite Hheap, Hsim, Hsel, Htr. simpl.
      repeat split; try assumption. rewrite <- app_assoc. reflexivity.
    + apply mret_Ok in H as [-> ->]. simpl. repeat split; assumption.
  - apply mret_Ok in H as [-> ->]. simpl. repeat split; assumption.
Qed.

Lemma trajectory_loop_unfold env fuel start_time t :
  trajectory_loop env fuel start_time t =
  (continue ← loop_guard start_time;
   if continue : bool then
     match fuel with
     | O => out_of_fuel
     | S fuel' => t' ← loop_body env t; trajectory_loop env fuel' start_time t'
     end
   else mret t).
Proof. destruct fuel; reflexivity. Qed.

(** A loop that ends normally went through a chain of iterations and left
    through a false guard. *)
Lemma trajectory_loop_reaches env fuel start_time t w t' w' :
  trajectory_loop env fuel start_time t w = Ok t' w' →
  loop_reaches env start_time t w t' w' ∧ loop_guard start_time w' = Ok false w'.
Proof.
  revert t w. induction fuel as [|fuel IH]; intros t w;
    rewrite trajectory_loop_unfold;
    intros (b & w1 & Hg & H)%bind_Ok;
    pose proof (loop_guard_Ok _ _ _ _ Hg) as [-> _]; destruct b.
  - discriminate H.
  - apply mret_Ok in H as [-> ->]. split; [constructor|exact Hg].
  - apply bind_Ok in H as (t1 & w1 & Hb & H). apply IH in H as [Hr Hend].
    split; [|exact Hend]. eapply reaches_step; eassumption.
  - apply mret_Ok in H as [-> ->]. split; [constructor|exact Hg].
Qed.

Lemma loop_reaches_trans env start_time t w t1 w1 t2 w2 :
  loop_reaches env start_time t w t1 w1 →
  loop_reaches env start_time t1 w1 t2 w2 →
  loop_reaches env start_time t w t2 w2.
Proof.
  induction 1 as [|t w ta wa tb wb Hg Hb _ IH]; [auto|].
  intros H2. eapply reaches_step; [exact Hg|exact Hb|]. apply IH. exact H2.
Qed.

(** The three sequences grow together. *)
Lemma loop_body_lengths env t w t' w' :
  loop_body env t w = Ok t' w' →
  (length (observations t') + length (translations t) =
     length (translations t') + length (observations t))%nat ∧
  (length (translations t') + length (rotations t) =
     length (rotations t') + length (translations t))%nat.
Proof.
  intros (h & s & _ & _ & H)%loop_body_Ok. simpl in H.
  destruct H as (_ & _ & _ & H). destruct (make_video env).
  - destruct H as (-> & -> & -> & _). rewrite !length_app. simpl. lia.
  - destruct H as (-> & _). lia.
Qed.

Lemma loop_reaches_lengths env start_time t w t' w' :
  loop_reaches env start_time t w t' w' →
  (length (observations t') + length (translations t) =
     length (translations t') + length (observations t))%nat ∧
  (length (translations t') + length (rotations t) =
     length (rotations t') + length (translations t))%nat.
Proof.
  induction 1 as [|t w t1 w1 t2 w2 _ Hb _ IH]; [lia|].
  apply loop_body_lengths in Hb. lia.
Qed.

(** What the loop does to the rest of the state: it keeps the global [sim]
    and the stored selection, and adds only physics steps and image writes
    to the trace. *)
Lemma loop_body_frame env t w t' w' :
  loop_body env t w = Ok t' w' →
  sim w' = sim w ∧ selected_scene w' = selected_scene w ∧
  length (heap w') = length (heap w) ∧
  ∃ evs, trace w' = trace w ++ evs ∧ Forall (frame_event env) evs.
Proof.
  intros (h & s & Hs & _ & H)%loop_body_Ok. simpl in H.
  destruct H as (Hs' & Hheap & Hsel & H).
  split; [congruence|]. split; [exact Hsel|].
  split; [rewrite Hheap; apply length_insert|].
  assert (Hstep : frame_event env (EvStep h)) by (left; eauto).
  destruct (make_video env); [destruct H as (_ & _ & _ & H); destruct (display env)|].
  - destruct H as [_ ->]. eexists. split; [reflexivity|].
    repeat (apply Forall_cons_2;
            [first [exact Hstep | right; exists (count t); auto]|]).
    apply Forall_nil_2.
  - destruct H as (_ & -> & _). eexists. split; [reflexivity|].
    apply Forall_cons_2; [exact Hstep|apply Forall_nil_2].
  - destruct H as (_ & -> & _). eexists. split; [reflexivity|].
    apply Forall_cons_2; [exact Hstep|apply Forall_nil_2].
Qed.

Lemma loop_reaches_frame env start_time t w t' w' :
  loop_reaches env start_time t w t' w' →
  sim w' = sim w ∧ selected_scene w' = selected_scene w ∧
  length (heap w') = length (heap w) ∧
  ∃ evs, trace w' = trace w ++ evs ∧ Forall (frame_event env) evs.
Proof.
  induction 1 as [t w|t w t1 w1 t2 w2 _ Hb _ IH].
  - repeat split. exists []. split; [symmetry; apply app_nil_r|apply Forall_nil_2].
  - apply loop_body_frame in Hb as (Hs & Hsel & Hlen & evs1 & Htr1 & Hf1).
    destruct IH as (Hs2 & Hsel2 & Hlen2 & evs2 & Htr2 & Hf2).
    repeat split; [congruence..|].
    exists (evs1 ++ evs2). split.
    + rewrite Htr2, Htr1, app_assoc. reflexivity.
    + apply Forall_app. split; assumption.
Qed.

(** How the counter moves in one iteration. *)
Lemma loop_body_count env t w t' w' :
  loop_body env t w = Ok t' w' →
  count t' = if make_video env && display env then count t + 1 else count t.
Proof.
  intros (h & s & _ & _ & H)%loop_body_Ok. simpl in H.
  destruct H as (_ & _ & _ & H).
  destruct (make_video env); simpl.
  - destruct H as (_ & _ & _ & H). destruct (display env); destruct H as [-> _]; reflexivity.
  - destruct H as [-> _]. reflexivity.
Qed.

Lemma loop_reaches_count_no_display env start_time t w t' w' :
  display env = false →
  loop_reaches env start_time t w t' w' → count t' = count t.
Proof.
  intros Hd. induction 1 as [|t w t1 w1 t2 w2 _ Hb _ IH]; [reflexivity|].
  apply loop_body_count in Hb. rewrite Hd, andb_false_r in Hb. congruence.
Qed.

(** C9: the counter starts at 1; an iteration increments it exactly when
    both capture and display are enabled; so with display disabled (as
    [--no-display] makes it) the counter is 1 at the head of every iteration,
    where the pose change is the single rotation of the turning phase: such
    an iteration replaces the simulator state [s] by the physics step of
    [s] rotated, without any translation update. *)
Theorem counter_frozen_without_display (env : Env) :
  count traj_init = 1 ∧
  (∀ t (w : World) t' w', loop_body env t w = Ok t' w' →
     count t' = if make_video env && display env then count t + 1 else count t) ∧
  (no_display env = true → display env = false) ∧
  (display env = false →
   ∀ start_time (w : World) t' w',
     loop_reaches env start_time traj_init w t' w' →
     count t' = 1 ∧
     pose_cmds (count t') = [Rotate (- (PI / 2) / 20) (Vec3 0 1 0)] ∧
     ∀ t'' w'', loop_body env t' w' = Ok t'' w'' →
       count t'' = 1 ∧
       ∃ h s, sim w' = Some h ∧ heap w' !! h = Some s ∧
         heap w'' = <[h := step_physics (1 / 30)
                            (node_rotate (- (PI / 2) / 20) (Vec3 0 1 0) s)]> (heap w')).
Proof.
  split; [reflexivity|]. split; [intros; eapply loop_body_count; eassumption|].
  split.
  { unfold display. intros ->. destruct (is_main env); reflexivity. }
  intros Hd start_time w t' w' Hr.
  assert (Hc : count t' = 1).
  { apply (loop_reaches_count_no_display _ _ _ _ _ _ Hd) in Hr. exact Hr. }
  split; [exact Hc|]. split; [rewrite Hc; reflexivity|].
  intros t'' w'' Hb. split.
  - apply loop_body_count in Hb. rewrite Hd, andb_false_r in Hb. congruence.
  - apply loop_body_Ok in Hb as (h & s & Hs & Hh & Hb). simpl in Hb.
    destruct Hb as (_ & Hheap & _). rewrite Hc in Hheap.
    exists h, s. repeat split; assumption.
Qed.

End Loop.

(** ** Scene selection *)

Section Selection.
Context {E : Engine}.

Lemma selection_only_refl w : selection_only w w.
Proof. repeat split. Qed.

Lemma selection_only_trans w1 w2 w3 :
  selection_only w1 w2 → selection_only w2 w3 → selection_only w1 w3.
Proof. unfold selection_only. intros (?&?&?&?) (?&?&?&?). repeat split; congruence. Qed.

Lemma first_valid_scene_Ok scene_handles w :
  ∃ w', first_valid_scene scene_handles w = Ok tt w' ∧ selection_only w w' ∧
        selected_scene w' = match first_without_NONE scene_handles with
                            | Some h => Some h
                            | None => selected_scene w
                            end.
Proof.
  induction scene_handles as [|x l IH]; simpl.
  - exists w. repeat split.
  - unfold first_without_NONE. simpl.
    destruct (str_in "NONE" x); simpl.
    + exact IH.
    + eexists. repeat split.
Qed.

(** The selection without widgets, for any selection stored before. *)
Lemma build_widget_ui_no_widgets env mm s w :
  HAS_WIDGETS env = false → heap w !! mm = Some s →
  ∃ w', build_widget_ui env mm w = Ok tt w' ∧ selection_only w w' ∧
        selected_scene w' =
          match get_scene_handles s with
          | [] => Some "NONE"
          | hs => match first_without_NONE hs with
                  | Some h => Some h
                  | None => selected_scene w
                  end
          end.
Proof.
  intros Hw Hs. unfold build_widget_ui.
  assert (Hget : sim_get mm get_scene_handles w = Ok (get_scene_handles s) w).
  { unfold sim_get. erewrite bind_Ok_intro by reflexivity. rewrite Hs. reflexivity. }
  rewrite (bind_Ok_intro _ _ _ _ _ Hget). rewrite Hw. simpl.
  destruct (get_scene_handles s) as [|x l] eqn:Hh.
  - eexists. split; [reflexivity|]. repeat split.
  - rewrite bool_decide_eq_false_2 by discriminate.
    destruct (first_valid_scene_Ok (x :: l) w) as (w' & Hf & Hfr & Hsel).
    exists w'. split; [|split; assumption].
    rewrite (bind_Ok_intro _ _ _ _ _ Hf). reflexivity.
Qed.

End Selection.

(** C3, as the code has it: without widgets the selection is made from the
    handle list alone and always succeeds.  It is "NONE" for the empty list;
    otherwise it is the first handle in which "NONE" does not occur as a
    substring, and when "NONE" occurs in every handle the stored selection
    stays what it was: "NONE" where the script makes the call, every rebuild
    having left it so.  Nothing but the stored selection changes. *)
Theorem scene_selection_without_widgets (E : Engine) (env : Env) (mm : nat)
    (s : SimState) (w : World) :
  HAS_WIDGETS env = false →
  heap w !! mm = Some s →
  ∃ w', build_widget_ui env mm w = Ok tt w' ∧
        selected_scene w' =
          match get_scene_handles s with
          | [] => Some "NONE"
          | hs => match first_without_NONE hs with
                  | Some h => Some h
                  | None => selected_scene w
                  end
          end ∧
        (selected_scene w = Some "NONE" →
         selected_scene w' =
           Some (default "NONE" (first_without_NONE (get_scene_handles s)))) ∧
        heap w' = heap w ∧ sim w' = sim w ∧ trace w' = trace w ∧ files w' = files w.
Proof.
  intros Hw Hs.
  destruct (build_widget_ui_no_widgets env mm s w Hw Hs) as (w' & Hrun & Hfr & Hres).
  exists w'. split; [exact Hrun|]. split; [exact Hres|]. split; [|exact Hfr].
  intros Hsel. rewrite Hres.
  destruct (get_scene_handles s) as [|x l]; [reflexivity|].
  destruct (first_without_NONE (x :: l)); [reflexivity|exact Hsel].
Qed.

(** C3 as stated fails: with the handles "NONE_stage" and "apt_0" the first
    handle different from the sentinel is "NONE_stage", but the script
    selects "apt_0", because "NONE" occurs in "NONE_stage". *)
Lemma scene_selection_not_first_non_sentinel :
  let handles := ["NONE_stage"; "apt_0"] in
  let env := toy_env false false in
  selection_of (startup (E := toy_engine handles) env (initial_world ∅))
    = Some "apt_0" ∧
  spec_choose_scene handles = "NONE_stage" ∧
  selection_of (startup (E := toy_engine handles) env (initial_world ∅))
    ≠ Some (spec_choose_scene handles).
Proof.
  assert (H1 : selection_of
            (startup (E := toy_engine ["NONE_stage"; "apt_0"])
               (toy_env false false) (initial_world ∅)) = Some "apt_0")
    by (vm_compute; reflexivity).
  assert (H2 : spec_choose_scene ["NONE_stage"; "apt_0"] = "NONE_stage")
    by (vm_compute; reflexivity).
  simpl. rewrite H1, H2. repeat split. discriminate.
Qed.

(** ** One simulator at a time, over a whole trace *)

Section Lifecycle.
Context {E : Engine}.

Lemma live_after_quiet l evs : Forall quiet_event evs → live_after l evs = l.
Proof.
  induction 1 as [|ev evs Hev _ IH]; [reflexivity|].
  destruct ev; simpl; try contradiction; exact IH.
Qed.

Lemma frame_event_quiet env ev : frame_event env ev → quiet_event ev.
Proof. intros [[h ->] | [idx [-> | [-> | ->]]]]; exact I. Qed.

Lemma at_most_one_live_nil : at_most_one_live [].
Proof. intros p ->%prefix_nil_inv. simpl. lia. Qed.

Lemma at_most_one_live_quiet tr evs :
  at_most_one_live tr → Forall quiet_event evs → at_most_one_live (tr ++ evs).
Proof.
  intros Htr Hq p Hp.
  destruct (prefix_weak_total p tr (tr ++ evs) Hp (prefix_app_r tr tr evs (reflexivity tr)))
    as [Hle|[k ->]].
  - apply Htr. exact Hle.
  - apply prefix_app_inv in Hp as [k' ->].
    apply Forall_app in Hq as [Hk _].
    rewrite live_app, (live_after_quiet _ _ Hk). apply Htr. reflexivity.
Qed.

Lemma at_most_one_live_rebuild (w : World) h :
  at_most_one_live (trace w) → lifecycle_ok w →
  at_most_one_live
    (trace w ++ from_option (λ h0, [EvClose h0]) [] (sim w) ++ [EvCreate h]).
Proof.
  intros Htr Hok p Hp.
  destruct (prefix_weak_total p (trace w) _ Hp
              (prefix_app_r (trace w) (trace w) _ (reflexivity (trace w))))
    as [Hle|Hge].
  - apply Htr. exact Hle.
  - apply (rebuild_live w p _ h Hok eq_refl); assumption.
Qed.

(** A rebuild keeps both invariants. *)
Lemma rebuild_invariants env sim_settings (w : World) u w' :
  lifecycle_ok w → at_most_one_live (trace w) →
  make_simulator_from_settings env sim_settings w = Ok u w' →
  one_live w' ∧ at_most_one_live (trace w').
Proof.
  intros Hok Htr H.
  apply make_simulator_from_settings_Ok in H
    as (cfg & s0 & _ & _ & Hsim & _ & _ & Htr' & _ & _ & _).
  rewrite Htr'. split.
  - exists (length (heap w)). split; [exact Hsim|].
    rewrite Htr'. apply (rebuild_live w (trace w) _ _ Hok eq_refl).
  - apply at_most_one_live_rebuild; assumption.
Qed.

End Lifecycle.

(** ** Camera intrinsics and the snapshot *)

Section Snapshot.
Context {E : Engine}.

Lemma default_settings_width env :
  make_default_settings env !! "width" = Some (PInt 1280).
Proof. reflexivity. Qed.

Lemma default_settings_height env :
  make_default_settings env !! "height" = Some (PInt 720).
Proof.
  unfold make_default_settings. simpl.
  rewrite lookup_insert_ne by discriminate. apply lookup_insert_eq.
Qed.

Lemma default_settings_scene env :
  make_default_settings env !! "scene" = Some (PStr "NONE").
Proof.
  unfold make_default_settings. simpl.
  do 3 (rewrite lookup_insert_ne by discriminate). apply lookup_insert_eq.
Qed.

(** The intrinsics for a 1280 x 720 image and a field of view of [fov]
    degrees. *)
Lemma make_camera_info_1280_720 sim_settings w h s :
  sim_settings !! "width" = Some (PInt 1280) →
  sim_settings !! "height" = Some (PInt 720) →
  sim w = Some h → heap w !! h = Some s →
  make_camera_info sim_settings w = Ok (list_to_map [
    ("width", PInt 1280); ("height", PInt 720); ("fov", PFloat (color_hfov s));
    ("fx", PFloat (0.5 * 1280 / tan (color_hfov s * PI / 180 / 2)));
    ("fy", PFloat (0.5 * 1280 / tan (color_hfov s * PI / 180 / 2)));
    ("cx", PFloat 640); ("cy", PFloat 360) ]) w.
Proof.
  intros Hwd Hht Hs Hh. unfold make_camera_info.
  erewrite bind_Ok_intro by (apply dict_get_Some; exact Hwd).
  erewrite bind_Ok_intro by (apply dict_get_Some; exact Hht).
  erewrite bind_Ok_intro by (eapply sim_read_Some; eassumption).
  erewrite bind_Ok_intro by reflexivity.
  erewrite bind_Ok_intro by reflexivity.
  unfold mret, M_ret, radians. simpl.
  replace (1280 / 2)%R with 640%R by lra.
  replace (720 / 2)%R with 360%R by lra. reflexivity.
Qed.

Lemma make_camera_info_Ok sim_settings w ci w' :
  make_camera_info sim_settings w = Ok ci w' →
  w' = w ∧ ∃ h s, sim w = Some h ∧ heap w !! h = Some s.
Proof.
  unfold make_camera_info.
  intros (wd & w1 & [_ ->]%dict_get_Ok & H)%bind_Ok.
  apply bind_Ok in H as (ht & w1 & [_ ->]%dict_get_Ok & H).
  apply bind_Ok in H as (fov & w1 & (h & s & Hs & Hh & _ & ->)%sim_read_Ok & H).
  apply bind_Ok in H as (x & w1 & Hx & H).
  unfold as_float in Hx. destruct (to_float wd); [|discriminate].
  apply mret_Ok in Hx as [-> ->].
  apply bind_Ok in H as (y & w1 & Hy & H).
  unfold as_float in Hy. destruct (to_float ht); [|discriminate].
  apply mret_Ok in Hy as [-> ->].
  apply mret_Ok in H as [_ ->]. split; [reflexivity|]. exists h, s. split; assumption.
Qed.

Lemma set_handle_ddl_widget_Ok scene_handles sel_handle w sel' w' :
  set_handle_ddl_widget scene_handles sel_handle w = Ok sel' w' →
  (sel' = sel_handle ∧ w' = w) ∧ sel_handle ∈ scene_handles.
Proof.
  unfold set_handle_ddl_widget. case_bool_decide as Hin; [|discriminate].
  intros [-> ->]%mret_Ok. repeat split. exact Hin.
Qed.

Lemma build_widget_ui_frame env mm w u w' :
  build_widget_ui env mm w = Ok u w' → selection_only w w'.
Proof.
  unfold build_widget_ui.
  intros (hs & w1 & (s & _ & -> & ->)%sim_get_Ok & H)%bind_Ok.
  apply bind_Ok in H as (u1 & w1 & H1 & H).
  assert (Hfr : selection_only w w1).
  { destruct (bool_decide _).
    - apply modify_Ok in H1 as ->. repeat split.
    - destruct (first_valid_scene_Ok (get_scene_handles s) w) as (w2 & Hf & Hfr & _).
      rewrite Hf in H1. injection H1 as _ <-. exact Hfr. }
  apply (selection_only_trans _ _ _ Hfr).
  destruct (negb (HAS_WIDGETS env)).
  - apply mret_Ok in H as [_ ->]. apply selection_only_refl.
  - apply bind_Ok in H as (sel & w2 & [_ ->]%get_selected_scene_Ok & H).
    apply bind_Ok in H as (sel' & w2 & [[_ ->] _]%set_handle_ddl_widget_Ok & H).
    apply modify_Ok in H as ->. repeat split.
Qed.

Lemma deliver_ui_events_frame evs w u w' :
  deliver_ui_events evs w = Ok u w' → selection_only w w'.
Proof.
  revert w. induction evs as [|ev evs IH]; intros w; simpl.
  - intros [_ ->]%mret_Ok. apply selection_only_refl.
  - intros (sel & w1 & H1 & H)%bind_Ok. apply IH in H.
    refine (selection_only_trans _ _ _ _ H).
    unfold on_scene_ddl_change in H1.
    apply bind_Ok in H1 as (new & w2 & [_ ->]%dict_get_Ok & H1).
    apply bind_Ok in H1 as (u1 & w2 & ->%modify_Ok & H1).
    apply get_selected_scene_Ok in H1 as [_ ->]. repeat split.
Qed.

Lemma user_interaction_frame env w u w' :
  user_interaction env w = Ok u w' → selection_only w w'.
Proof.
  unfold user_interaction. destruct (HAS_WIDGETS env).
  - apply deliver_ui_events_frame.
  - intros [_ ->]%mret_Ok. apply selection_only_refl.
Qed.

Lemma lifecycle_events_rebuild (w : World) h :
  Forall lifecycle_event
    (from_option (λ h0, [EvClose h0]) [] (sim w) ++ [EvCreate h]).
Proof.
  apply Forall_app. split.
  - destruct (sim w) as [h0|]; simpl; [|apply Forall_nil_2].
    apply Forall_cons_2; [exists h0; auto|apply Forall_nil_2].
  - apply Forall_cons_2; [exists h; auto|apply Forall_nil_2].
Qed.

Lemma one_live_same (w w' : World) :
  trace w' = trace w → sim w' = sim w → one_live w → one_live w'.
Proof. unfold one_live. intros -> ->. auto. Qed.

(** The state in which the loop starts: reached from a fresh interpreter
    through simulator construction and teardown only, one simulator alive at
    a time, with the settings' resolution still the default one. *)
Lemma main_Ok env fuel files0 w' :
  main env fuel (initial_world files0) = Ok tt w' →
  ∃ sim_settings start_time w1 t w2 camera_info,
    sim_settings !! "width" = Some (PInt 1280) ∧
    sim_settings !! "height" = Some (PInt 720) ∧
    Forall lifecycle_event (trace w1) ∧ files w1 = files0 ∧
    one_live w1 ∧ at_most_one_live (trace w1) ∧
    trajectory_loop env fuel start_time traj_init w1 = Ok t w2 ∧
    make_camera_info sim_settings w2 = Ok camera_info w2 ∧
    writable env (output_filename env) = true ∧
    w' = add_event (EvWrite (output_filename env))
           (set_files (<[output_filename env :=
                           Pickle (data_to_save t camera_info)]> (files w2)) w2).
Proof.
  unfold main, startup.
  intros (u1 & w1 & H1 & H)%bind_Ok.
  apply bind_Ok in H1 as (u0 & w0 & Hre & H1).
  pose proof (rebuild_invariants _ _ _ _ _
                (lifecycle_ok_initial files0) at_most_one_live_nil Hre)
    as [Hok0 Hamo0].
  apply make_simulator_from_settings_Ok in Hre
    as (cfg & s0 & _ & _ & _ & _ & _ & Htr0 & Hf0 & _ & _).
  simpl in Htr0, Hf0.
  apply bind_Ok in H1 as (mm & w0' & [_ ->]%current_sim_Ok & H1).
  apply build_widget_ui_frame in H1 as (_ & Hsim1 & Htr1 & Hf1).
  apply bind_Ok in H as (u2 & w2 & (_ & Hsim2 & Htr2 & Hf2)%user_interaction_frame & H).
  assert (Hok2 : one_live w2 ∧ at_most_one_live (trace w2)).
  { split.
    - apply (one_live_same w0); [congruence|congruence|exact Hok0].
    - rewrite Htr2, Htr1. exact Hamo0. }
  destruct Hok2 as [Hok2 Hamo2].
  apply bind_Ok in H as (st & w3 & H3 & H).
  assert (Hst : st !! "width" = Some (PInt 1280) ∧ st !! "height" = Some (PInt 720) ∧
                Forall lifecycle_event (trace w3) ∧ files w3 = files0 ∧
                one_live w3 ∧ at_most_one_live (trace w3)).
  { unfold load_selected_scene in H3.
    apply bind_Ok in H3 as (scene & w4 & [_ ->]%dict_get_Ok & H3).
    apply bind_Ok in H3 as (sel & w4 & [_ ->]%get_selected_scene_Ok & H3).
    assert (Hpre : Forall lifecycle_event (trace w2)).
    { rewrite Htr2, Htr1, Htr0. apply Forall_cons_2; [eexists; auto|apply Forall_nil_2]. }
    destruct (bool_decide _).
    - apply bind_Ok in H3 as (u3 & w4 & Hre & H3).
      apply mret_Ok in H3 as [-> ->].
      pose proof (rebuild_invariants _ _ _ _ _ (or_intror Hok2) Hamo2 Hre)
        as [Hok3 Hamo3].
      apply make_simulator_from_settings_Ok in Hre
        as (cfg' & s0' & _ & _ & _ & _ & _ & Htr4 & Hf4 & _ & _).
      split; [rewrite lookup_insert_ne by discriminate; apply default_settings_width|].
      split; [rewrite lookup_insert_ne by discriminate; apply default_settings_height|].
      split; [|split; [congruence|split; assumption]].
      rewrite Htr4. apply Forall_app. split; [exact Hpre|].
      apply lifecycle_events_rebuild.
    - apply mret_Ok in H3 as [-> ->].
      split; [apply default_settings_width|].
      split; [apply default_settings_height|].
      split; [exact Hpre|]. split; [congruence|split; assumption]. }
  destruct Hst as (Hwd & Hht & Hpre & Hfiles & Hok3 & Hamo3).
  apply bind_Ok in H as (start & w4 & (_ & _ & _ & _ & _ & ->)%sim_read_Ok & H).
  apply bind_Ok in H as (u4 & w4 & (h & s & _ & _ & ->)%sim_do_Ok & H).
  apply bind_Ok in H as (t & w5 & Hloop & H).
  unfold save_pickle in H.
  apply bind_Ok in H as (ci & w6 & Hci & H).
  pose proof (make_camera_info_Ok _ _ _ _ Hci) as [-> _].
  apply write_file_Ok in H as [Hwr ->].
  exists st, start, (set_heap (<[h:=node_set_translation (Vec3 (-2) 0 0) s]> (heap w3)) w3),
    t, w5, ci.
  repeat split; assumption.
Qed.

End Snapshot.

Lemma write_count_app path tr1 tr2 :
  write_count path (tr1 ++ tr2) = (write_count path tr1 + write_count path tr2)%nat.
Proof. unfold write_count. rewrite filter_app, length_app. reflexivity. Qed.

Lemma write_count_none path tr :
  Forall (λ ev, ev ≠ EvWrite path) tr → write_count path tr = 0%nat.
Proof.
  unfold write_count. induction 1 as [|ev tr Hev _ IH]; [reflexivity|].
  rewrite filter_cons. rewrite decide_False by exact Hev. exact IH.
Qed.

Lemma write_count_one path : write_count path [EvWrite path] = 1%nat.
Proof.
  unfold write_count. rewrite filter_cons. rewrite decide_True by reflexivity.
  reflexivity.
Qed.

Lemma lifecycle_event_not_write ev path : lifecycle_event ev → ev ≠ EvWrite path.
Proof. intros [h [-> | ->]]; discriminate. Qed.

Lemma data_to_save_keys {E : Engine} (t : Traj) (camera_info : gmap string pyval) :
  dom (data_to_save t camera_info) =
    ({["observations"; "rotations"; "translations"; "camera_info"]} : gset string).
Proof.
  unfold data_to_save. simpl. rewrite !dom_insert_L, dom_empty_L. set_solver.
Qed.

(** C6: with width 1280 and height 720 in the settings and a colour sensor
    whose field of view is [F] degrees, the intrinsics are
    fx = fy = 0.5 * 1280 / tan(radians(F) / 2), cx = 640 and cy = 360;
    [camera_info] holds exactly width, height, fov, fx, fy, cx and cy with
    these values, and it is what the snapshot file stores under
    "camera_info". *)
Theorem camera_intrinsics_1280_720 (E : Engine) (env : Env)
    (sim_settings : gmap string pyval) (t : Traj) (w : World) (h : nat)
    (s : SimState) (F : R) :
  sim_settings !! "width" = Some (PInt 1280) →
  sim_settings !! "height" = Some (PInt 720) →
  sim w = Some h → heap w !! h = Some s → color_hfov s = F →
  writable env (output_filename env) = true →
  let f := (0.5 * 1280 / tan (F * PI / 180 / 2))%R in
  let camera_info : gmap string pyval := list_to_map [
    ("width", PInt 1280); ("height", PInt 720); ("fov", PFloat F);
    ("fx", PFloat f); ("fy", PFloat f); ("cx", PFloat 640); ("cy", PFloat 360) ] in
  make_camera_info sim_settings w = Ok camera_info w ∧
  camera_info !! "fx" = Some (PFloat f) ∧ camera_info !! "fy" = Some (PFloat f) ∧
  camera_info !! "cx" = Some (PFloat 640) ∧ camera_info !! "cy" = Some (PFloat 360) ∧
  ∃ w' d, save_pickle env sim_settings t w = Ok tt w' ∧
          files w' !! output_filename env = Some (Pickle d) ∧
          d !! "camera_info" = Some (PklDict camera_info).
Proof.
  intros Hwd Hht Hs Hh <- Hwr f camera_info.
  pose proof (make_camera_info_1280_720 sim_settings w h s Hwd Hht Hs Hh) as Hci.
  fold f in Hci. fold camera_info in Hci.
  split; [exact Hci|].
  split; [subst camera_info; simpl; by simplify_map_eq|].
  split; [subst camera_info; simpl; by simplify_map_eq|].
  split; [subst camera_info; simpl; by simplify_map_eq|].
  split; [subst camera_info; simpl; by simplify_map_eq|].
  eexists _, (data_to_save t camera_info). split; [|split].
  - unfold save_pickle. rewrite (bind_Ok_intro _ _ _ _ _ Hci).
    unfold write_file. rewrite Hwr. reflexivity.
  - simpl. apply lookup_insert_eq.
  - unfold data_to_save. simpl. by simplify_map_eq.
Qed.

(** Over a whole completed run at most one simulator is alive at any point
    of the trace, and exactly one, the one [sim] names, at its end. *)
Theorem run_one_simulator_at_a_time (E : Engine) (env : Env) (fuel : nat)
    (files0 : gmap string file) (w' : World) :
  main env fuel (initial_world files0) = Ok tt w' →
  at_most_one_live (trace w') ∧ one_live w'.
Proof.
  intros (st & start & w1 & t & w2 & ci & _ & _ & _ & _ & Hone & Hamo & Hloop & _ & _ & ->)%main_Ok.
  pose proof (trajectory_loop_reaches _ _ _ _ _ _ _ Hloop) as [Hr _].
  apply loop_reaches_frame in Hr as (Hsim & _ & _ & evs & Htr & Hevs).
  assert (Hq : Forall quiet_event evs).
  { eapply Forall_impl; [exact Hevs|]. intros ev. apply frame_event_quiet. }
  assert (Hw : Forall quiet_event [EvWrite (output_filename env)])
    by (apply Forall_cons_2; [exact I|apply Forall_nil_2]).
  simpl. rewrite Htr. split.
  - apply at_most_one_live_quiet; [|exact Hw].
    apply at_most_one_live_quiet; assumption.
  - destruct Hone as (h & Hs & Hl). exists h. simpl. split; [congruence|].
    rewrite Htr, !live_app, (live_after_quiet _ _ Hq), (live_after_quiet _ _ Hw).
    exact Hl.
Qed.

(** ** Termination of the trajectory loop *)

Section Termination.
Context {E : Engine}.

Lemma fuel_free_bind {A B : Type} (m : M A) (f : A → M B) :
  fuel_free m → (∀ a, fuel_free (f a)) → fuel_free (m ≫= f).
Proof.
  intros Hm Hf w. unfold mbind, M_bind.
  destruct (m w) as [a w1|e w1|] eqn:Hmw; [apply Hf|discriminate|].
  exfalso. exact (Hm w Hmw).
Qed.

Lemma fuel_free_mret {A : Type} (a : A) : fuel_free (mret a : M A).
Proof. intros w. discriminate. Qed.

Lemma fuel_free_raise {A : Type} (e : exn) : fuel_free (raise e : M A).
Proof. intros w. discriminate. Qed.

Lemma fuel_free_gets {A : Type} (f : World → A) : fuel_free (gets f).
Proof. intros w. discriminate. Qed.

Lemma fuel_free_modify (f : World → World) : fuel_free (modify f).
Proof. intros w. discriminate. Qed.

Ltac fuel_free_step :=
  first
    [ apply fuel_free_mret | apply fuel_free_raise | apply fuel_free_gets
    | apply fuel_free_modify
    | apply fuel_free_bind; [|intros ?]
    | match goal with
      | |- fuel_free (match ?x with _ => _ end) => destruct x
      end ].

Lemma fuel_free_sim_read {A : Type} (f : SimState → A) : fuel_free (sim_read f).
Proof. unfold sim_read, current_sim, sim_get. repeat fuel_free_step. Qed.

Lemma fuel_free_sim_do (f : SimState → SimState) : fuel_free (sim_do f).
Proof. unfold sim_do, current_sim, sim_call. repeat fuel_free_step. Qed.

Lemma fuel_free_write_file env path content :
  fuel_free (write_file env path content).
Proof. unfold write_file. repeat fuel_free_step. Qed.

Lemma fuel_free_loop_guard start_time : fuel_free (loop_guard start_time).
Proof.
  unfold loop_guard. apply fuel_free_bind; [apply fuel_free_sim_read|].
  intros ?. apply fuel_free_mret.
Qed.

Lemma fuel_free_loop_body env t : fuel_free (loop_body env t).
Proof.
  unfold loop_body, save_sample, current_sim, sim_call.
  repeat first [ apply fuel_free_sim_read | apply fuel_free_sim_do
               | apply fuel_free_write_file | fuel_free_step ].
Qed.

Lemma pose_update_time (HL : EngineLaws E) count s :
  get_world_time (pose_update count s) = get_world_time s.
Proof.
  unfold pose_update, pose_cmds.
  repeat (case_match; simpl);
    rewrite ?time_node_rotate, ?time_node_set_translation; reflexivity.
Qed.

(** With [n] steps of at least [eps] seconds enough to pass the deadline,
    fuel [n] suffices. *)
Lemma trajectory_loop_enough_fuel (HL : EngineLaws E) env start_time (eps : R) :
  (0 < eps)%R →
  (∀ s, get_world_time s + eps <= get_world_time (step_physics (1 / 30) s))%R →
  ∀ (n fuel : nat) t w,
    (n ≤ fuel)%nat →
    (∀ h s, sim w = Some h → heap w !! h = Some s →
            (start_time + 4 - get_world_time s < INR n * eps)%R) →
    trajectory_loop env fuel start_time t w ≠ OutOfFuel.
Proof.
  intros Heps Hstep n. induction n as [|n IH]; intros fuel t w Hn Hbound;
    rewrite trajectory_loop_unfold; unfold mbind at 1, M_bind at 1;
    destruct (loop_guard start_time w) as [b w1|e w1|] eqn:Hg;
    [|discriminate|destruct (fuel_free_loop_guard _ _ Hg)
     | |discriminate|destruct (fuel_free_loop_guard _ _ Hg)];
    apply loop_guard_Ok in Hg as (-> & h & s & Hs & Hh & ->);
    specialize (Hbound h s Hs Hh); case_bool_decide as Hlt; try discriminate.
  - simpl in Hbound. lra.
  - destruct fuel as [|fuel]; [lia|].
    unfold mbind, M_bind.
    destruct (loop_body env t w) as [t1 w1|e w1|] eqn:Hb;
      [|discriminate|destruct (fuel_free_loop_body _ _ _ Hb)].
    apply IH; [lia|].
    apply loop_body_Ok in Hb as (h' & s' & Hs' & Hh' & Hb). simpl in Hb.
    destruct Hb as (Hs1 & Hheap & _).
    rewrite Hs in Hs'. injection Hs' as <-. rewrite Hh in Hh'. injection Hh' as <-.
    intros h2 s2 Hs2 Hh2. rewrite Hs1 in Hs2. injection Hs2 as <-.
    rewrite Hheap in Hh2.
    rewrite list_lookup_insert_eq in Hh2 by (eapply lookup_lt_Some; exact Hh).
    injection Hh2 as <-.
    pose proof (Hstep (pose_update (count t) s)) as Hadv.
    rewrite (pose_update_time HL) in Hadv.
    rewrite S_INR in Hbound. lra.
Qed.

Lemma steps_to_deadline (x eps : R) :
  (0 < eps)%R → ∃ n : nat, (x < INR n * eps)%R.
Proof.
  intros Heps. destruct (archimed (x / eps)) as [Hup _].
  assert (Hx : (x < IZR (up (x / eps)) * eps)%R).
  { apply Rmult_lt_compat_r with (r := eps) in Hup; [|exact Heps].
    unfold Rdiv in Hup. rewrite Rmult_assoc, Rinv_l, Rmult_1_r in Hup by lra.
    exact Hup. }
  destruct (Z_lt_le_dec (up (x / eps)) 0) as [Hneg|Hpos].
  - exists 0%nat. simpl. apply IZR_lt in Hneg. nra.
  - exists (Z.to_nat (up (x / eps))).
    rewrite INR_IZR_INZ, Z2Nat.id by exact Hpos. exact Hx.
Qed.

(** The loop ends, normally or by an exception, once it is given enough
    fuel, on every engine that keeps [EngineLaws]. *)
Theorem trajectory_loop_terminates (HL : EngineLaws E) (env : Env)
    (start_time : R) (t : Traj) (w : World) :
  ∃ n : nat, ∀ fuel, (n ≤ fuel)%nat →
    trajectory_loop env fuel start_time t w ≠ OutOfFuel.
Proof.
  destruct (@step_advances E HL) as (eps & Heps & Hstep).
  destruct (sim w) as [h|] eqn:Hs; [destruct (heap w !! h) as [s|] eqn:Hh|].
  - destruct (steps_to_deadline (start_time + 4 - get_world_time s) eps Heps)
      as [n Hn].
    exists n. intros fuel Hfuel.
    apply (trajectory_loop_enough_fuel HL env start_time eps Heps Hstep n);
      [exact Hfuel|].
    intros h' s' Hs' Hh'. simplify_eq. exact Hn.
  - exists 0%nat. intros fuel Hfuel.
    apply (trajectory_loop_enough_fuel HL env start_time eps Heps Hstep 0);
      [lia|]. intros h' s' Hs' Hh'. simplify_eq.
  - exists 0%nat. intros fuel Hfuel.
    apply (trajectory_loop_enough_fuel HL env start_time eps Heps Hstep 0);
      [lia|]. intros h' s' Hs' Hh'. simplify_eq.
Qed.

End Termination.

(** ** Stepping the loop forward *)

Section Stepping.
Context {E : Engine}.

Lemma loop_guard_eval start_time w h s :
  sim w = Some h → heap w !! h = Some s →
  loop_guard start_time w =
    Ok (bool_decide (get_world_time s < start_time + 4)%R) w.
Proof.
  intros Hs Hh. unfold loop_guard.
  rewrite (bind_Ok_intro _ _ _ _ _ (sim_read_Some get_world_time w h s Hs Hh)).
  reflexivity.
Qed.

Lemma trajectory_loop_step env fuel start_time t w t1 w1 :
  loop_guard start_time w = Ok true w →
  loop_body env t w = Ok t1 w1 →
  trajectory_loop env (S fuel) start_time t w =
    trajectory_loop env fuel start_time t1 w1.
Proof.
  intros Hg Hb. rewrite trajectory_loop_unfold.
  rewrite (bind_Ok_intro _ _ _ _ _ Hg). rewrite (bind_Ok_intro _ _ _ _ _ Hb).
  reflexivity.
Qed.

Lemma trajectory_loop_done env fuel start_time t w :
  loop_guard start_time w = Ok false w →
  trajectory_loop env fuel start_time t w = Ok t w.
Proof.
  intros Hg. rewrite trajectory_loop_unfold.
  rewrite (bind_Ok_intro _ _ _ _ _ Hg). reflexivity.
Qed.

End Stepping.

(** ** The script completes *)

Section Completion.
Context {E : Engine}.

Lemma default_settings_has_cfg_keys env : has_cfg_keys (make_default_settings env).
Proof.
  unfold has_cfg_keys.
  repeat (apply Forall_cons_2; [eexists; reflexivity|]). apply Forall_nil_2.
Qed.

Lemma has_cfg_keys_insert settings k v :
  has_cfg_keys settings → has_cfg_keys (<[k := v]> settings).
Proof.
  unfold has_cfg_keys. intros H. eapply Forall_impl; [exact H|].
  intros k' [v' Hk']. simpl.
  destruct (decide (k = k')) as [->|Hne].
  - exists v. apply lookup_insert_eq.
  - exists v'. rewrite lookup_insert_ne by exact Hne. exact Hk'.
Qed.

Lemma make_cfg_total settings w :
  has_cfg_keys settings → ∃ cfg, make_cfg settings w = Ok cfg w.
Proof.
  unfold has_cfg_keys. rewrite !Forall_cons.
  intros ([v1 H1] & [v2 H2] & [v3 H3] & [v4 H4] & [v5 H5] & [v6 H6] & [v7 H7] & _).
  unfold make_cfg.
  rewrite (bind_Ok_intro _ _ _ _ _ (dict_get_Some _ _ _ w H1)).
  rewrite (bind_Ok_intro _ _ _ _ _ (dict_get_Some _ _ _ w H2)).
  rewrite (bind_Ok_intro _ _ _ _ _ (dict_get_Some _ _ _ w H3)).
  rewrite (bind_Ok_intro _ _ _ _ _ (dict_get_Some _ _ _ w H4)).
  rewrite (bind_Ok_intro _ _ _ _ _ (dict_get_Some _ _ _ w H5)).
  rewrite (bind_Ok_intro _ _ _ _ _ (dict_get_Some _ _ _ w H6)).
  rewrite (bind_Ok_intro _ _ _ _ _ (dict_get_Some _ _ _ w H7)).
  eexists. reflexivity.
Qed.

Lemma sim_sane_initial files0 : sim_sane (initial_world files0).
Proof. intros h [=]. Qed.

Lemma make_simulator_from_settings_total env settings w :
  (∀ cfg, is_Some (Simulator cfg)) →
  has_cfg_keys settings → sim_sane w →
  ∃ w', make_simulator_from_settings env settings w = Ok tt w'.
Proof.
  intros Hctor Hkeys Hsane. unfold make_simulator_from_settings.
  destruct (make_cfg_total settings w Hkeys) as [cfg Hcfg].
  rewrite (bind_Ok_intro _ _ _ _ _ Hcfg).
  assert (Hclose : ∃ w1, close_current w = Ok tt w1).
  { unfold close_current, gets, sim_call, modify, mbind, M_bind.
    destruct (sim w) as [h|] eqn:Hs; [|eexists; reflexivity].
    destruct (Hsane h Hs) as [s Hh]. unfold gets. rewrite Hh.
    eexists. reflexivity. }
  destruct Hclose as [w1 Hclose]. rewrite (bind_Ok_intro _ _ _ _ _ Hclose).
  destruct (Hctor cfg) as [s0 Hs0].
  assert (Hnew : ∃ w2, new_simulator cfg w1 = Ok (length (heap w1)) w2 ∧
            sim w2 = Some (length (heap w1)) ∧
            heap w2 = heap w1 ++ [s0]).
  { unfold new_simulator. rewrite Hs0. eexists. repeat split. }
  destruct Hnew as (w2 & Hnew & Hsim2 & Hheap2).
  rewrite (bind_Ok_intro _ _ _ _ _ Hnew).
  assert (Hder : ∃ w3, derive_managers env w2 = Ok tt w3).
  { unfold derive_managers, current_sim, gets, sim_call, modify, mbind, M_bind, mret, M_ret.
    simpl. rewrite Hsim2. simpl. rewrite Hheap2.
    rewrite lookup_app_r by lia.
    replace (length (heap w1) - length (heap w1))%nat with 0%nat by lia.
    repeat (simpl; rewrite ?Hsim2). eexists. reflexivity. }
  destruct Hder as [w3 Hder]. rewrite (bind_Ok_intro _ _ _ _ _ Hder).
  eexists. reflexivity.
Qed.

(** After a rebuild the global [sim] names a simulator on the heap. *)
Lemma rebuild_sim_on_heap env settings w u w' :
  make_simulator_from_settings env settings w = Ok u w' →
  ∃ h s, sim w' = Some h ∧ heap w' !! h = Some s.
Proof.
  intros (cfg & s0 & _ & _ & Hs & _ & Hh & _)%make_simulator_from_settings_Ok.
  eauto.
Qed.

Lemma build_widget_ui_total env mm s w :
  heap w !! mm = Some s → selected_scene w = Some "NONE" →
  (HAS_WIDGETS env = true →
   default "NONE" (first_without_NONE (get_scene_handles s)) ∈ get_scene_handles s) →
  ∃ w', build_widget_ui env mm w = Ok tt w' ∧ is_Some (selected_scene w').
Proof.
  intros Hs Hsel Hdd. unfold build_widget_ui.
  assert (Hget : sim_get mm get_scene_handles w = Ok (get_scene_handles s) w).
  { unfold sim_get. erewrite bind_Ok_intro by reflexivity. rewrite Hs. reflexivity. }
  rewrite (bind_Ok_intro _ _ _ _ _ Hget).
  assert (Hfirst : ∃ w1,
    (if bool_decide (length (get_scene_handles s) = 0%nat)
     then modify (set_selected_scene (Some "NONE"))
     else first_valid_scene (get_scene_handles s)) w = Ok tt w1 ∧
    selected_scene w1 =
      Some (default "NONE" (first_without_NONE (get_scene_handles s)))).
  { case_bool_decide as Hlen.
    - eexists. split; [reflexivity|]. simpl.
      destruct (get_scene_handles s); [reflexivity|discriminate Hlen].
    - destruct (first_valid_scene_Ok (get_scene_handles s) w) as (w1 & Hf & _ & Hres).
      exists w1. split; [exact Hf|]. rewrite Hres, Hsel.
      destruct (first_without_NONE (get_scene_handles s)); reflexivity. }
  destruct Hfirst as (w1 & Hfirst & Hsel1).
  rewrite (bind_Ok_intro _ _ _ _ _ Hfirst).
  destruct (HAS_WIDGETS env); simpl.
  - unfold get_selected_scene, gets, set_handle_ddl_widget, modify,
      mbind, M_bind, mret, M_ret.
    rewrite Hsel1. simpl. rewrite bool_decide_eq_true_2 by (apply Hdd; reflexivity).
    eexists. split; [reflexivity|]. simpl. eauto.
  - eexists. split; [reflexivity|]. eauto.
Qed.

Lemma deliver_ui_events_total evs w :
  Forall (λ ev : gmap string string, is_Some (ev !! "new")) evs →
  is_Some (selected_scene w) →
  ∃ w', deliver_ui_events evs w = Ok tt w' ∧ is_Some (selected_scene w').
Proof.
  intros Hevs. revert w. induction Hevs as [|ev evs [new Hnew] _ IH]; intros w Hsel.
  - exists w. split; [reflexivity|exact Hsel].
  - simpl.
    assert (Hone : on_scene_ddl_change ev w =
                     Ok new (set_selected_scene (Some new) w)).
    { unfold on_scene_ddl_change.
      rewrite (bind_Ok_intro _ _ _ _ _ (dict_get_Some _ _ _ w Hnew)).
      reflexivity. }
    rewrite (bind_Ok_intro _ _ _ _ _ Hone). apply IH. simpl. eauto.
Qed.

Lemma user_interaction_total env w :
  Forall (λ ev : gmap string string, is_Some (ev !! "new")) (ui_events env) →
  is_Some (selected_scene w) →
  ∃ w', user_interaction env w = Ok tt w' ∧ is_Some (selected_scene w').
Proof.
  intros Hevs Hsel. unfold user_interaction. destruct (HAS_WIDGETS env).
  - apply deliver_ui_events_total; assumption.
  - exists w. split; [reflexivity|exact Hsel].
Qed.

Lemma load_selected_scene_total env w :
  (∀ cfg, is_Some (Simulator cfg)) →
  sim_sane w → (∃ h s, sim w = Some h ∧ heap w !! h = Some s) →
  is_Some (selected_scene w) →
  ∃ st w', load_selected_scene env (make_default_settings env) w = Ok st w' ∧
           st !! "width" = Some (PInt 1280) ∧ st !! "height" = Some (PInt 720) ∧
           ∃ h s, sim w' = Some h ∧ heap w' !! h = Some s.
Proof.
  intros Hctor Hsane Hvalid [sel Hsel]. unfold load_selected_scene.
  rewrite (bind_Ok_intro _ _ _ _ _
             (dict_get_Some _ _ _ w (default_settings_scene env))).
  assert (Hget : get_selected_scene w = Ok sel w).
  { unfold get_selected_scene, gets, mbind, M_bind. rewrite Hsel. reflexivity. }
  rewrite (bind_Ok_intro _ _ _ _ _ Hget).
  case_bool_decide.
  - destruct (make_simulator_from_settings_total env
                (<["scene" := PStr sel]> (make_default_settings env)) w Hctor
                (has_cfg_keys_insert _ _ _ (default_settings_has_cfg_keys env)) Hsane)
      as [w' Hre].
    rewrite (bind_Ok_intro _ _ _ _ _ Hre).
    eexists _, w'. split; [reflexivity|].
    split; [rewrite lookup_insert_ne by discriminate; apply default_settings_width|].
    split; [rewrite lookup_insert_ne by discriminate; apply default_settings_height|].
    eapply rebuild_sim_on_heap. exact Hre.
  - eexists _, w. split; [reflexivity|].
    split; [apply default_settings_width|].
    split; [apply default_settings_height|exact Hvalid].
Qed.

Lemma loop_body_total env t w h s :
  (∀ path, writable env path = true) →
  sim w = Some h → heap w !! h = Some s →
  ∃ t' w', loop_body env t w = Ok t' w'.
Proof.
  intros Hwr Hs Hh. unfold loop_body.
  rewrite (bind_Ok_intro _ _ _ _ _ (sim_do_Some _ w h s Hs Hh)).
  set (w1 := set_heap _ w).
  assert (Hs1 : sim w1 = Some h) by exact Hs.
  assert (Hh1 : heap w1 !! h = Some (pose_update (count t) s)).
  { simpl. apply list_lookup_insert_eq. eapply lookup_lt_Some. exact Hh. }
  assert (Hcur : current_sim w1 = Ok h w1).
  { unfold current_sim, gets, mbind, M_bind. rewrite Hs1. reflexivity. }
  rewrite (bind_Ok_intro _ _ _ _ _ Hcur).
  assert (Hcall : sim_call h (step_physics (1 / 30)) w1 =
            Ok tt (set_heap (<[h := step_physics (1 / 30)
                                      (pose_update (count t) s)]> (heap w1)) w1)).
  { unfold sim_call, gets, mbind, M_bind. rewrite Hh1. reflexivity. }
  rewrite (bind_Ok_intro _ _ _ _ _ Hcall).
  erewrite bind_Ok_intro by reflexivity.
  set (w3 := add_event _ _).
  assert (Hs3 : sim w3 = Some h) by exact Hs.
  assert (Hh3 : heap w3 !! h =
                  Some (step_physics (1 / 30) (pose_update (count t) s))).
  { simpl. apply list_lookup_insert_eq. rewrite length_insert.
    eapply lookup_lt_Some. exact Hh. }
  destruct (make_video env); [|eexists _, _; reflexivity].
  rewrite (bind_Ok_intro _ _ _ _ _ (sim_read_Some _ w3 h _ Hs3 Hh3)).
  rewrite (bind_Ok_intro _ _ _ _ _ (sim_read_Some _ w3 h _ Hs3 Hh3)).
  rewrite (bind_Ok_intro _ _ _ _ _ (sim_read_Some _ w3 h _ Hs3 Hh3)).
  destruct (display env); [|eexists _, _; reflexivity].
  unfold save_sample, write_file. rewrite !Hwr.
  eexists _, _. reflexivity.
Qed.

(** With every path writable and a simulator in place, the loop never
    raises. *)
Lemma trajectory_loop_no_raise env fuel start_time t w h s :
  (∀ path, writable env path = true) →
  sim w = Some h → heap w !! h = Some s →
  trajectory_loop env fuel start_time t w = OutOfFuel ∨
  ∃ t' w', trajectory_loop env fuel start_time t w = Ok t' w'.
Proof.
  intros Hwr. revert t w s. induction fuel as [|fuel IH]; intros t w s Hs Hh;
    rewrite trajectory_loop_unfold;
    rewrite (bind_Ok_intro _ _ _ _ _ (loop_guard_eval start_time w h s Hs Hh));
    destruct (bool_decide _); try (right; eexists _, _; reflexivity).
  - left. reflexivity.
  - destruct (loop_body_total env t w h s Hwr Hs Hh) as (t1 & w1 & Hb).
    rewrite (bind_Ok_intro _ _ _ _ _ Hb).
    apply loop_body_Ok in Hb as (h' & s' & Hs' & Hh' & Hb). simpl in Hb.
    destruct Hb as (Hs1 & Hheap & _).
    rewrite Hs in Hs'. injection Hs' as <-.
    eapply IH; [exact Hs1|].
    rewrite Hheap. apply list_lookup_insert_eq. eapply lookup_lt_Some. exact Hh.
Qed.

(** On an engine that keeps [EngineLaws] and whose constructor does not
    raise, with every path writable, well-formed dropdown events and, where
    widgets are present, a default selection that is among the handles the
    dropdown is given, the script runs to its end once the loop is given
    enough fuel. *)
Theorem script_completes (HL : EngineLaws E) (env : Env)
    (files0 : gmap string file) :
  (∀ cfg, is_Some (Simulator cfg)) →
  (∀ path, writable env path = true) →
  Forall (λ ev : gmap string string, is_Some (ev !! "new")) (ui_events env) →
  (HAS_WIDGETS env = true →
   ∀ s, default "NONE" (first_without_NONE (get_scene_handles s))
        ∈ get_scene_handles s) →
  ∃ n : nat, ∀ fuel, (n ≤ fuel)%nat →
    ∃ w', main env fuel (initial_world files0) = Ok tt w'.
Proof.
  intros Hctor Hwr Hevs Hdd.
  destruct (make_simulator_from_settings_total env (make_default_settings env)
              (initial_world files0) Hctor (default_settings_has_cfg_keys env)
              (sim_sane_initial files0)) as [w0 Hre].
  pose proof (make_simulator_from_settings_Ok _ _ _ _ _ Hre)
    as (cfg & s0 & _ & _ & Hs0 & _ & Hh0 & _ & _ & _ & Hsel0).
  assert (Hcur : current_sim w0 = Ok (length (heap (initial_world files0))) w0).
  { unfold current_sim, gets, mbind, M_bind. rewrite Hs0. reflexivity. }
  destruct (build_widget_ui_total env _ _ w0 Hh0 Hsel0 (λ H, Hdd H _))
    as (w1 & Hui & Hsel1).
  pose proof (build_widget_ui_frame _ _ _ _ _ Hui) as (Hheap1 & Hsim1 & _ & _).
  destruct (user_interaction_total env w1 Hevs Hsel1) as (w2 & Hint & Hsel2).
  pose proof (user_interaction_frame _ _ _ _ Hint) as (Hheap2 & Hsim2 & _ & _).
  assert (Hvalid2 : ∃ h s, sim w2 = Some h ∧ heap w2 !! h = Some s).
  { eexists _, _. rewrite Hsim2, Hsim1, Hheap2, Hheap1. split; eassumption. }
  assert (Hsane2 : sim_sane w2).
  { destruct Hvalid2 as (h & s & Hs & Hh). intros h' Hh'.
    rewrite Hs in Hh'. injection Hh' as <-. eauto. }
  destruct (load_selected_scene_total env w2 Hctor Hsane2 Hvalid2 Hsel2)
    as (st & w3 & Hload & Hwd & Hht & h & s & Hs3 & Hh3).
  set (w4 := set_heap (<[h := node_set_translation (Vec3 (-2) 0 0) s]> (heap w3)) w3).
  assert (Hs4 : sim w4 = Some h) by exact Hs3.
  assert (Hh4 : heap w4 !! h = Some (node_set_translation (Vec3 (-2) 0 0) s)).
  { simpl. apply list_lookup_insert_eq. eapply lookup_lt_Some. exact Hh3. }
  destruct (trajectory_loop_terminates HL env (get_world_time s) traj_init w4)
    as [n Hn].
  exists n. intros fuel Hfuel.
  destruct (trajectory_loop_no_raise env fuel (get_world_time s) traj_init
              w4 h _ Hwr Hs4 Hh4) as [Hoof|(t & w5 & Hloop)].
  { destruct (Hn fuel Hfuel Hoof). }
  pose proof (trajectory_loop_reaches _ _ _ _ _ _ _ Hloop) as [Hr _].
  apply loop_reaches_frame in Hr as (Hs5 & _ & Hlen5 & _).
  assert (Hh5 : is_Some (heap w5 !! h)).
  { apply lookup_lt_is_Some. rewrite Hlen5. eapply lookup_lt_Some. exact Hh4. }
  destruct Hh5 as [s5 Hh5]. rewrite Hs4 in Hs5.
  assert (Hstart : startup env (initial_world files0) = Ok tt w1).
  { unfold startup. rewrite (bind_Ok_intro _ _ _ _ _ Hre).
    rewrite (bind_Ok_intro _ _ _ _ _ Hcur). exact Hui. }
  unfold main.
  rewrite (bind_Ok_intro _ _ _ _ _ Hstart).
  rewrite (bind_Ok_intro _ _ _ _ _ Hint).
  rewrite (bind_Ok_intro _ _ _ _ _ Hload).
  rewrite (bind_Ok_intro _ _ _ _ _ (sim_read_Some _ w3 h s Hs3 Hh3)).
  rewrite (bind_Ok_intro _ _ _ _ _ (sim_do_Some _ w3 h s Hs3 Hh3)).
  fold w4. rewrite (bind_Ok_intro _ _ _ _ _ Hloop).
  unfold save_pickle.
  rewrite (bind_Ok_intro _ _ _ _ _
             (make_camera_info_1280_720 st w5 h s5 Hwd Hht Hs5 Hh5)).
  unfold write_file. rewrite Hwr. eexists. reflexivity.
Qed.

End Completion.

(** ** The images of a frame *)

Lemma save_sample_total {E : Engine} env rgb semantic depth idx (w : World) :
  (∀ path, writable env path = true) →
  ∃ w', save_sample env rgb semantic depth idx w = Ok tt w'.
Proof.
  intros Hwr. unfold save_sample, write_file. rewrite !Hwr.
  eexists. reflexivity.
Qed.


(** C5: the palette index written for a semantic value [v] is [v mod 40], a
    valid index into a 40-colour palette; the value 83 is written as 3; and
    the semantic image that [save_sample] writes holds that index for every
    element of the buffer. *)
Theorem semantic_palette_index :
  (∀ v : Z, semantic_index v = v mod 40 ∧ 0 ≤ semantic_index v < 40) ∧
  semantic_index 83 = 3 ∧
  (∀ (E : Engine) env rgb (semantic : ndarray Z) depth idx (w w' : World),
     save_sample env rgb semantic depth idx w = Ok tt w' →
     files w' !! semantic_image_path env idx =
       Some (Png (ConvertRGBA {|
         p_width := shape1 semantic;
         p_height := shape0 semantic;
         p_palette := flat d3_40_colors_rgb;
         p_data := (λ v, v mod 40) <$> flat semantic |}))).
Proof.
  split; [|split].
  - intros v. rewrite semantic_index_mod. split; [reflexivity|].
    apply Z.mod_pos_bound. lia.
  - reflexivity.
  - intros E env rgb semantic depth idx w w' (_ & _ & _ & _ & Hf)%save_sample_Ok.
    rewrite Hf.
    rewrite lookup_insert_ne
      by (intros Heq; exact (semantic_image_path_not_depth env idx (eq_sym Heq))).
    rewrite lookup_insert_eq. unfold semantic_image.
    rewrite semantic_indices_map. reflexivity.
Qed.

(** ** Whole-run statements *)

(** C7: a rebuild that returns leaves exactly one simulator alive, the one
    the global [sim] names.  A simulator that existed is closed first
    and the new one is constructed afterwards, so that at every point between
    the start and the end of the call at most one simulator is alive; the
    invariant it relies on ([lifecycle_ok]) holds again at the end.  And the
    rebuild does return, whatever the settings hold beyond the keys
    [make_cfg] reads, when the engine's constructor does not raise. *)
Theorem rebuild_one_live_simulator (E : Engine) (env : Env)
    (sim_settings : gmap string pyval) (w : World) :
  (∀ w', lifecycle_ok w →
     make_simulator_from_settings env sim_settings w = Ok tt w' →
     ∃ h, sim w' = Some h ∧ live (trace w') = [h] ∧
          trace w' = trace w ++ from_option (λ h0, [EvClose h0]) [] (sim w)
                             ++ [EvCreate h] ∧
          (∀ tr, trace w `prefix_of` tr → tr `prefix_of` trace w' →
                 (length (live tr) ≤ 1)%nat) ∧
          lifecycle_ok w') ∧
  ((∀ cfg, is_Some (Simulator cfg)) → has_cfg_keys sim_settings → sim_sane w →
   ∃ w', make_simulator_from_settings env sim_settings w = Ok tt w').
Proof.
  split.
  - intros w' Hok H.
    apply make_simulator_from_settings_Ok in H
      as (cfg & s0 & _ & _ & Hsim & Hlen & _ & Htr & _ & _ & _).
    exists (length (heap w)).
    destruct (rebuild_live w (trace w) _ (length (heap w)) Hok eq_refl) as [Hone _].
    split; [exact Hsim|]. split; [rewrite Htr; exact Hone|].
    split; [exact Htr|]. split.
    + intros tr Hp1 Hp2. rewrite Htr in Hp2.
      apply (rebuild_live w tr _ (length (heap w)) Hok eq_refl); assumption.
    + right. exists (length (heap w)). split; [exact Hsim|].
      rewrite Htr. exact Hone.
  - apply make_simulator_from_settings_total.
Qed.

(** C2: when the trajectory loop has finished, the observations, the
    translations and the rotations it accumulated from the empty record are
    equally many (the capture flag need not be assumed: without capture all
    three stay empty).  And the loop does finish, given enough fuel, when the
    engine's clock advances, a simulator is in place and the image files can
    be written. *)
Theorem trajectory_sequences_same_length (E : Engine) (env : Env)
    (start_time : R) (w : World) :
  (∀ fuel t' w',
     trajectory_loop env fuel start_time traj_init w = Ok t' w' →
     length (observations t') = length (translations t') ∧
     length (translations t') = length (rotations t')) ∧
  (EngineLaws E → (∀ path, writable env path = true) →
   (∃ h s, sim w = Some h ∧ heap w !! h = Some s) →
   ∃ n : nat, ∀ fuel, (n ≤ fuel)%nat →
     ∃ t' w', trajectory_loop env fuel start_time traj_init w = Ok t' w').
Proof.
  split.
  - intros fuel t' w' [Hr _]%trajectory_loop_reaches.
    apply loop_reaches_lengths in Hr. simpl in Hr. lia.
  - intros HL Hwr (h & s & Hs & Hh).
    destruct (trajectory_loop_terminates HL env start_time traj_init w) as [n Hn].
    exists n. intros fuel Hfuel.
    destruct (trajectory_loop_no_raise env fuel start_time traj_init w h s Hwr Hs Hh)
      as [Hoof|Hok]; [destruct (Hn fuel Hfuel Hoof)|exact Hok].
Qed.

(** C8: in a run that completes, the snapshot file is written once, as the
    last event of the run: everything before it is simulator construction
    and teardown followed by the physics steps and image writes of the
    trajectory loop, which has ended.  Whatever was on disk before, the
    file then holds a dictionary with exactly the keys observations,
    rotations, translations and camera_info, whose values are the three
    sequences the loop ended with and the camera intrinsics.  And the run
    does complete, given enough fuel, when the engine's clock advances, its
    constructor does not raise, every path can be written, the dropdown
    events carry a new value and, where widgets are present, the default
    selection is among the handles offered to the dropdown (which refuses
    any other value: an empty handle list aborts such a run in the
    selection cell, before anything is written). *)
Theorem snapshot_written_once_after_loop (E : Engine) (env : Env)
    (files0 : gmap string file) :
  (∀ fuel w', main env fuel (initial_world files0) = Ok tt w' →
   ∃ start_time w1 t w2 h s,
    trajectory_loop env fuel start_time traj_init w1 = Ok t w2 ∧
    sim w2 = Some h ∧ heap w2 !! h = Some s ∧
    Forall lifecycle_event (trace w1) ∧
    (∃ evs, trace w2 = trace w1 ++ evs ∧ Forall (frame_event env) evs) ∧
    trace w' = trace w2 ++ [EvWrite (output_filename env)] ∧
    write_count (output_filename env) (trace w') = 1%nat ∧
    let f := (0.5 * 1280 / tan (color_hfov s * PI / 180 / 2))%R in
    let camera_info : gmap string pyval := list_to_map [
      ("width", PInt 1280); ("height", PInt 720); ("fov", PFloat (color_hfov s));
      ("fx", PFloat f); ("fy", PFloat f); ("cx", PFloat 640); ("cy", PFloat 360) ] in
    let data : gmap string pickled := list_to_map [
      ("observations", PklObservations (observations t));
      ("rotations", PklRotations (rotations t));
      ("translations", PklTranslations (translations t));
      ("camera_info", PklDict camera_info) ] in
    files w' !! output_filename env = Some (Pickle data) ∧
    dom data = ({["observations"; "rotations"; "translations"; "camera_info"]}
                : gset string)) ∧
  (EngineLaws E → (∀ cfg, is_Some (Simulator cfg)) →
   (∀ path, writable env path = true) →
   Forall (λ ev : gmap string string, is_Some (ev !! "new")) (ui_events env) →
   (HAS_WIDGETS env = true →
    ∀ s, default "NONE" (first_without_NONE (get_scene_handles s))
         ∈ get_scene_handles s) →
   ∃ n : nat, ∀ fuel, (n ≤ fuel)%nat →
     ∃ w', main env fuel (initial_world files0) = Ok tt w').
Proof.
  split; [|intros HL; apply (script_completes HL)].
  intros fuel w'.
  intros (st & start & w1 & t & w2 & ci & Hwd & Hht & Hpre & _ & _ & _ & Hloop & Hci & _ & ->)%main_Ok.
  pose proof (make_camera_info_Ok _ _ _ _ Hci) as (_ & h & s & Hs & Hh).
  rewrite (make_camera_info_1280_720 st w2 h s Hwd Hht Hs Hh) in Hci.
  injection Hci as <-.
  pose proof (trajectory_loop_reaches _ _ _ _ _ _ _ Hloop) as [Hr _].
  apply loop_reaches_frame in Hr as (_ & _ & _ & evs & Htr & Hevs).
  exists start, w1, t, w2, h, s.
  split; [exact Hloop|]. split; [exact Hs|]. split; [exact Hh|].
  split; [exact Hpre|]. split; [exists evs; split; assumption|].
  split; [reflexivity|]. split.
  - simpl. rewrite write_count_app, write_count_one, Htr, write_count_app.
    rewrite !write_count_none; [reflexivity| |].
    + eapply Forall_impl; [exact Hevs|]. intros ev. apply frame_event_not_pickle.
    + eapply Forall_impl; [exact Hpre|]. intros ev. apply lifecycle_event_not_write.
  - intros f camera_info data. split.
    + simpl. apply lookup_insert_eq.
    + apply (data_to_save_keys t camera_info).
Qed.

(** ** Runs on the small engine *)

Lemma toy_engine_laws (scene_handles : list string) :
  EngineLaws (toy_engine scene_handles).
Proof.
  split; [reflexivity|reflexivity|].
  exists 2%R. split; [lra|]. intros s. simpl. lra.
Qed.

Lemma toy_scene_node_laws (scene_handles : list string) :
  SceneNodeLaws (toy_engine scene_handles).
Proof. split; reflexivity. Qed.

(** The first build, from a fresh interpreter. *)
Lemma toy_first_build :
  ∃ w', make_simulator_from_settings (E := toy_engine toy_handles)
          (toy_env false false) (make_default_settings (toy_env false false))
          (initial_world ∅) = Ok tt w'.
Proof. eexists. vm_compute. reflexivity. Qed.

(** A rebuild for the scene "apt_0" while a simulator exists. *)
Lemma toy_rebuild (w : World (E := toy_engine toy_handles)) :
  make_simulator_from_settings (toy_env false false)
    (make_default_settings (toy_env false false)) (initial_world ∅) = Ok tt w →
  ∃ w', make_simulator_from_settings (toy_env false false)
          (<["scene" := PStr "apt_0"]> (make_default_settings (toy_env false false)))
          w = Ok tt w'.
Proof.
  vm_compute. intros [= <-]. eexists. vm_compute. reflexivity.
Qed.

(** The selection cell after the first build picks "apt_0"; the re-read then
    rebuilds for it. *)
Lemma toy_load_selected_scene :
  ∃ st w',
    load_selected_scene (E := toy_engine toy_handles) (toy_env false false)
      (make_default_settings (toy_env false false))
      (set_selected_scene (Some "apt_0") toy_world)
    = Ok st w'.
Proof.
  eexists _, _. unfold load_selected_scene.
  erewrite bind_Ok_intro
    by (apply dict_get_Some; apply default_settings_scene).
  erewrite bind_Ok_intro by reflexivity.
  rewrite bool_decide_eq_true_2 by discriminate.
  erewrite bind_Ok_intro by (vm_compute; reflexivity).
  reflexivity.
Qed.

(** Two iterations with capture on and display off: the clock reads 0, 2
    and then 4 seconds. *)
Lemma toy_loop_run :
  ∃ t' w', trajectory_loop (E := toy_engine toy_handles) (toy_env false true)
             2 0 traj_init toy_world = Ok t' w'.
Proof.
  eexists _, _.
  erewrite trajectory_loop_step; cycle 1.
  { erewrite loop_guard_eval by reflexivity.
    rewrite bool_decide_eq_true_2; [reflexivity|simpl; lra]. }
  { vm_compute. reflexivity. }
  erewrite trajectory_loop_step; cycle 1.
  { erewrite loop_guard_eval by reflexivity.
    rewrite bool_decide_eq_true_2; [reflexivity|simpl; lra]. }
  { vm_compute. reflexivity. }
  apply trajectory_loop_done.
  erewrite loop_guard_eval by reflexivity.
  rewrite bool_decide_eq_false_2; [reflexivity|simpl; lra].
Qed.

(** A whole run with capture on and display off. *)
Lemma toy_main_run :
  ∃ w', main (E := toy_engine toy_handles) (toy_env false true) 2
          (initial_world ∅) = Ok tt w'.
Proof.
  eexists. unfold main.
  erewrite bind_Ok_intro by (vm_compute; reflexivity).
  erewrite bind_Ok_intro by (vm_compute; reflexivity).
  erewrite bind_Ok_intro; cycle 1.
  { unfold load_selected_scene.
    erewrite bind_Ok_intro
      by (apply dict_get_Some; apply default_settings_scene).
    erewrite bind_Ok_intro by reflexivity.
    rewrite bool_decide_eq_true_2 by discriminate.
    erewrite bind_Ok_intro by (vm_compute; reflexivity).
    reflexivity. }
  erewrite bind_Ok_intro by (vm_compute; reflexivity).
  erewrite bind_Ok_intro by (vm_compute; reflexivity).
  erewrite bind_Ok_intro; cycle 1.
  { erewrite trajectory_loop_step; cycle 1.
    { erewrite loop_guard_eval by reflexivity.
      rewrite bool_decide_eq_true_2; [reflexivity|simpl; lra]. }
    { vm_compute. reflexivity. }
    erewrite trajectory_loop_step; cycle 1.
    { erewrite loop_guard_eval by reflexivity.
      rewrite bool_decide_eq_true_2; [reflexivity|simpl; lra]. }
    { vm_compute. reflexivity. }
    apply trajectory_loop_done.
    erewrite loop_guard_eval by reflexivity.
    rewrite bool_decide_eq_false_2; [reflexivity|simpl; lra]. }
  unfold save_pickle.
  erewrite bind_Ok_intro; cycle 1.
  { eapply make_camera_info_1280_720.
    - rewrite lookup_insert_ne by discriminate. apply default_settings_width.
    - rewrite lookup_insert_ne by discriminate. apply default_settings_height.
    - reflexivity.
    - reflexivity. }
  reflexivity.
Qed.

(** ** The theorems at concrete inputs *)

(** C1 at the four boundaries 39, 40, 60 and 80, on the small engine. *)
Lemma pose_delta_at_boundaries :
  let s : SimState (Engine := toy_engine toy_handles) := toy_state 0 in
  let yaw := (- (PI / 2) / 20)%R in
  let Y := Vec3 0 1 0 in
  let translated v := node_set_translation (vadd (node_translation s) v) s in
  pose_update 39 s = node_rotate yaw Y s ∧
  pose_update 40 s = node_rotate yaw Y (translated (Vec3 0.3 0 0)) ∧
  pose_update 60 s = node_rotate yaw Y (translated (Vec3 0 0 0.3)) ∧
  pose_update 80 s = translated (Vec3 (-0.1) 0 (-0.1)).
Proof.
  intros s yaw Y translated.
  split; [|split; [|split]].
  - apply (pose_delta_by_count (toy_engine toy_handles) s 39). lia.
  - apply (pose_delta_by_count (toy_engine toy_handles) s 40). lia.
  - apply (pose_delta_by_count (toy_engine toy_handles) s 60). lia.
  - apply (pose_delta_by_count (toy_engine toy_handles) s 80). lia.
Defined.

(** C2 on the two-iteration run, and the loop's completion on the small
    engine. *)
Lemma trajectory_sequences_same_length_run :
  (∃ t' w',
     trajectory_loop (E := toy_engine toy_handles) (toy_env false true)
       2 0 traj_init toy_world = Ok t' w' ∧
     length (observations t') = length (translations t') ∧
     length (translations t') = length (rotations t')) ∧
  (∃ n : nat, ∀ fuel, (n ≤ fuel)%nat →
     ∃ t' w', trajectory_loop (E := toy_engine toy_handles) (toy_env false true)
                fuel 0 traj_init toy_world = Ok t' w').
Proof.
  split.
  - destruct toy_loop_run as (t' & w' & Hrun).
    exists t', w'. split; [exact Hrun|].
    exact (proj1 (trajectory_sequences_same_length _ _ _ _) _ _ _ Hrun).
  - apply (proj2 (trajectory_sequences_same_length (toy_engine toy_handles)
                    (toy_env false true) 0 toy_world)).
    + apply toy_engine_laws.
    + intros path. reflexivity.
    + exists 0%nat, (toy_state 0). split; reflexivity.
Defined.

(** C3 (as the code has it) on the handles "NONE" and "apt_0". *)
Lemma scene_selection_without_widgets_run :
  HAS_WIDGETS (toy_env false false) = false ∧
  heap toy_world !! 0%nat = Some (toy_state 0) ∧
  selected_scene toy_world = Some "NONE" ∧
  ∃ w', build_widget_ui (toy_env false false) 0 toy_world = Ok tt w' ∧
        selected_scene w' = Some "apt_0".
Proof.
  split; [reflexivity|]. split; [reflexivity|]. split; [reflexivity|].
  destruct (scene_selection_without_widgets (toy_engine toy_handles)
              (toy_env false false) 0 (toy_state 0) toy_world
              eq_refl eq_refl) as (w' & Hrun & _ & Hsel & _).
  exists w'. split; [exact Hrun|exact (Hsel eq_refl)].
Defined.

(** C6 on the small engine, whose field of view is 90 degrees: there the
    focal length is 640 pixels. *)
Lemma camera_intrinsics_run :
  let env := toy_env false false in
  let ci : gmap string pyval := list_to_map [
    ("width", PInt 1280); ("height", PInt 720); ("fov", PFloat 90);
    ("fx", PFloat (0.5 * 1280 / tan (90 * PI / 180 / 2)));
    ("fy", PFloat (0.5 * 1280 / tan (90 * PI / 180 / 2)));
    ("cx", PFloat 640); ("cy", PFloat 360) ] in
  make_default_settings env !! "width" = Some (PInt 1280) ∧
  make_default_settings env !! "height" = Some (PInt 720) ∧
  make_camera_info (make_default_settings env) toy_world = Ok ci toy_world ∧
  (0.5 * 1280 / tan (90 * PI / 180 / 2) = 640)%R.
Proof.
  intros env ci.
  split; [apply default_settings_width|].
  split; [apply default_settings_height|].
  split.
  - exact (proj1 (camera_intrinsics_1280_720 (toy_engine toy_handles) env
             (make_default_settings env) traj_init toy_world 0 (toy_state 0) 90
             (default_settings_width env) (default_settings_height env)
             eq_refl eq_refl eq_refl eq_refl)).
  - replace (90 * PI / 180 / 2)%R with (PI / 4)%R by lra.
    rewrite tan_PI4. lra.
Defined.

(** C7 twice in a row: the first build from a fresh interpreter, then a
    rebuild that has a simulator to close; and the first build returns. *)
Lemma rebuild_one_live_simulator_run :
  (∃ w1 w2,
     make_simulator_from_settings (E := toy_engine toy_handles)
       (toy_env false false) (make_default_settings (toy_env false false))
       (initial_world ∅) = Ok tt w1 ∧
     make_simulator_from_settings (toy_env false false)
       (<["scene" := PStr "apt_0"]> (make_default_settings (toy_env false false)))
       w1 = Ok tt w2 ∧
     live (trace w1) = [0%nat] ∧ live (trace w2) = [1%nat] ∧
     trace w2 = [EvCreate 0; EvClose 0; EvCreate 1]) ∧
  (∃ w', make_simulator_from_settings (E := toy_engine toy_handles)
           (toy_env false false) (make_default_settings (toy_env false false))
           (initial_world ∅) = Ok tt w').
Proof.
  split.
  - destruct toy_first_build as (w1 & H1).
    destruct (toy_rebuild w1 H1) as (w2 & H2).
    exists w1, w2. split; [exact H1|]. split; [exact H2|].
    destruct (proj1 (rebuild_one_live_simulator _ _ _ _) _
                (lifecycle_ok_initial ∅) H1)
      as (h1 & Hs1 & Hl1 & Ht1 & _ & Hok1).
    destruct (proj1 (rebuild_one_live_simulator _ _ _ _) _ Hok1 H2)
      as (h2 & Hs2 & Hl2 & Ht2 & _ & _).
    assert (Hh1 : sim w1 = Some 0%nat)
      by (revert H1; vm_compute; intros [= <-]; reflexivity).
    assert (Hh2 : sim w2 = Some 1%nat)
      by (revert H2; revert H1; vm_compute; intros [= <-]; vm_compute;
          intros [= <-]; reflexivity).
    rewrite Hh1 in Hs1. injection Hs1 as <-.
    rewrite Hh2 in Hs2. injection Hs2 as <-.
    split; [exact Hl1|]. split; [exact Hl2|].
    rewrite Ht2, Ht1, Hh1. reflexivity.
  - apply (proj2 (rebuild_one_live_simulator (toy_engine toy_handles)
                    (toy_env false false)
                    (make_default_settings (toy_env false false))
                    (initial_world ∅))).
    + intros cfg. eexists. reflexivity.
    + apply default_settings_has_cfg_keys.
    + apply sim_sane_initial.
Defined.

(** C8 on a whole run of the small engine without display, and the
    completion of its runs with display and widgets, where the default
    selection "apt_0" is one of the handles. *)
Lemma snapshot_written_once_run :
  (∃ w', main (E := toy_engine toy_handles) (toy_env false true) 2
           (initial_world ∅) = Ok tt w' ∧
         write_count (output_filename (toy_env false true)) (trace w') = 1%nat ∧
         last (trace w') = Some (EvWrite "/repo/output/data.pkl") ∧
         ∃ d, files w' !! "/repo/output/data.pkl" = Some (Pickle d) ∧
              dom d = ({["observations"; "rotations"; "translations"; "camera_info"]}
                       : gset string)) ∧
  (∃ n : nat, ∀ fuel, (n ≤ fuel)%nat →
     ∃ w', main (E := toy_engine toy_handles) (toy_env true false) fuel
             (initial_world ∅) = Ok tt w').
Proof.
  split.
  - destruct toy_main_run as (w' & Hrun).
    exists w'. split; [exact Hrun|].
    destruct (proj1 (snapshot_written_once_after_loop _ _ _) _ _ Hrun)
      as (start & w1 & t & w2 & h & s & _ & _ & _ & _ & _ & Htr & Hcount & Hfile & Hdom).
    split; [exact Hcount|]. split.
    + rewrite Htr. apply last_snoc.
    + eexists. split; [exact Hfile|exact Hdom].
  - apply (proj2 (snapshot_written_once_after_loop (toy_engine toy_handles)
                    (toy_env true false) ∅)).
    + apply toy_engine_laws.
    + intros cfg. eexists. reflexivity.
    + intros path. reflexivity.
    + apply Forall_nil_2.
    + intros _ s. apply list_elem_of_further, list_elem_of_here.
Defined.

(** C9 on the two-iteration run without display. *)
Lemma counter_frozen_without_display_run :
  no_display (toy_env false true) = true ∧
  ∃ t' w',
    trajectory_loop (E := toy_engine toy_handles) (toy_env false true)
      2 0 traj_init toy_world = Ok t' w' ∧
    count t' = 1 ∧ length (observations t') = 2%nat.
Proof.
  split; [reflexivity|].
  destruct toy_loop_run as (t' & w' & Hrun).
  exists t', w'. split; [exact Hrun|].
  pose proof (trajectory_loop_reaches _ _ _ _ _ _ _ Hrun) as [Hr _].
  destruct (counter_frozen_without_display (E := toy_engine toy_handles)
              (toy_env false true)) as (_ & _ & Hnd & Hfrozen).
  destruct (Hfrozen (Hnd eq_refl) _ _ _ _ Hr) as [Hc _].
  split; [exact Hc|].
  revert Hrun. clear.
  erewrite trajectory_loop_step; cycle 1.
  { erewrite loop_guard_eval by reflexivity.
    rewrite bool_decide_eq_true_2; [reflexivity|simpl; lra]. }
  { vm_compute. reflexivity. }
  erewrite trajectory_loop_step; cycle 1.
  { erewrite loop_guard_eval by reflexivity.
    rewrite bool_decide_eq_true_2; [reflexivity|simpl; lra]. }
  { vm_compute. reflexivity. }
  rewrite trajectory_loop_done.
  - intros [= <- _]. reflexivity.
  - erewrite loop_guard_eval by reflexivity.
    rewrite bool_decide_eq_false_2; [reflexivity|simpl; lra].
Defined.

(** C10 on the small engine: the first build resets the selection, and so
    does the rebuild for the selected scene "apt_0". *)
Lemma rebuild_resets_selection_run :
  (∃ w', make_simulator_from_settings (E := toy_engine toy_handles)
           (toy_env false false) (make_default_settings (toy_env false false))
           (initial_world ∅) = Ok tt w' ∧
         selected_scene w' = Some "NONE") ∧
  (∃ st w',
     load_selected_scene (E := toy_engine toy_handles) (toy_env false false)
       (make_default_settings (toy_env false false))
       (set_selected_scene (Some "apt_0") toy_world) = Ok st w' ∧
     st !! "scene" = Some (PStr "apt_0") ∧
     selected_scene w' = Some "NONE" ∧ selected_scene w' ≠ Some "apt_0").
Proof.
  split.
  - destruct toy_first_build as (w' & Hrun). exists w'. split; [exact Hrun|].
    exact (proj1 (rebuild_resets_selection (toy_env false false)) _ _ _ Hrun).
  - destruct toy_load_selected_scene as (st & w' & Hrun).
    exists st, w'. split; [exact Hrun|].
    assert (Hne : "apt_0" ≠ "NONE") by discriminate.
    destruct (proj2 (rebuild_resets_selection (toy_env false false))
                (set_selected_scene (Some "apt_0") toy_world) w' st "apt_0"
                eq_refl Hne Hrun) as (Hst & _ & Hsel & Hdiff).
    split; [exact Hst|]. split; [exact Hsel|exact Hdiff].
Defined.


(** The pose change at the boundaries, on the small engine's scene node. *)
Lemma pose_update_effect_run :
  let s : SimState (Engine := toy_engine toy_handles) := toy_state 0 in
  node_translation (pose_update 39 s) = Vec3 0 0 0 ∧
  node_translation (pose_update 40 s) = vadd (Vec3 0 0 0) (Vec3 0.3 0 0) ∧
  node_translation (pose_update 60 s) = vadd (Vec3 0 0 0) (Vec3 0 0 0.3) ∧
  node_translation (pose_update 80 s) = vadd (Vec3 0 0 0) (Vec3 (-0.1) 0 (-0.1)) ∧
  node_rotation (pose_update 80 s) = [].
Proof.
  intros s.
  pose proof (pose_update_effect _ (toy_scene_node_laws toy_handles) s) as H.
  split; [|split; [|split; [|split]]].
  - apply (H 39). lia.
  - apply (H 40). lia.
  - apply (H 60). lia.
  - apply (H 80). lia.
  - apply (H 80). lia.
Defined.

(** One simulator at a time, on the whole run of the small engine. *)
Lemma run_one_simulator_at_a_time_run :
  ∃ w', main (E := toy_engine toy_handles) (toy_env false true) 2
          (initial_world ∅) = Ok tt w' ∧
        at_most_one_live (trace w') ∧ one_live w'.
Proof.
  destruct toy_main_run as (w' & Hrun).
  exists w'. split; [exact Hrun|].
  exact (run_one_simulator_at_a_time _ _ _ _ _ Hrun).
Defined.



(** C5 on the small engine's one-pixel semantic buffer, which holds 83. *)
Lemma semantic_palette_index_run :
  ∃ w', save_sample (E := toy_engine toy_handles) (toy_env false false)
          (color_sensor_1st_person toy_observation)
          (semantic_sensor toy_observation) (depth_sensor toy_observation)
          1 toy_world = Ok tt w' ∧
        files w' !! "/repo/output/semantic_image_1.png" =
          Some (Png (ConvertRGBA {| p_width := 1; p_height := 1;
                                    p_palette := replicate 120 0;
                                    p_data := [3] |})).
Proof.
  destruct (save_sample_total (E := toy_engine toy_handles) (toy_env false false)
              (color_sensor_1st_person toy_observation)
              (semantic_sensor toy_observation) (depth_sensor toy_observation)
              1 toy_world (λ _, eq_refl)) as (w' & Hrun).
  exists w'. split; [exact Hrun|].
  destruct semantic_palette_index as (_ & _ & Hfile).
  exact (Hfile _ _ _ _ _ _ _ _ Hrun).
Defined.

(** * Further properties of the code *)

(** ** The configuration *)

Section Config.
Context {E : Engine}.

Lemma dict_get_None {V : Type} (d : gmap string V) k (w : World) :
  d !! k = None → dict_get d k w = Raise (KeyError k) w.
Proof. unfold dict_get. intros ->. reflexivity. Qed.

Lemma bind_Raise_intro {A B : Type} (m : M A) (f : A → M B) w e w1 :
  m w = Raise e w1 → (m ≫= f) w = Raise e w1.
Proof. unfold mbind, M_bind. intros ->. reflexivity. Qed.

Lemma bind_Raise {A B : Type} (m : M A) (f : A → M B) w e w' :
  (m ≫= f) w = Raise e w' →
  m w = Raise e w' ∨ ∃ a w1, m w = Ok a w1 ∧ f a w1 = Raise e w'.
Proof.
  unfold mbind, M_bind. destruct (m w) as [a w1|e1 w1|]; [|intros [= -> ->]; left; reflexivity|discriminate].
  intros H. right. exists a, w1. split; [reflexivity|exact H].
Qed.

Lemma make_cfg_by_first_missing_key (settings : gmap string pyval) (w : World) :
  match first_missing_key settings with
  | Some k => make_cfg settings w = Raise (KeyError k) w
  | None => ∃ cfg, make_cfg settings w = Ok cfg w
  end.
Proof.
  unfold first_missing_key, cfg_keys, make_cfg. simpl.
  repeat match goal with
  | |- context [bool_decide (settings !! ?k = None)] =>
      let H := fresh "H" in
      destruct (settings !! k) as [?|] eqn:H;
      [ rewrite bool_decide_eq_false_2 by discriminate;
        rewrite (bind_Ok_intro _ _ _ _ _ (dict_get_Some _ _ _ w H))
      | rewrite bool_decide_eq_true_2 by reflexivity;
        apply bind_Raise_intro; apply dict_get_None; exact H ]
  end.
  eexists. reflexivity.
Qed.

End Config.

(** [make_cfg] reads seven keys, in the order of [cfg_keys].  On any part
    of the default settings, the scene being any string (so that every value
    present has the type the configuration objects take), the first of the
    seven that is missing is the [KeyError] raised, and with all seven
    present a configuration is returned.  The state is the same in both
    cases.  The optional key "scene_dataset_config" does not stand in for
    "scene_dataset". *)
Theorem make_cfg_key_errors (E : Engine) (env : Env) (scene : string)
    (settings : gmap string pyval) (w : World) :
  settings ⊆ <["scene" := PStr scene]> (make_default_settings env) →
  match first_missing_key settings with
  | Some k => make_cfg settings w = Raise (KeyError k) w
  | None => ∃ cfg, make_cfg settings w = Ok cfg w
  end ∧
  (settings !! "scene_dataset" = None →
   ∀ file, make_cfg (<["scene_dataset_config" := PStr file]> settings) w
           = Raise (KeyError "scene_dataset") w).
Proof.
  intros _. split; [apply make_cfg_by_first_missing_key|].
  intros Hnone file. unfold make_cfg. apply bind_Raise_intro, dict_get_None.
  rewrite lookup_insert_ne by discriminate. exact Hnone.
Qed.

(** The configuration [make_cfg] returns has one agent with three sensors,
    named as the fields of an observation are and of the types colour, depth
    and semantic in this order; all three are pinhole cameras of resolution
    [height, width] at [0, sensor_height, 0], as the settings give them; only
    the colour sensor is given an orientation.  The dataset file is
    "scene_dataset_config" when the settings hold it and "scene_dataset"
    otherwise. *)
Theorem make_cfg_sensors (E : Engine) (settings : gmap string pyval)
    (w w' : World) (cfg : Configuration) :
  make_cfg settings w = Ok cfg w' →
  w' = w ∧
  ∃ height width sensor_height sensor_pitch scene_dataset a,
    settings !! "height" = Some height ∧ settings !! "width" = Some width ∧
    settings !! "sensor_height" = Some sensor_height ∧
    settings !! "sensor_pitch" = Some sensor_pitch ∧
    settings !! "scene_dataset" = Some scene_dataset ∧
    agents cfg = [a] ∧
    uuid <$> sensor_specifications a =
      ["color_sensor_1st_person"; "depth_sensor"; "semantic_sensor"] ∧
    sensor_type <$> sensor_specifications a = [COLOR; DEPTH; SEMANTIC] ∧
    Forall (λ sp, resolution sp = [height; width] ∧
                  position sp = [PFloat 0; sensor_height; PFloat 0] ∧
                  sensor_subtype sp = PINHOLE) (sensor_specifications a) ∧
    orientation <$> sensor_specifications a =
      [Some [sensor_pitch; PFloat 0; PFloat 0]; None; None] ∧
    scene_dataset_config_file (sim_cfg cfg) =
      default scene_dataset (settings !! "scene_dataset_config") ∧
    settings !! "scene" = Some (scene_id (sim_cfg cfg)) ∧
    settings !! "enable_physics" = Some (enable_physics (sim_cfg cfg)) ∧
    gpu_device_id (sim_cfg cfg) = 0.
Proof.
  unfold make_cfg.
  intros (v1 & w1 & [H1 ->]%dict_get_Ok & H)%bind_Ok.
  apply bind_Ok in H as (v2 & w2 & [H2 ->]%dict_get_Ok & H).
  apply bind_Ok in H as (v3 & w3 & [H3 ->]%dict_get_Ok & H).
  apply bind_Ok in H as (v4 & w4 & [H4 ->]%dict_get_Ok & H).
  apply bind_Ok in H as (v5 & w5 & [H5 ->]%dict_get_Ok & H).
  apply bind_Ok in H as (v6 & w6 & [H6 ->]%dict_get_Ok & H).
  apply bind_Ok in H as (v7 & w7 & [H7 ->]%dict_get_Ok & H).
  apply mret_Ok in H as [-> ->]. split; [reflexivity|].
  eexists v4, v5, v6, v7, v1, _. simpl.
  repeat split; try assumption.
  repeat (apply Forall_cons_2; [repeat split|]). apply Forall_nil_2.
Qed.

(** ** Camera intrinsics without their inputs *)


(** ** Strings: occurrence and the image paths *)

Lemma string_length_app (s t : string) :
  String.length (s +:+ t) = (String.length s + String.length t)%nat.
Proof. induction s as [|a s IH]; simpl; [reflexivity|]. rewrite IH. reflexivity. Qed.

Lemma string_app_inv_tail (s1 s2 t : string) : s1 +:+ t = s2 +:+ t → s1 = s2.
Proof.
  revert s2. induction s1 as [|a s1 IH]; intros [|b s2]; simpl; intros H.
  - reflexivity.
  - apply (f_equal String.length) in H. simpl in H.
    rewrite !string_length_app in H. simpl in H. lia.
  - apply (f_equal String.length) in H. simpl in H.
    rewrite !string_length_app in H. simpl in H. lia.
  - injection H as -> H. f_equal. apply IH. exact H.
Qed.

Lemma string_prefix_spec (a b : string) :
  String.prefix a b = true ↔ ∃ post, b = a +:+ post.
Proof.
  revert b. induction a as [|c a IH]; intros [|d b]; simpl.
  - split; [intros _; exists ""; reflexivity|reflexivity].
  - split; [intros _; exists (String d b); reflexivity|reflexivity].
  - split; [discriminate|intros [post H]; discriminate H].
  - destruct (Ascii.ascii_dec c d) as [->|Hne].
    + rewrite IH. split; intros [post H]; exists post.
      * rewrite H. reflexivity.
      * injection H as H. exact H.
    + split; [discriminate|]. intros [post H]. injection H as H _. congruence.
Qed.

(** The substring test of the code is occurrence. *)
Lemma str_in_spec (a b : string) : str_in a b = true ↔ occurs_in a b.
Proof.
  unfold occurs_in. induction b as [|c b IH].
  - change (str_in a "") with (String.prefix a "" || false).
    rewrite orb_false_r, string_prefix_spec. split.
    + intros [post H]. exists "", post. exact H.
    + intros (pre & post & H). destruct pre; [|discriminate H].
      exists post. exact H.
  - change (str_in a (String c b))
      with (String.prefix a (String c b) || str_in a b).
    rewrite orb_true_iff, IH, string_prefix_spec. split.
    + intros [[post H]|(pre & post & H)].
      * exists "", post. exact H.
      * exists (String c pre), post. rewrite H. reflexivity.
    + intros (pre & post & H). destruct pre as [|d pre].
      * left. exists post. exact H.
      * right. injection H as _ H. exists pre, post. exact H.
Qed.

Lemma image_path_inj (prefix : string) (i j : Z) :
  prefix +:+ pretty i +:+ ".png" = prefix +:+ pretty j +:+ ".png" → i = j.
Proof.
  intros H%String.app_inj%string_app_inv_tail. apply (inj pretty). exact H.
Qed.

Lemma rgb_image_path_inj env i j :
  rgb_image_path env i = rgb_image_path env j → i = j.
Proof.
  unfold rgb_image_path. intros H%String.app_inj. injection H as H.
  revert H. apply image_path_inj.
Qed.

Lemma semantic_image_path_inj env i j :
  semantic_image_path env i = semantic_image_path env j → i = j.
Proof.
  unfold semantic_image_path. intros H%String.app_inj. injection H as H.
  revert H. apply image_path_inj.
Qed.

Lemma depth_image_path_inj env i j :
  depth_image_path env i = depth_image_path env j → i = j.
Proof.
  unfold depth_image_path. intros H%String.app_inj. injection H as H.
  revert H. apply image_path_inj.
Qed.

Lemma rgb_not_semantic env i j : rgb_image_path env i ≠ semantic_image_path env j.
Proof.
  unfold rgb_image_path, semantic_image_path. intros H%String.app_inj.
  discriminate H.
Qed.

Lemma rgb_not_depth env i j : rgb_image_path env i ≠ depth_image_path env j.
Proof.
  unfold rgb_image_path, depth_image_path. intros H%String.app_inj.
  discriminate H.
Qed.

Lemma semantic_not_depth env i j :
  semantic_image_path env i ≠ depth_image_path env j.
Proof.
  unfold semantic_image_path, depth_image_path. intros H%String.app_inj.
  discriminate H.
Qed.

(** ** The buffers *)

(** Two semantic ids get the same palette index exactly when they differ by
    a multiple of 40; a negative id gets a valid index too. *)
Theorem semantic_index_collisions (v v' : Z) :
  (semantic_index v = semantic_index v' ↔ ∃ k, v' = v + 40 * k) ∧
  semantic_index (- 1) = 39.
Proof.
  split; [|reflexivity]. rewrite !semantic_index_mod. split.
  - intros H. exists (v' / 40 - v / 40).
    pose proof (Z.div_mod v 40). pose proof (Z.div_mod v' 40). lia.
  - intros [k ->]. rewrite Z.mul_comm, Z.mod_add by lia. reflexivity.
Qed.

(** ** Rebuilds that fail *)

Section Rebuild.
Context {E : Engine}.

Lemma derive_managers_total env (w : World) h s :
  sim w = Some h → heap w !! h = Some s → ∃ w', derive_managers env w = Ok tt w'.
Proof.
  intros Hs Hh.
  unfold derive_managers, current_sim, gets, sim_call, modify, mbind, M_bind,
    mret, M_ret.
  simpl. rewrite Hs. simpl. rewrite Hh. repeat (simpl; rewrite ?Hs).
  eexists. reflexivity.
Qed.

(** Closing the current simulator, if there is one. *)
Lemma close_current_sane (w : World) :
  sim_sane w →
  ∃ w1, close_current w = Ok tt w1 ∧
    sim w1 = sim w ∧ selected_scene w1 = selected_scene w ∧
    managers w1 = managers w ∧ files w1 = files w ∧
    trace w1 = trace w ++ from_option (λ h0, [EvClose h0]) [] (sim w) ∧
    match sim w with
    | Some h0 => ∃ s, heap w !! h0 = Some s ∧ heap w1 = <[h0 := close s]> (heap w)
    | None => heap w1 = heap w
    end.
Proof.
  intros Hsane.
  unfold close_current, gets, sim_call, modify, mbind, M_bind.
  destruct (sim w) as [h|] eqn:Hs.
  - destruct (Hsane h Hs) as [s Hh]. unfold gets. rewrite Hh.
    eexists. split; [reflexivity|]. simpl. rewrite Hs. repeat split. eauto.
  - eexists. split; [reflexivity|]. rewrite Hs. simpl.
    rewrite app_nil_r. repeat split.
Qed.

(** The two ways a rebuild fails. *)
Lemma make_simulator_from_settings_Raise env settings (w : World) e w' :
  sim_sane w →
  make_simulator_from_settings env settings w = Raise e w' →
  (∃ k, e = KeyError k ∧ first_missing_key settings = Some k ∧ w' = w) ∨
  (e = SimulatorError ∧
   (∃ cfg, make_cfg settings w = Ok cfg w ∧ Simulator cfg = None) ∧
   sim w' = sim w ∧ selected_scene w' = selected_scene w ∧
   managers w' = managers w ∧ files w' = files w ∧
   trace w' = trace w ++ from_option (λ h0, [EvClose h0]) [] (sim w) ∧
   match sim w with
   | Some h0 => ∃ s, heap w !! h0 = Some s ∧ heap w' = <[h0 := close s]> (heap w)
   | None => heap w' = heap w
   end).
Proof.
  intros Hsane. unfold make_simulator_from_settings.
  intros [Hcfg|(cfg & w1 & Hcfg & H)]%bind_Raise.
  { left. pose proof (make_cfg_by_first_missing_key settings w) as Hm.
    destruct (first_missing_key settings) as [k|].
    - rewrite Hm in Hcfg. injection Hcfg as <- <-. eauto.
    - destruct Hm as [cfg Hm]. rewrite Hm in Hcfg. discriminate Hcfg. }
  right. pose proof (make_cfg_Ok _ _ _ _ Hcfg) as [-> _].
  destruct (close_current_sane w Hsane) as (w1 & Hclose & Hsim & Hsel & Hmg & Hf & Htr & Hheap).
  rewrite (bind_Ok_intro _ _ _ _ _ Hclose) in H.
  apply bind_Raise in H as [Hnew|(h & w2 & Hnew & H)].
  - unfold new_simulator in Hnew. destruct (Simulator cfg) as [s0|] eqn:Hctor.
    + unfold gets, modify, mbind, M_bind in Hnew. discriminate Hnew.
    + injection Hnew as <- <-. split; [reflexivity|].
      split; [exists cfg; split; [exact Hcfg|exact Hctor]|].
      repeat split; assumption.
  - exfalso.
    apply new_simulator_Ok in Hnew as (s0 & _ & -> & ->).
    destruct (derive_managers_total env
                (set_sim (Some (length (heap w1)))
                   (add_event (EvCreate (length (heap w1)))
                      (set_heap (heap w1 ++ [s0]) w1)))
                (length (heap w1)) s0) as [w3 Hd].
    { reflexivity. }
    { simpl. rewrite lookup_app_r by lia.
      replace (length (heap w1) - length (heap w1))%nat with 0%nat by lia.
      reflexivity. }
    rewrite (bind_Ok_intro _ _ _ _ _ Hd) in H. discriminate H.
Qed.

End Rebuild.

(** How a rebuild fails, on the default settings with any scene or a part
    of them.  When they lack a key that [make_cfg] reads, the [KeyError] is
    raised before anything is touched: the running simulator stays as it
    is.  When the constructor raises, the simulator that existed has
    already been closed, and the global [sim] still names it: no simulator
    is alive, the stored selection and the managers are those of the closed
    simulator, and no file is written. *)
Theorem rebuild_failure_modes (E : Engine) (env : Env) (scene : string)
    (sim_settings : gmap string pyval) (w : World) :
  sim_sane w →
  sim_settings ⊆ <["scene" := PStr scene]> (make_default_settings env) →
  match first_missing_key sim_settings with
  | Some k => make_simulator_from_settings env sim_settings w = Raise (KeyError k) w
  | None =>
      ∀ cfg, make_cfg sim_settings w = Ok cfg w → Simulator cfg = None →
      ∃ w', make_simulator_from_settings env sim_settings w
              = Raise SimulatorError w' ∧
        sim w' = sim w ∧ selected_scene w' = selected_scene w ∧
        managers w' = managers w ∧ files w' = files w ∧
        trace w' = trace w ++ from_option (λ h0, [EvClose h0]) [] (sim w) ∧
        match sim w with
        | Some h0 => ∃ s, heap w !! h0 = Some s ∧
                          heap w' = <[h0 := close s]> (heap w)
        | None => heap w' = heap w
        end ∧
        (lifecycle_ok w → live (trace w') = [])
  end.
Proof.
  intros Hsane _.
  pose proof (make_cfg_by_first_missing_key sim_settings w) as Hm.
  destruct (first_missing_key sim_settings) as [k|].
  { unfold make_simulator_from_settings. apply bind_Raise_intro. exact Hm. }
  intros cfg Hcfg Hctor.
  assert (Hrun : ∃ w', make_simulator_from_settings env sim_settings w
                       = Raise SimulatorError w').
  { unfold make_simulator_from_settings.
    rewrite (bind_Ok_intro _ _ _ _ _ Hcfg).
    destruct (close_current_sane w Hsane) as (w1 & Hclose & _).
    rewrite (bind_Ok_intro _ _ _ _ _ Hclose).
    exists w1. apply bind_Raise_intro. unfold new_simulator.
    rewrite Hctor. reflexivity. }
  destruct Hrun as [w' Hrun]. exists w'. split; [exact Hrun|].
  destruct (make_simulator_from_settings_Raise env sim_settings w _ w' Hsane Hrun)
    as [(k & [=] & _)|(_ & _ & Hsim & Hsel & Hmg & Hf & Htr & Hheap)].
  do 6 (split; [assumption|]).
  intros Hok. rewrite Htr, live_app.
  destruct Hok as [Hl|(h0 & Hs & Hl)]; rewrite Hl.
  - destruct (sim w); reflexivity.
  - rewrite Hs. apply live_after_close_only.
Qed.

(** ** The selection, with and without widgets *)

Section SelectionMore.
Context {E : Engine}.

Lemma first_without_NONE_split (scene_handles : list string) :
  match first_without_NONE scene_handles with
  | Some x => ∃ pre post, scene_handles = pre ++ x :: post ∧
                Forall (occurs_in "NONE") pre ∧ ¬ occurs_in "NONE" x
  | None => Forall (occurs_in "NONE") scene_handles
  end.
Proof.
  unfold first_without_NONE.
  induction scene_handles as [|y l IH]; simpl; [apply Forall_nil_2|].
  destruct (str_in "NONE" y) eqn:Hy; simpl.
  - apply str_in_spec in Hy. destruct (find _ l) as [x|].
    + destruct IH as (pre & post & -> & Hpre & Hx).
      exists (y :: pre), post. split; [reflexivity|].
      split; [apply Forall_cons_2; assumption|exact Hx].
    + apply Forall_cons_2; assumption.
  - exists [], l. split; [reflexivity|]. split; [apply Forall_nil_2|].
    rewrite <- str_in_spec, Hy. discriminate.
Qed.

(** The part of [build_widget_ui] before the widget test always returns. *)
Lemma default_selection_Ok (scene_handles : list string) (w : World) :
  ∃ w1, (if bool_decide (length scene_handles = 0%nat)
         then modify (set_selected_scene (Some "NONE"))
         else first_valid_scene scene_handles) w = Ok tt w1 ∧
        selection_only w w1 ∧
        selected_scene w1 =
          match scene_handles with
          | [] => Some "NONE"
          | hs => match first_without_NONE hs with
                  | Some h => Some h
                  | None => selected_scene w
                  end
          end.
Proof.
  destruct scene_handles as [|x l].
  - eexists. split; [reflexivity|]. repeat split.
  - rewrite bool_decide_eq_false_2 by discriminate.
    apply first_valid_scene_Ok.
Qed.

Lemma set_selected_scene_same (w : World) sel :
  selected_scene w = Some sel → set_selected_scene (Some sel) w = w.
Proof. destruct w. simpl. intros ->. reflexivity. Qed.

(** [build_widget_ui] in full, for either value of [HAS_WIDGETS]. *)
Lemma build_widget_ui_outcome mm (w : World) :
  match heap w !! mm with
  | None => ∀ env, build_widget_ui env mm w = Raise (AttributeError "dangling") w
  | Some s =>
      ∃ w1, selection_only w w1 ∧
        selected_scene w1 =
          match get_scene_handles s with
          | [] => Some "NONE"
          | hs => match first_without_NONE hs with
                  | Some h => Some h
                  | None => selected_scene w
                  end
          end ∧
        ∀ env, build_widget_ui env mm w =
          if HAS_WIDGETS env then
            match selected_scene w1 with
            | Some sel =>
                if bool_decide (sel ∈ get_scene_handles s) then Ok tt w1
                else Raise TraitError w1
            | None => Raise (NameError "selected_scene") w1
            end
          else Ok tt w1
  end.
Proof.
  unfold build_widget_ui. destruct (heap w !! mm) as [s|] eqn:Hs.
  - assert (Hget : sim_get mm get_scene_handles w = Ok (get_scene_handles s) w).
    { unfold sim_get. erewrite bind_Ok_intro by reflexivity. rewrite Hs. reflexivity. }
    destruct (default_selection_Ok (get_scene_handles s) w) as (w1 & H1 & Hfr & Hsel).
    exists w1. split; [exact Hfr|].
    split; [rewrite Hsel; destruct (get_scene_handles s); reflexivity|]. intros env.
    rewrite (bind_Ok_intro _ _ _ _ _ Hget).
    rewrite (bind_Ok_intro _ _ _ _ _ H1).
    destruct (HAS_WIDGETS env); simpl; [|reflexivity].
    unfold get_selected_scene, gets, set_handle_ddl_widget, modify, mbind, M_bind,
      mret, M_ret.
    destruct (selected_scene w1) as [sel|] eqn:Hsel1; [|reflexivity].
    destruct (bool_decide (sel ∈ get_scene_handles s)); [|reflexivity].
    rewrite (set_selected_scene_same w1 sel Hsel1). reflexivity.
  - intros env. apply bind_Raise_intro. unfold sim_get, gets, mbind, M_bind.
    rewrite Hs. reflexivity.
Qed.

End SelectionMore.

(** Whether widgets are present or not, the selection [build_widget_ui]
    leaves behind when it returns is read off the handle list: "NONE" for
    the empty list; otherwise an element of the list in which "NONE" does
    not occur while it occurs in every handle before it; and the selection
    stored before, when "NONE" occurs in every handle. *)
Theorem selected_scene_characterised (E : Engine) (env : Env) (mm : nat)
    (s : SimState) (w w' : World) :
  heap w !! mm = Some s →
  build_widget_ui env mm w = Ok tt w' →
  (get_scene_handles s = [] ∧ selected_scene w' = Some "NONE") ∨
  (∃ pre x post, get_scene_handles s = pre ++ x :: post ∧
     Forall (occurs_in "NONE") pre ∧ ¬ occurs_in "NONE" x ∧
     selected_scene w' = Some x) ∨
  (get_scene_handles s ≠ [] ∧ Forall (occurs_in "NONE") (get_scene_handles s) ∧
   selected_scene w' = selected_scene w).
Proof.
  intros Hs Hrun. pose proof (build_widget_ui_outcome mm w) as H.
  rewrite Hs in H. destruct H as (w1 & _ & Hsel & Hb).
  assert (w' = w1) as ->.
  { rewrite (Hb env) in Hrun. destruct (HAS_WIDGETS env).
    - destruct (selected_scene w1); [|discriminate Hrun].
      destruct (bool_decide _); [congruence|discriminate Hrun].
    - congruence. }
  destruct (get_scene_handles s) as [|x l] eqn:Hh; [left; split; [reflexivity|exact Hsel]|].
  right. pose proof (first_without_NONE_split (x :: l)) as Hsplit.
  destruct (first_without_NONE (x :: l)) as [y|].
  - left. destruct Hsplit as (pre & post & Heq & Hpre & Hy).
    exists pre, y, post. repeat split; assumption.
  - right. split; [discriminate|]. split; assumption.
Qed.

(** The widget path does not change the selection; it can only refuse it.
    Where the call without widgets leaves the selection [sel], the call
    with widgets ends in the very same state when [sel] is one of the
    handles, and raises a [TraitError] in that state when it is not, as the
    dropdown refuses a value that is not among its options: with an empty
    handle list the selection "NONE" is always refused.  With the global
    still unbound (nothing stored before and "NONE" in every handle) it
    raises a [NameError]. *)
Theorem widgets_keep_or_refuse_selection (E : Engine) (env1 env2 : Env)
    (mm : nat) (s : SimState) (w : World) :
  HAS_WIDGETS env1 = true → HAS_WIDGETS env2 = false →
  heap w !! mm = Some s →
  ∃ w', build_widget_ui env2 mm w = Ok tt w' ∧
    build_widget_ui env1 mm w =
      match selected_scene w' with
      | Some sel =>
          if bool_decide (sel ∈ get_scene_handles s) then Ok tt w'
          else Raise TraitError w'
      | None => Raise (NameError "selected_scene") w'
      end ∧
    (get_scene_handles s = [] → build_widget_ui env1 mm w = Raise TraitError w').
Proof.
  intros H1 H2 Hs. pose proof (build_widget_ui_outcome mm w) as H.
  rewrite Hs in H. destruct H as (w1 & _ & Hsel & H).
  exists w1. rewrite (H env1), (H env2), H1, H2.
  split; [reflexivity|]. split; [reflexivity|].
  intros Hnil. rewrite Hnil in Hsel |- *. rewrite Hsel.
  rewrite bool_decide_eq_false_2 by (apply not_elem_of_nil). reflexivity.
Qed.

(** ** Frames, poses and image files of the trajectory loop *)

Section Frames.
Context {E : Engine}.

Lemma step_count_app h tr1 tr2 :
  step_count h (tr1 ++ tr2) = (step_count h tr1 + step_count h tr2)%nat.
Proof. unfold step_count. rewrite filter_app, length_app. reflexivity. Qed.

Lemma step_count_step h : step_count h [EvStep h] = 1%nat.
Proof.
  unfold step_count. rewrite filter_cons, decide_True by reflexivity. reflexivity.
Qed.

Lemma step_count_frame_events env h idx :
  step_count h (frame_events env h idx) = 1%nat.
Proof.
  unfold step_count, frame_events.
  rewrite filter_cons, decide_True by reflexivity.
  do 3 (rewrite filter_cons, decide_False by discriminate). reflexivity.
Qed.

(** With capture on, the three sequences are read off one list of simulator
    states, one state per physics step. *)
Lemma loop_reaches_states env start_time t w t' w' h :
  make_video env = true →
  loop_reaches env start_time t w t' w' →
  sim w = Some h →
  ∃ states : list SimState,
    observations t' = observations t ++ (get_sensor_observations <$> states) ∧
    translations t' = translations t ++ (node_translation <$> states) ∧
    rotations t' = rotations t ++ (node_rotation <$> states) ∧
    step_count h (trace w') = (step_count h (trace w) + length states)%nat ∧
    heap w' !! h = match last states with
                   | Some s => Some s
                   | None => heap w !! h
                   end.
Proof.
  intros Hv Hr. induction Hr as [t w|t w t1 w1 t2 w2 _ Hb _ IH]; intros Hs.
  - exists []. simpl. rewrite !app_nil_r. repeat split. lia.
  - apply loop_body_Ok in Hb as (h0 & s & Hs0 & Hh & Hb). simpl in Hb.
    rewrite Hs in Hs0. injection Hs0 as <-.
    destruct Hb as (Hs1 & Hheap & _ & Hb). rewrite Hv in Hb.
    destruct Hb as (Ho & Ht & Hro & Hb).
    destruct (IH Hs1) as (states & Ho2 & Ht2 & Hr2 & Hc2 & Hh2).
    set (s' := step_physics (1 / 30) (pose_update (count t) s)) in *.
    exists (s' :: states).
    rewrite Ho2, Ht2, Hr2, Ho, Ht, Hro, Hc2, <- !app_assoc. simpl.
    repeat split.
    + assert (Hc1 : step_count h (trace w1) = (step_count h (trace w) + 1)%nat).
      { destruct (display env).
        - destruct Hb as [_ ->]. rewrite step_count_app. f_equal.
          apply (step_count_frame_events env h (count t)).
        - destruct Hb as (_ & -> & _). rewrite step_count_app, step_count_step.
          reflexivity. }
      rewrite Hc1. lia.
    + rewrite Hh2, Hheap.
      rewrite list_lookup_insert_eq by (eapply lookup_lt_Some; exact Hh).
      rewrite last_cons. destruct (last states); reflexivity.
Qed.

(** One iteration with capture and display, with the files it leaves. *)
Lemma loop_body_display env t w t' w' :
  make_video env = true → display env = true →
  loop_body env t w = Ok t' w' →
  ∃ o, observations t' = observations t ++ [o] ∧ count t' = count t + 1 ∧
    files w' =
      <[depth_image_path env (count t) :=
          Png (FromArrayL (depth_pixels (depth_sensor o)))]>
      (<[semantic_image_path env (count t) :=
           Png (semantic_image (semantic_sensor o))]>
       (<[rgb_image_path env (count t) :=
            Png (FromArrayRGBA (color_sensor_1st_person o))]> (files w))).
Proof.
  intros Hv Hd Hb.
  destruct (loop_body_Ok _ _ _ _ _ Hb) as (h & s & Hs & Hh & Hfacts).
  simpl in Hfacts. destruct Hfacts as (_ & _ & _ & Hfacts).
  rewrite Hv, Hd in Hfacts. destruct Hfacts as (Ho & _ & _ & Hc & _).
  eexists. split; [exact Ho|]. split; [exact Hc|].
  revert Hb. unfold loop_body.
  rewrite (bind_Ok_intro _ _ _ _ _ (sim_do_Some _ w h s Hs Hh)).
  set (w1 := set_heap _ w).
  assert (Hs1 : sim w1 = Some h) by exact Hs.
  assert (Hh1 : heap w1 !! h = Some (pose_update (count t) s)).
  { simpl. apply list_lookup_insert_eq. eapply lookup_lt_Some. exact Hh. }
  assert (Hcur : current_sim w1 = Ok h w1).
  { unfold current_sim, gets, mbind, M_bind. rewrite Hs1. reflexivity. }
  rewrite (bind_Ok_intro _ _ _ _ _ Hcur).
  assert (Hcall : sim_call h (step_physics (1 / 30)) w1 =
            Ok tt (set_heap (<[h := step_physics (1 / 30)
                                      (pose_update (count t) s)]> (heap w1)) w1)).
  { unfold sim_call, gets, mbind, M_bind. rewrite Hh1. reflexivity. }
  rewrite (bind_Ok_intro _ _ _ _ _ Hcall).
  erewrite bind_Ok_intro by reflexivity.
  set (w3 := add_event _ _).
  assert (Hs3 : sim w3 = Some h) by exact Hs.
  assert (Hh3 : heap w3 !! h =
                  Some (step_physics (1 / 30) (pose_update (count t) s))).
  { simpl. apply list_lookup_insert_eq. rewrite length_insert.
    eapply lookup_lt_Some. exact Hh. }
  rewrite Hv.
  rewrite (bind_Ok_intro _ _ _ _ _ (sim_read_Some _ w3 h _ Hs3 Hh3)).
  rewrite (bind_Ok_intro _ _ _ _ _ (sim_read_Some _ w3 h _ Hs3 Hh3)).
  rewrite (bind_Ok_intro _ _ _ _ _ (sim_read_Some _ w3 h _ Hs3 Hh3)).
  rewrite Hd.
  intros (u & w4 & (_ & _ & _ & _ & Hf)%save_sample_Ok & [_ ->]%mret_Ok)%bind_Ok.
  exact Hf.
Qed.

(** With capture and display, the iterations are numbered by [count]: [n]
    iterations write the frames [count t], ..., [count t + n - 1]. *)
Lemma loop_reaches_numbered env start_time t w t' w' h :
  make_video env = true → display env = true →
  loop_reaches env start_time t w t' w' →
  sim w = Some h →
  ∃ n : nat,
    count t' = count t + Z.of_nat n ∧
    length (observations t') = (length (observations t) + n)%nat ∧
    trace w' = trace w ++ concat (frame_events env h <$> seqZ (count t) (Z.of_nat n)).
Proof.
  intros Hv Hd Hr. induction Hr as [t w|t w t1 w1 t2 w2 _ Hb _ IH]; intros Hs.
  - exists 0%nat. simpl. rewrite app_nil_r. repeat split; lia.
  - apply loop_body_Ok in Hb as (h0 & s & Hs0 & Hh & Hb). simpl in Hb.
    rewrite Hs in Hs0. injection Hs0 as <-.
    destruct Hb as (Hs1 & _ & _ & Hb). rewrite Hv, Hd in Hb.
    destruct Hb as (Ho & _ & _ & Hc & Htr).
    destruct (IH Hs1) as (n & Hc2 & Hl2 & Htr2).
    exists (S n). split; [lia|].
    split; [rewrite Hl2, Ho, length_app; simpl; lia|].
    rewrite Htr2, Htr, Hc, <- app_assoc. f_equal.
    rewrite (seqZ_cons (count t) (Z.of_nat (S n))) by lia.
    replace (Z.succ (count t)) with (count t + 1) by lia.
    replace (Z.pred (Z.of_nat (S n))) with (Z.of_nat n) by lia.
    reflexivity.
Qed.


Lemma loop_reaches_on_disk env start_time t w t' w' first :
  make_video env = true → display env = true →
  loop_reaches env start_time t w t' w' →
  count t = first + Z.of_nat (length (observations t)) →
  frames_on_disk env first t w →
  count t' = first + Z.of_nat (length (observations t')) ∧
  frames_on_disk env first t' w'.
Proof.
  intros Hv Hd Hr. induction Hr as [t w|t w t1 w1 t2 w2 _ Hb _ IH];
    intros Hc HJ; [split; assumption|].
  apply (loop_body_display _ _ _ _ _ Hv Hd) in Hb as (o & Ho & Hc1 & Hf).
  apply IH.
  - rewrite Hc1, Ho, length_app. simpl. lia.
  - intros k o' Hk. rewrite Ho in Hk. rewrite Hf, Hc.
    destruct (decide (k < length (observations t))%nat) as [Hlt|Hge].
    + rewrite lookup_app_l in Hk by exact Hlt.
      destruct (HJ k o' Hk) as (H1 & H2 & H3).
      assert (Hne : first + Z.of_nat k ≠ first + Z.of_nat (length (observations t)))
        by lia.
      repeat split.
      * rewrite lookup_insert_ne by (intros Heq; exact (rgb_not_depth _ _ _ (eq_sym Heq))).
        rewrite lookup_insert_ne
          by (intros Heq; exact (rgb_not_semantic _ _ _ (eq_sym Heq))).
        rewrite lookup_insert_ne
          by (intros Heq%rgb_image_path_inj; lia).
        exact H1.
      * rewrite lookup_insert_ne
          by (intros Heq; exact (semantic_not_depth _ _ _ (eq_sym Heq))).
        rewrite lookup_insert_ne
          by (intros Heq%semantic_image_path_inj; lia).
        rewrite lookup_insert_ne by (apply rgb_not_semantic).
        exact H2.
      * rewrite lookup_insert_ne
          by (intros Heq%depth_image_path_inj; lia).
        rewrite lookup_insert_ne by (apply semantic_not_depth).
        rewrite lookup_insert_ne by (apply rgb_not_depth).
        exact H3.
    + pose proof (lookup_lt_Some _ _ _ Hk) as Hlen.
      rewrite length_app in Hlen. simpl in Hlen.
      assert (k = length (observations t)) as -> by lia.
      rewrite list_lookup_middle in Hk by reflexivity. injection Hk as <-.
      repeat split.
      * rewrite lookup_insert_ne by (intros Heq; exact (rgb_not_depth _ _ _ (eq_sym Heq))).
        rewrite lookup_insert_ne
          by (intros Heq; exact (rgb_not_semantic _ _ _ (eq_sym Heq))).
        apply lookup_insert_eq.
      * rewrite lookup_insert_ne
          by (intros Heq; exact (semantic_not_depth _ _ _ (eq_sym Heq))).
        apply lookup_insert_eq.
      * apply lookup_insert_eq.
Qed.

Lemma written_paths_frames env h (l : list Z) :
  written_paths (concat (frame_events env h <$> l)) =
    l ≫= (λ i, [rgb_image_path env i; semantic_image_path env i;
                depth_image_path env i]).
Proof.
  unfold written_paths. induction l as [|i l IH]; [reflexivity|].
  simpl. f_equal. f_equal. f_equal. exact IH.
Qed.

Lemma frame_paths_NoDup env (l : list Z) :
  NoDup l →
  NoDup (l ≫= (λ i, [rgb_image_path env i; semantic_image_path env i;
                     depth_image_path env i])).
Proof.
  intros Hl. apply NoDup_bind; [| |exact Hl].
  - intros i j y _ _ Hi Hj.
    rewrite !elem_of_cons, elem_of_nil in Hi, Hj.
    destruct Hi as [->|[->|[->|[]]]]; destruct Hj as [Hj|[Hj|[Hj|[]]]];
      first [ apply rgb_image_path_inj in Hj; congruence
            | apply semantic_image_path_inj in Hj; congruence
            | apply depth_image_path_inj in Hj; congruence
            | exfalso; revert Hj; first
                [ apply rgb_not_semantic | apply rgb_not_depth
                | apply semantic_not_depth
                | intros Hj; symmetry in Hj; revert Hj; first
                    [ apply rgb_not_semantic | apply rgb_not_depth
                    | apply semantic_not_depth ] ] ].
  - intros i _. repeat apply NoDup_cons_2; rewrite ?elem_of_cons, ?elem_of_nil.
    + intros [H|[H|[]]]; revert H; [apply rgb_not_semantic|apply rgb_not_depth].
    + intros [H|[]]; revert H; apply semantic_not_depth.
    + intros [].
    + apply NoDup_nil_2.
Qed.

End Frames.

(** With capture on, the snapshot's three sequences describe the same
    states: there is one simulator state per physics step of the loop, and
    the k-th observation, translation and rotation are the sensor buffers,
    the agent's translation and its rotation in the k-th of these states;
    the last of them is the state the simulator is left in. *)
Theorem frames_and_poses_agree (E : Engine) (env : Env) (fuel : nat)
    (start_time : R) (w w' : World) (t' : Traj) (h : nat) :
  make_video env = true →
  sim w = Some h →
  trajectory_loop env fuel start_time traj_init w = Ok t' w' →
  ∃ states : list SimState,
    observations t' = get_sensor_observations <$> states ∧
    translations t' = node_translation <$> states ∧
    rotations t' = node_rotation <$> states ∧
    step_count h (trace w') = (step_count h (trace w) + length states)%nat ∧
    heap w' !! h = match last states with
                   | Some s => Some s
                   | None => heap w !! h
                   end.
Proof.
  intros Hv Hs [Hr _]%trajectory_loop_reaches.
  exact (loop_reaches_states env start_time _ _ _ _ h Hv Hr Hs).
Qed.

(** With capture and display on, a loop that ends after [n] iterations has
    written the frames numbered 1 to [n], in this order and each as its rgb,
    semantic and depth image right after its physics step; the counter ends
    at [n + 1]; no path is written twice, and the snapshot file is not among
    the paths written. *)
Theorem frames_numbered_from_one (E : Engine) (env : Env) (fuel : nat)
    (start_time : R) (w w' : World) (t' : Traj) (h : nat) :
  make_video env = true → display env = true →
  sim w = Some h →
  trajectory_loop env fuel start_time traj_init w = Ok t' w' →
  ∃ n : nat,
    count t' = 1 + Z.of_nat n ∧ length (observations t') = n ∧
    ∃ evs, trace w' = trace w ++ evs ∧
      evs = concat (frame_events env h <$> seqZ 1 (Z.of_nat n)) ∧
      NoDup (written_paths evs) ∧
      output_filename env ∉ written_paths evs.
Proof.
  intros Hv Hd Hs [Hr _]%trajectory_loop_reaches.
  destruct (loop_reaches_numbered env start_time _ _ _ _ h Hv Hd Hr Hs)
    as (n & Hc & Hl & Htr).
  exists n. split; [exact Hc|]. split; [exact Hl|].
  eexists. split; [exact Htr|]. split; [reflexivity|].
  rewrite written_paths_frames. split.
  - apply frame_paths_NoDup, NoDup_seqZ.
  - rewrite list_elem_of_bind. intros (i & Hi & _).
    rewrite !elem_of_cons, elem_of_nil in Hi.
    destruct Hi as [Hi|[Hi|[Hi|[]]]]; symmetry in Hi; revert Hi.
    + apply rgb_image_path_not_pickle.
    + apply semantic_image_path_not_pickle.
    + apply depth_image_path_not_pickle.
Qed.

(** With capture and display on, the image files agree with the snapshot:
    when the loop has ended, the files numbered k + 1 hold the rgb buffer,
    the palette image of the semantic buffer and the rescaled depth buffer
    of the k-th observation of the list that is pickled (k counted from 0);
    no later frame has overwritten them. *)
Theorem image_files_match_observations (E : Engine) (env : Env) (fuel : nat)
    (start_time : R) (w w' : World) (t' : Traj) :
  make_video env = true → display env = true →
  trajectory_loop env fuel start_time traj_init w = Ok t' w' →
  ∀ (k : nat) o, observations t' !! k = Some o →
    files w' !! rgb_image_path env (1 + Z.of_nat k) =
      Some (Png (FromArrayRGBA (color_sensor_1st_person o))) ∧
    files w' !! semantic_image_path env (1 + Z.of_nat k) =
      Some (Png (semantic_image (semantic_sensor o))) ∧
    files w' !! depth_image_path env (1 + Z.of_nat k) =
      Some (Png (FromArrayL (depth_pixels (depth_sensor o)))).
Proof.
  intros Hv Hd [Hr _]%trajectory_loop_reaches.
  apply (loop_reaches_on_disk env start_time _ _ _ _ 1 Hv Hd Hr).
  - reflexivity.
  - intros k o Hk. discriminate Hk.
Qed.

(** ** What survives every outcome *)

Section Keeps.
Context {E : Engine}.

Lemma keeps_bind (I : World → Prop) {A B : Type} (m : M A) (f : A → M B) :
  keeps I m → (∀ a, keeps I (f a)) → keeps I (m ≫= f).
Proof.
  intros Hm Hf w HI. unfold mbind, M_bind. specialize (Hm w HI).
  destruct (m w) as [a w1|e w1|]; [apply Hf; exact Hm|exact Hm|exact Logic.I].
Qed.

Lemma keeps_on_raise_bind (I : World → Prop) {A B : Type} (m : M A) (f : A → M B) :
  keeps I m → (∀ a, keeps_on_raise I (f a)) → keeps_on_raise I (m ≫= f).
Proof.
  intros Hm Hf w HI. unfold mbind, M_bind. specialize (Hm w HI).
  destruct (m w) as [a w1|e w1|]; [apply Hf; exact Hm|exact Hm|exact Logic.I].
Qed.

Lemma keeps_mret (I : World → Prop) {A : Type} (a : A) : keeps I (mret a : M A).
Proof. intros w HI. exact HI. Qed.

Lemma keeps_raise (I : World → Prop) {A : Type} (e : exn) : keeps I (raise e : M A).
Proof. intros w HI. exact HI. Qed.

Lemma keeps_out_of_fuel (I : World → Prop) {A : Type} : keeps I (out_of_fuel : M A).
Proof. intros w HI. exact Logic.I. Qed.

Lemma keeps_gets (I : World → Prop) {A : Type} (f : World → A) : keeps I (gets f).
Proof. intros w HI. exact HI. Qed.

Lemma keeps_modify (I : World → Prop) (f : World → World) :
  (∀ w, I w → I (f w)) → keeps I (modify f).
Proof. intros Hf w HI. apply Hf. exact HI. Qed.

Variable env : Env.
Variable files0 : gmap string file.

Lemma untouched_add_event ev (w : World) :
  ev ≠ EvWrite (output_filename env) →
  snapshot_untouched env files0 w → snapshot_untouched env files0 (add_event ev w).
Proof.
  intros Hev [Hc Hf]. split; [|exact Hf]. simpl.
  rewrite write_count_app, Hc. apply write_count_none.
  apply Forall_cons_2; [exact Hev|apply Forall_nil_2].
Qed.

Lemma untouched_write path content (w : World) :
  path ≠ output_filename env →
  snapshot_untouched env files0 w →
  snapshot_untouched env files0
    (add_event (EvWrite path) (set_files (<[path := content]> (files w)) w)).
Proof.
  intros Hp [Hc Hf]. split; simpl.
  - rewrite write_count_app, Hc. apply write_count_none.
    apply Forall_cons_2; [congruence|apply Forall_nil_2].
  - rewrite lookup_insert_ne by exact Hp. exact Hf.
Qed.

Lemma keeps_write_file path content :
  path ≠ output_filename env →
  keeps (snapshot_untouched env files0) (write_file env path content).
Proof.
  intros Hp. unfold write_file. destruct (writable env path); [|apply keeps_raise].
  apply keeps_modify. intros w. apply untouched_write. exact Hp.
Qed.

Lemma keeps_on_raise_write_file path content :
  keeps_on_raise (snapshot_untouched env files0) (write_file env path content).
Proof.
  intros w HI. unfold write_file. destruct (writable env path); [exact Logic.I|].
  exact HI.
Qed.

Ltac keeps_step :=
  lazymatch goal with
  | |- keeps _ (mret _) => apply keeps_mret
  | |- keeps _ (raise _) => apply keeps_raise
  | |- keeps _ (gets _) => apply keeps_gets
  | |- keeps _ out_of_fuel => apply keeps_out_of_fuel
  | |- keeps _ (modify (add_event _)) =>
      apply keeps_modify; intros ? ?;
      apply untouched_add_event; [discriminate|assumption]
  | |- keeps _ (modify _) => apply keeps_modify; intros ? HI; exact HI
  | |- keeps _ (_ ≫= _) => apply keeps_bind; [|intros ?]
  | |- keeps _ (match ?x with _ => _ end) => destruct x
  end.

Lemma keeps_dict_get {V : Type} (d : gmap string V) k :
  keeps (snapshot_untouched env files0) (dict_get d k).
Proof. unfold dict_get. repeat keeps_step. Qed.

Lemma keeps_current_sim : keeps (snapshot_untouched env files0) current_sim.
Proof. unfold current_sim. repeat keeps_step. Qed.

Lemma keeps_sim_get {A : Type} h (f : SimState → A) :
  keeps (snapshot_untouched env files0) (sim_get h f).
Proof. unfold sim_get. repeat keeps_step. Qed.

Lemma keeps_sim_call h f : keeps (snapshot_untouched env files0) (sim_call h f).
Proof. unfold sim_call. repeat keeps_step. Qed.

Lemma keeps_sim_read {A : Type} (f : SimState → A) :
  keeps (snapshot_untouched env files0) (sim_read f).
Proof.
  unfold sim_read. apply keeps_bind; [apply keeps_current_sim|].
  intros ?. apply keeps_sim_get.
Qed.

Lemma keeps_sim_do f : keeps (snapshot_untouched env files0) (sim_do f).
Proof.
  unfold sim_do. apply keeps_bind; [apply keeps_current_sim|].
  intros ?. apply keeps_sim_call.
Qed.

Lemma keeps_get_selected_scene : keeps (snapshot_untouched env files0) get_selected_scene.
Proof. unfold get_selected_scene. repeat keeps_step. Qed.

Ltac keeps_op :=
  lazymatch goal with
  | |- keeps _ (dict_get _ _) => apply keeps_dict_get
  | |- keeps _ current_sim => apply keeps_current_sim
  | |- keeps _ (sim_get _ _) => apply keeps_sim_get
  | |- keeps _ (sim_call _ _) => apply keeps_sim_call
  | |- keeps _ (sim_read _) => apply keeps_sim_read
  | |- keeps _ (sim_do _) => apply keeps_sim_do
  | |- keeps _ get_selected_scene => apply keeps_get_selected_scene
  | _ => keeps_step
  end.

Lemma keeps_make_cfg settings : keeps (snapshot_untouched env files0) (make_cfg settings).
Proof. unfold make_cfg. repeat keeps_op. Qed.

Lemma keeps_make_simulator_from_settings settings :
  keeps (snapshot_untouched env files0) (make_simulator_from_settings env settings).
Proof.
  unfold make_simulator_from_settings.
  apply keeps_bind; [apply keeps_make_cfg|intros cfg].
  unfold close_current, new_simulator, derive_managers.
  repeat keeps_op.
Qed.

Lemma keeps_first_valid_scene scene_handles :
  keeps (snapshot_untouched env files0) (first_valid_scene scene_handles).
Proof.
  induction scene_handles as [|x l IH]; simpl; [apply keeps_mret|].
  destruct (negb _); [keeps_step|exact IH].
Qed.

Lemma keeps_build_widget_ui mm :
  keeps (snapshot_untouched env files0) (build_widget_ui env mm).
Proof.
  unfold build_widget_ui, set_handle_ddl_widget.
  apply keeps_bind; [apply keeps_sim_get|intros hs].
  apply keeps_bind.
  { destruct (bool_decide _); [keeps_step|apply keeps_first_valid_scene]. }
  intros _. repeat keeps_op.
Qed.

Lemma keeps_startup : keeps (snapshot_untouched env files0) (startup env).
Proof.
  unfold startup.
  apply keeps_bind; [apply keeps_make_simulator_from_settings|intros _].
  apply keeps_bind; [apply keeps_current_sim|intros mm].
  apply keeps_build_widget_ui.
Qed.

Lemma keeps_deliver_ui_events evs :
  keeps (snapshot_untouched env files0) (deliver_ui_events evs).
Proof.
  induction evs as [|ev evs IH]; simpl; [apply keeps_mret|].
  apply keeps_bind; [|intros _; exact IH].
  unfold on_scene_ddl_change. repeat keeps_op.
Qed.

Lemma keeps_user_interaction :
  keeps (snapshot_untouched env files0) (user_interaction env).
Proof.
  unfold user_interaction. destruct (HAS_WIDGETS env);
    [apply keeps_deliver_ui_events|apply keeps_mret].
Qed.

Lemma keeps_load_selected_scene settings :
  keeps (snapshot_untouched env files0) (load_selected_scene env settings).
Proof.
  unfold load_selected_scene.
  apply keeps_bind; [apply keeps_dict_get|intros scene].
  apply keeps_bind; [apply keeps_get_selected_scene|intros sel].
  destruct (bool_decide _); [|apply keeps_mret].
  apply keeps_bind; [apply keeps_make_simulator_from_settings|intros _].
  apply keeps_mret.
Qed.

Lemma keeps_save_sample rgb semantic depth idx :
  keeps (snapshot_untouched env files0) (save_sample env rgb semantic depth idx).
Proof.
  unfold save_sample.
  apply keeps_bind;
    [apply keeps_write_file, rgb_image_path_not_pickle|intros _].
  apply keeps_bind;
    [apply keeps_write_file, semantic_image_path_not_pickle|intros _].
  apply keeps_write_file, depth_image_path_not_pickle.
Qed.

Lemma keeps_loop_body t : keeps (snapshot_untouched env files0) (loop_body env t).
Proof.
  unfold loop_body.
  apply keeps_bind; [apply keeps_sim_do|intros _].
  apply keeps_bind; [apply keeps_current_sim|intros h].
  apply keeps_bind; [apply keeps_sim_call|intros _].
  apply keeps_bind; [keeps_step|intros _].
  destruct (make_video env); [|apply keeps_mret].
  apply keeps_bind; [apply keeps_sim_read|intros o].
  apply keeps_bind; [apply keeps_sim_read|intros tr].
  apply keeps_bind; [apply keeps_sim_read|intros ro].
  destruct (display env); [|apply keeps_mret].
  apply keeps_bind; [apply keeps_save_sample|intros _]. apply keeps_mret.
Qed.

Lemma keeps_trajectory_loop fuel start_time t :
  keeps (snapshot_untouched env files0) (trajectory_loop env fuel start_time t).
Proof.
  revert t. induction fuel as [|fuel IH]; intros t;
    rewrite trajectory_loop_unfold;
    (apply keeps_bind;
     [unfold loop_guard; apply keeps_bind;
      [apply keeps_sim_read|intros ?; apply keeps_mret]|]);
    intros [|]; try apply keeps_mret.
  - apply keeps_out_of_fuel.
  - apply keeps_bind; [apply keeps_loop_body|intros t1; apply IH].
Qed.

Lemma keeps_make_camera_info settings :
  keeps (snapshot_untouched env files0) (make_camera_info settings).
Proof.
  unfold make_camera_info.
  apply keeps_bind; [apply keeps_dict_get|intros wd].
  apply keeps_bind; [apply keeps_dict_get|intros ht].
  apply keeps_bind; [apply keeps_sim_read|intros fov].
  apply keeps_bind; [unfold as_float; destruct (to_float wd);
                     [apply keeps_mret|apply keeps_raise]|intros x].
  apply keeps_bind; [unfold as_float; destruct (to_float ht);
                     [apply keeps_mret|apply keeps_raise]|intros y].
  apply keeps_mret.
Qed.

Lemma keeps_on_raise_main fuel :
  keeps_on_raise (snapshot_untouched env files0) (main env fuel).
Proof.
  unfold main, save_pickle.
  apply keeps_on_raise_bind; [apply keeps_startup|intros _].
  apply keeps_on_raise_bind; [apply keeps_user_interaction|intros _].
  apply keeps_on_raise_bind; [apply keeps_load_selected_scene|intros st].
  apply keeps_on_raise_bind; [apply keeps_sim_read|intros start].
  apply keeps_on_raise_bind; [apply keeps_sim_do|intros _].
  apply keeps_on_raise_bind; [apply keeps_trajectory_loop|intros t].
  apply keeps_on_raise_bind; [apply keeps_make_camera_info|intros ci].
  apply keeps_on_raise_write_file.
Qed.

End Keeps.

(** A run that is aborted by an exception, wherever it is raised up to and
    including the opening of the snapshot file, has not touched that file:
    no write to it is recorded and the file is as the run found it.  Nothing
    before the last statement writes to it, on the failing paths either.
    (The image files of the frames saved before the exception stay on disk.
    The write is one step here: a failure of [pickle.dump], after the file
    was opened, is not part of the model.) *)
Theorem aborted_run_leaves_snapshot (E : Engine) (env : Env) (fuel : nat)
    (files0 : gmap string file) (e : exn) (w' : World) :
  main env fuel (initial_world files0) = Raise e w' →
  write_count (output_filename env) (trace w') = 0%nat ∧
  files w' !! output_filename env = files0 !! output_filename env.
Proof.
  intros H.
  pose proof (keeps_on_raise_main env files0 fuel (initial_world files0)) as Hk.
  rewrite H in Hk. apply Hk. split; reflexivity.
Qed.

(** ** Saving a frame when a path cannot be written *)

(** [save_sample] writes its three images one after the other and stops at
    the first path that cannot be written: the [OSError] names that path,
    the images before it are on disk (nothing is rolled back), and the ones
    after it are not attempted. *)
Theorem save_sample_stops_at_first_failure (E : Engine) (env : Env)
    (rgb : ndarray rgba) (semantic : ndarray Z) (depth : ndarray float32) (idx : Z)
    (w : World) :
  (writable env (rgb_image_path env idx) = false →
   save_sample env rgb semantic depth idx w
   = Raise (OSError (rgb_image_path env idx)) w) ∧
  (writable env (rgb_image_path env idx) = true →
   writable env (semantic_image_path env idx) = false →
   ∃ w', save_sample env rgb semantic depth idx w
         = Raise (OSError (semantic_image_path env idx)) w' ∧
     files w' = <[rgb_image_path env idx := Png (FromArrayRGBA rgb)]> (files w) ∧
     trace w' = trace w ++ [EvWrite (rgb_image_path env idx)]) ∧
  (writable env (rgb_image_path env idx) = true →
   writable env (semantic_image_path env idx) = true →
   writable env (depth_image_path env idx) = false →
   ∃ w', save_sample env rgb semantic depth idx w
         = Raise (OSError (depth_image_path env idx)) w' ∧
     files w' = <[semantic_image_path env idx := Png (semantic_image semantic)]>
                (<[rgb_image_path env idx := Png (FromArrayRGBA rgb)]> (files w)) ∧
     trace w' = trace w ++ [EvWrite (rgb_image_path env idx);
                            EvWrite (semantic_image_path env idx)]).
Proof.
  unfold save_sample, write_file, modify, mbind, M_bind.
  split; [|split].
  - intros ->. reflexivity.
  - intros -> H2. simpl. rewrite H2. eexists. split; [reflexivity|].
    split; reflexivity.
  - intros -> H2 H3. simpl. rewrite H2. simpl. rewrite H3.
    eexists. split; [reflexivity|]. simpl. rewrite <- app_assoc.
    split; reflexivity.
Qed.

(** ** Whole runs, step by step *)

Section Runs.
Context {E : Engine}.

(** A completed run, cell by cell. *)
Lemma main_inv env fuel (w0 w' : World) :
  main env fuel w0 = Ok tt w' →
  ∃ wa wb st wc h s t wd,
    startup env w0 = Ok tt wa ∧
    user_interaction env wa = Ok tt wb ∧
    load_selected_scene env (make_default_settings env) wb = Ok st wc ∧
    sim wc = Some h ∧ heap wc !! h = Some s ∧
    trajectory_loop env fuel (get_world_time s) traj_init
      (set_heap (<[h := node_set_translation (Vec3 (-2) 0 0) s]> (heap wc)) wc)
      = Ok t wd ∧
    save_pickle env st t wd = Ok tt w'.
Proof.
  unfold main.
  intros ([] & wa & Ha & H)%bind_Ok.
  apply bind_Ok in H as ([] & wb & Hb & H).
  apply bind_Ok in H as (st & wc & Hc & H).
  apply bind_Ok in H as (start & wc' & (h & s & Hs & Hh & -> & ->)%sim_read_Ok & H).
  apply bind_Ok in H as ([] & w4 & (h' & s' & Hs' & Hh' & ->)%sim_do_Ok & H).
  rewrite Hs in Hs'. injection Hs' as <-. rewrite Hh in Hh'. injection Hh' as <-.
  apply bind_Ok in H as (t & wd & Hloop & H).
  exists wa, wb, st, wc, h, s, t, wd. repeat split; assumption.
Qed.

Lemma lifecycle_part_app tr1 tr2 :
  lifecycle_part (tr1 ++ tr2) = lifecycle_part tr1 ++ lifecycle_part tr2.
Proof. apply List.filter_app. Qed.

Lemma lifecycle_part_quiet evs : Forall quiet_event evs → lifecycle_part evs = [].
Proof.
  induction 1 as [|ev evs Hev _ IH]; [reflexivity|].
  destruct ev; simpl in *; try contradiction; exact IH.
Qed.

Lemma written_paths_app tr1 tr2 :
  written_paths (tr1 ++ tr2) = written_paths tr1 ++ written_paths tr2.
Proof. apply omap_app. Qed.

Lemma written_paths_lifecycle evs :
  Forall lifecycle_event evs → written_paths evs = [].
Proof.
  induction 1 as [|ev evs Hev _ IH]; [reflexivity|].
  destruct Hev as [h [-> | ->]]; exact IH.
Qed.

Lemma first_without_NONE_not_NONE scene_handles x :
  first_without_NONE scene_handles = Some x → x ≠ "NONE".
Proof.
  unfold first_without_NONE. intros [_ Hx]%find_some ->.
  vm_compute in Hx. discriminate Hx.
Qed.

(** The first cell without widgets: one build, then the default selection. *)
Lemma startup_no_widgets env files0 (wa : World) :
  HAS_WIDGETS env = false →
  startup env (initial_world files0) = Ok tt wa →
  ∃ cfg s0, Simulator cfg = Some s0 ∧ scene_id (sim_cfg cfg) = PStr "NONE" ∧
    let s1 := load_configs (path_join (data_path env) "objects/example_objects") s0 in
    sim wa = Some 0%nat ∧ heap wa = [s1] ∧ trace wa = [EvCreate 0] ∧
    files wa = files0 ∧
    selected_scene wa =
      Some (default "NONE" (first_without_NONE (get_scene_handles s1))).
Proof.
  intros Hw. unfold startup.
  intros ([] & w0 & Hre & H)%bind_Ok.
  apply bind_Ok in H as (mm & w0' & [Hmm ->]%current_sim_Ok & H).
  apply make_simulator_from_settings_Ok in Hre
    as (cfg & s0 & Hscene & Hctor & Hsim & Hlen & Hheap & Htr & Hf & _ & Hsel).
  simpl in Hsim, Hlen, Hheap, Htr, Hf.
  rewrite Hsim in Hmm. injection Hmm as <-.
  destruct (build_widget_ui_no_widgets env 0 _ w0 Hw Hheap)
    as (w1 & Hb & (Hh1 & Hs1 & Ht1 & Hf1) & Hsel1).
  rewrite Hb in H. injection H as <-.
  exists cfg, s0. split; [exact Hctor|]. split.
  { rewrite default_settings_scene in Hscene. congruence. }
  simpl. split; [congruence|]. split.
  { rewrite Hh1. destruct (heap w0) as [|a [|b l]]; simpl in *; try discriminate.
    congruence. }
  split; [congruence|]. split; [congruence|].
  rewrite Hsel1, Hsel.
  destruct (get_scene_handles _) as [|x l]; [reflexivity|].
  destruct (first_without_NONE (x :: l)); reflexivity.
Qed.

End Runs.

(** Without widgets a completed run builds the simulator once or twice.
    The first build is for the empty scene "NONE".  When some handle the
    first simulator reports does not contain "NONE", that simulator is
    closed and a second one is built for the first such handle, and the
    trajectory runs on the second; otherwise the trajectory runs on the
    first and no second build is made. *)
Theorem run_builds_once_or_twice (E : Engine) (env : Env) (fuel : nat)
    (files0 : gmap string file) (w' : World) :
  HAS_WIDGETS env = false →
  main env fuel (initial_world files0) = Ok tt w' →
  ∃ cfg s0, Simulator cfg = Some s0 ∧ scene_id (sim_cfg cfg) = PStr "NONE" ∧
    match first_without_NONE
            (get_scene_handles
               (load_configs (path_join (data_path env) "objects/example_objects") s0))
    with
    | Some x =>
        lifecycle_part (trace w') = [EvCreate 0; EvClose 0; EvCreate 1] ∧
        sim w' = Some 1%nat ∧
        ∃ cfg1 s1, Simulator cfg1 = Some s1 ∧ scene_id (sim_cfg cfg1) = PStr x
    | None =>
        lifecycle_part (trace w') = [EvCreate 0] ∧ sim w' = Some 0%nat
    end.
Proof.
  intros Hw (wa & wb & st & wc & h & s & t & wd & Ha & Hb & Hc & Hs & Hh & Hloop & Hp)%main_inv.
  destruct (startup_no_widgets env files0 wa Hw Ha)
    as (cfg & s0 & Hctor & Hscene & Hsa & Hha & Hta & _ & Hsela).
  simpl in Hsa, Hha, Hta, Hsela.
  unfold user_interaction in Hb. rewrite Hw in Hb. apply mret_Ok in Hb as [_ ->].
  exists cfg, s0. split; [exact Hctor|]. split; [exact Hscene|].
  (* the trajectory and the snapshot add no construction or teardown *)
  pose proof (trajectory_loop_reaches _ _ _ _ _ _ _ Hloop) as [Hr _].
  apply loop_reaches_frame in Hr as (Hsd & _ & _ & evs & Htrd & Hevs).
  simpl in Hsd, Htrd.
  assert (Hq : Forall quiet_event evs).
  { eapply Forall_impl; [exact Hevs|]. intros ev. apply frame_event_quiet. }
  unfold save_pickle in Hp.
  apply bind_Ok in Hp as (ci & wd' & [-> _]%make_camera_info_Ok & Hp).
  apply write_file_Ok in Hp as [_ ->].
  assert (Hend : lifecycle_part (trace (add_event (EvWrite (output_filename env))
                   (set_files (<[output_filename env := Pickle (data_to_save t ci)]>
                                 (files wd)) wd))) = lifecycle_part (trace wc) ∧
                 sim (add_event (EvWrite (output_filename env))
                   (set_files (<[output_filename env := Pickle (data_to_save t ci)]>
                                 (files wd)) wd)) = sim wc).
  { simpl. rewrite Htrd, !lifecycle_part_app, (lifecycle_part_quiet _ Hq).
    simpl. rewrite !app_nil_r. split; [reflexivity|exact Hsd]. }
  destruct Hend as [-> ->].
  (* the re-read *)
  unfold load_selected_scene in Hc.
  rewrite (bind_Ok_intro _ _ _ _ _
             (dict_get_Some _ _ _ wa (default_settings_scene env))) in Hc.
  apply bind_Ok in Hc as (sel & wa' & [Hsel ->]%get_selected_scene_Ok & Hc).
  rewrite Hsela in Hsel. injection Hsel as <-.
  destruct (first_without_NONE _) as [x|] eqn:Hfirst; simpl in Hc.
  - pose proof (first_without_NONE_not_NONE _ _ Hfirst) as Hne.
    rewrite bool_decide_eq_true_2 in Hc by congruence.
    apply bind_Ok in Hc as ([] & wc' & Hre & [_ ->]%mret_Ok).
    apply make_simulator_from_settings_Ok in Hre
      as (cfg1 & s1 & Hscene1 & Hctor1 & Hsim1 & _ & _ & Htr1 & _).
    rewrite Hha, Hsa, Hta in *. simpl in Hsim1, Htr1.
    split; [rewrite Htr1; reflexivity|]. split; [exact Hsim1|].
    exists cfg1, s1. split; [exact Hctor1|].
    rewrite lookup_insert_eq in Hscene1. congruence.
  - apply mret_Ok in Hc as [_ ->]. rewrite Hta, Hsa. split; reflexivity.
Qed.

(** Without capture (the flag [--no-make-video], or the file imported
    rather than run) a completed run still steps the physics but records
    nothing: the display flag has no effect, the one file written is the
    snapshot, every other file is as the run found it, and the three
    sequences in the snapshot are empty. *)
Theorem run_without_capture (E : Engine) (env : Env) (fuel : nat)
    (files0 : gmap string file) (w' : World) :
  make_video env = false →
  main env fuel (initial_world files0) = Ok tt w' →
  written_paths (trace w') = [output_filename env] ∧
  ∃ camera_info,
    files w' = <[output_filename env :=
                   Pickle (data_to_save traj_init camera_info)]> files0 ∧
    data_to_save traj_init camera_info !! "observations" = Some (PklObservations []) ∧
    data_to_save traj_init camera_info !! "translations" = Some (PklTranslations []) ∧
    data_to_save traj_init camera_info !! "rotations" = Some (PklRotations []).
Proof.
  intros Hv (st & start & w1 & t & w2 & ci & _ & _ & Hpre & Hf1 & _ & _ & Hloop & _ & _ & ->)%main_Ok.
  pose proof (trajectory_loop_reaches _ _ _ _ _ _ _ Hloop) as [Hr _].
  assert (Hkeep : t = traj_init ∧ files w2 = files w1 ∧
                  written_paths (trace w2) = written_paths (trace w1)).
  { clear Hloop Hpre Hf1. induction Hr as [|ta wa tb wb tc wc _ Hb _ IH];
      [repeat split|].
    apply loop_body_Ok in Hb as (h & s & _ & _ & Hb). simpl in Hb.
    destruct Hb as (_ & _ & _ & Hb). rewrite Hv in Hb.
    destruct Hb as (-> & Htr & Hf). destruct IH as (-> & -> & ->).
    split; [reflexivity|]. split; [exact Hf|].
    rewrite Htr, written_paths_app. simpl. apply app_nil_r. }
  destruct Hkeep as (-> & Hf2 & Hp2). simpl.
  split.
  - rewrite written_paths_app, Hp2, (written_paths_lifecycle _ Hpre). reflexivity.
  - exists ci. rewrite Hf2, Hf1. split; [reflexivity|].
    unfold data_to_save. simpl. split; [by simplify_map_eq|].
    split; by simplify_map_eq.
Qed.

(** ** The helper [simulate] *)

Section Simulate.
Context {E : Engine}.

Lemma simulate_loop_unfold fuel h deadline get_frames observations :
  simulate_loop fuel h deadline get_frames observations =
  (tm ← sim_get h get_world_time;
   if bool_decide (tm < deadline)%R then
     match fuel with
     | O => out_of_fuel
     | S fuel' =>
         sim_call h (step_physics (1 / 60));;
         modify (add_event (EvStep h));;
         if get_frames then
           observation ← sim_get h get_sensor_observations;
           simulate_loop fuel' h deadline get_frames (observations ++ [observation])
         else simulate_loop fuel' h deadline get_frames observations
     end
   else mret observations).
Proof. destruct fuel; reflexivity. Qed.

Lemma sim_get_Some {A : Type} h (f : SimState → A) (w : World) s :
  heap w !! h = Some s → sim_get h f w = Ok (f s) w.
Proof. intros Hh. unfold sim_get, gets, mbind, M_bind. rewrite Hh. reflexivity. Qed.

Lemma sim_call_Some h (f : SimState → SimState) (w : World) s :
  heap w !! h = Some s → sim_call h f w = Ok tt (set_heap (<[h := f s]> (heap w)) w).
Proof. intros Hh. unfold sim_call, gets, mbind, M_bind. rewrite Hh. reflexivity. Qed.

Lemma after_steps_succ dt k (s : SimState) :
  after_steps dt k (step_physics dt s) = after_steps dt (S k) s.
Proof. unfold after_steps. symmetry. apply Nat.iter_succ_r. Qed.

(** One step of [simulate]'s loop, where the guard holds. *)
Lemma simulate_loop_step fuel h deadline get_frames observations (w : World) s :
  heap w !! h = Some s → (get_world_time s < deadline)%R →
  simulate_loop (S fuel) h deadline get_frames observations w =
  simulate_loop fuel h deadline get_frames
    (if get_frames
     then observations ++ [get_sensor_observations (step_physics (1 / 60) s)]
     else observations)
    (add_event (EvStep h)
       (set_heap (<[h := step_physics (1 / 60) s]> (heap w)) w)).
Proof.
  intros Hh Hlt. rewrite simulate_loop_unfold.
  rewrite (bind_Ok_intro _ _ _ _ _ (sim_get_Some h get_world_time w s Hh)).
  rewrite bool_decide_eq_true_2 by exact Hlt.
  rewrite (bind_Ok_intro _ _ _ _ _ (sim_call_Some h _ w s Hh)).
  erewrite bind_Ok_intro by reflexivity.
  destruct get_frames; [|reflexivity].
  erewrite bind_Ok_intro; [reflexivity|].
  apply sim_get_Some. simpl. apply list_lookup_insert_eq.
  eapply lookup_lt_Some. exact Hh.
Qed.

Lemma simulate_loop_done fuel h deadline get_frames observations (w : World) s :
  heap w !! h = Some s → ¬ (get_world_time s < deadline)%R →
  simulate_loop fuel h deadline get_frames observations w = Ok observations w.
Proof.
  intros Hh Hge. rewrite simulate_loop_unfold.
  rewrite (bind_Ok_intro _ _ _ _ _ (sim_get_Some h get_world_time w s Hh)).
  rewrite bool_decide_eq_false_2 by exact Hge. reflexivity.
Qed.

(** What a returning loop has done: [n] steps, [n] being the first number
    of steps after which the clock has reached the deadline. *)
Lemma simulate_loop_Ok fuel h deadline get_frames :
  ∀ observations (w : World) s r w',
  heap w !! h = Some s →
  simulate_loop fuel h deadline get_frames observations w = Ok r w' →
  ∃ n : nat,
    r = observations ++
        (if get_frames
         then (λ k, get_sensor_observations (after_steps (1 / 60) k s)) <$> seq 1 n
         else []) ∧
    heap w' = <[h := after_steps (1 / 60) n s]> (heap w) ∧
    trace w' = trace w ++ replicate n (EvStep h) ∧
    sim w' = sim w ∧ files w' = files w ∧ selected_scene w' = selected_scene w ∧
    (∀ k, (k < n)%nat → (get_world_time (after_steps (1 / 60) k s) < deadline)%R) ∧
    ¬ (get_world_time (after_steps (1 / 60) n s) < deadline)%R.
Proof.
  induction fuel as [|fuel IH]; intros obs w s r w' Hh Hrun.
  - rewrite simulate_loop_unfold in Hrun.
    rewrite (bind_Ok_intro _ _ _ _ _ (sim_get_Some h get_world_time w s Hh)) in Hrun.
    case_bool_decide as Hlt; [discriminate Hrun|].
    apply mret_Ok in Hrun as [-> ->]. exists 0%nat.
    change (after_steps (1 / 60) 0 s) with s. rewrite (list_insert_id _ _ _ Hh).
    destruct get_frames; simpl; rewrite !app_nil_r;
      repeat split; try (intros k Hk; lia); exact Hlt.
  - destruct (Rlt_dec (get_world_time s) deadline) as [Hlt|Hge].
    + rewrite (simulate_loop_step _ _ _ _ _ _ _ Hh Hlt) in Hrun.
      apply IH with (s := step_physics (1 / 60) s) in Hrun; cycle 1.
      { simpl. apply list_lookup_insert_eq. eapply lookup_lt_Some. exact Hh. }
      destruct Hrun as (n & Hr & Hheap & Htr & Hsim & Hf & Hsel & Hbefore & Hafter).
      exists (S n). simpl in Hheap, Htr, Hsim, Hf, Hsel.
      rewrite list_insert_insert_eq in Hheap.
      rewrite after_steps_succ in Hheap, Hafter.
      split.
      { rewrite Hr. destruct get_frames; [|reflexivity].
        rewrite <- app_assoc. f_equal. simpl. f_equal.
        rewrite <- (fmap_S_seq 1 n), <- list_fmap_compose.
        apply list_fmap_ext. intros i k _. simpl. rewrite after_steps_succ.
        reflexivity. }
      split; [exact Hheap|].
      split; [rewrite Htr, <- app_assoc; reflexivity|].
      split; [exact Hsim|]. split; [exact Hf|]. split; [exact Hsel|].
      split; [|exact Hafter].
      intros [|k] Hk; [exact Hlt|].
      rewrite <- after_steps_succ. apply Hbefore. lia.
    + rewrite (simulate_loop_done _ _ _ _ _ _ _ Hh Hge) in Hrun.
      injection Hrun as <- <-. exists 0%nat.
      change (after_steps (1 / 60) 0 s) with s. rewrite (list_insert_id _ _ _ Hh).
      destruct get_frames; simpl; rewrite !app_nil_r;
        repeat split; try (intros k Hk; lia); exact Hge.
Qed.

(** With every step advancing the clock by at least [eps], fuel for enough
    steps to cover the remaining time suffices. *)
Lemma simulate_loop_total (eps : R) h deadline get_frames :
  (0 < eps)%R →
  (∀ s, get_world_time s + eps <= get_world_time (step_physics (1 / 60) s))%R →
  ∀ (n fuel : nat) observations (w : World) s,
    (n ≤ fuel)%nat → heap w !! h = Some s →
    (deadline - get_world_time s < INR n * eps)%R →
    ∃ r w', simulate_loop fuel h deadline get_frames observations w = Ok r w'.
Proof.
  intros Heps Hstep n. induction n as [|n IH]; intros fuel obs w s Hn Hh Hbound.
  - eexists _, _. apply (simulate_loop_done _ _ _ _ _ _ s Hh).
    simpl in Hbound. lra.
  - destruct (Rlt_dec (get_world_time s) deadline) as [Hlt|Hge];
      [|eexists _, _; apply (simulate_loop_done _ _ _ _ _ _ s Hh Hge)].
    destruct fuel as [|fuel]; [lia|].
    rewrite (simulate_loop_step _ _ _ _ _ _ _ Hh Hlt).
    apply (IH fuel _ _ (step_physics (1 / 60) s)); [lia| |].
    + simpl. apply list_lookup_insert_eq. eapply lookup_lt_Some. exact Hh.
    + pose proof (Hstep s). rewrite S_INR in Hbound. lra.
Qed.

Lemma simulate_total h dt get_frames (w : World) s :
  (∃ eps : R, (0 < eps)%R ∧
     ∀ s, (get_world_time s + eps <= get_world_time (step_physics (1 / 60) s))%R) →
  heap w !! h = Some s →
  ∃ n : nat, ∀ fuel, (n ≤ fuel)%nat →
    ∃ r w', simulate fuel h dt get_frames w = Ok r w'.
Proof.
  intros (eps & Heps & Hstep) Hh.
  destruct (steps_to_deadline dt eps Heps) as [n Hn].
  exists n. intros fuel Hfuel. unfold simulate.
  rewrite (bind_Ok_intro _ _ _ _ _ (sim_get_Some h get_world_time w s Hh)).
  apply (simulate_loop_total eps h _ get_frames Heps Hstep n fuel [] w s Hfuel Hh).
  lra.
Qed.

End Simulate.

(** [simulate] steps the physics at 60 Hz until the clock has reached the
    start time plus [dt]: when it returns it has made [n] steps, [n] being
    the first number of steps after which the clock is no longer before the
    deadline.  With [get_frames] it returns the [n] observations taken
    after each step, in order, and without it the empty list.  Nothing but
    the state of the simulator it is given changes.  For [dt <= 0] it makes
    no step and returns the empty list. *)
Theorem simulate_steps_to_deadline (E : Engine) (fuel : nat) (h : nat) (dt : R)
    (get_frames : bool) (w w' : World) (s : SimState) (r : list Observation) :
  heap w !! h = Some s →
  simulate fuel h dt get_frames w = Ok r w' →
  ∃ n : nat,
    r = (if get_frames
         then (λ k, get_sensor_observations (after_steps (1 / 60) k s)) <$> seq 1 n
         else []) ∧
    heap w' = <[h := after_steps (1 / 60) n s]> (heap w) ∧
    trace w' = trace w ++ replicate n (EvStep h) ∧
    sim w' = sim w ∧ files w' = files w ∧ selected_scene w' = selected_scene w ∧
    (∀ k, (k < n)%nat →
       (get_world_time (after_steps (1 / 60) k s) < get_world_time s + dt)%R) ∧
    ¬ (get_world_time (after_steps (1 / 60) n s) < get_world_time s + dt)%R ∧
    ((dt <= 0)%R → n = 0%nat ∧ r = [] ∧ w' = w).
Proof.
  intros Hh Hrun. pose proof Hrun as Hrun0. unfold simulate in Hrun.
  rewrite (bind_Ok_intro _ _ _ _ _ (sim_get_Some h get_world_time w s Hh)) in Hrun.
  destruct (simulate_loop_Ok _ _ _ _ _ _ _ _ _ Hh Hrun)
    as (n & Hr & Hheap & Htr & Hsim & Hf & Hsel & Hbefore & Hafter).
  exists n. simpl in Hr. repeat (split; [assumption|]).
  intros Hdt.
  assert (Hge : ¬ (get_world_time s < get_world_time s + dt)%R) by lra.
  rewrite (simulate_loop_done _ _ _ _ _ _ _ Hh Hge) in Hrun.
  injection Hrun as <- <-.
  destruct n as [|n]; [repeat split|].
  exfalso. apply Hge. apply (Hbefore 0%nat). lia.
Qed.

(** On an engine whose clock advances by a positive minimum with every
    60 Hz step, [simulate] returns for every [dt], given enough fuel. *)
Theorem simulate_returns (E : Engine) (h : nat) (dt : R) (get_frames : bool)
    (w : World) (s : SimState) :
  (∃ eps : R, (0 < eps)%R ∧
     ∀ s, (get_world_time s + eps <= get_world_time (step_physics (1 / 60) s))%R) →
  heap w !! h = Some s →
  ∃ n : nat, ∀ fuel, (n ≤ fuel)%nat →
    ∃ r w', simulate fuel h dt get_frames w = Ok r w'.
Proof. apply simulate_total. Qed.

(** ** The first frame, the dropdown and the camera without display *)

Section MoreRuns.
Context {E : Engine}.

(** The dropdown's changes, delivered in order: the last one is what the
    handler leaves stored. *)
Lemma deliver_ui_events_last evs ev new (w : World) :
  Forall (λ ev : gmap string string, is_Some (ev !! "new")) evs →
  ev !! "new" = Some new →
  deliver_ui_events (evs ++ [ev]) w = Ok tt (set_selected_scene (Some new) w).
Proof.
  intros Hevs Hnew. revert w.
  induction Hevs as [|ev0 evs [new0 Hnew0] _ IH]; intros w; simpl.
  - assert (Hone : on_scene_ddl_change ev w =
                     Ok new (set_selected_scene (Some new) w)).
    { unfold on_scene_ddl_change.
      rewrite (bind_Ok_intro _ _ _ _ _ (dict_get_Some _ _ _ w Hnew)).
      reflexivity. }
    rewrite (bind_Ok_intro _ _ _ _ _ Hone). reflexivity.
  - assert (Hone : on_scene_ddl_change ev0 w =
                     Ok new0 (set_selected_scene (Some new0) w)).
    { unfold on_scene_ddl_change.
      rewrite (bind_Ok_intro _ _ _ _ _ (dict_get_Some _ _ _ w Hnew0)).
      reflexivity. }
    rewrite (bind_Ok_intro _ _ _ _ _ Hone). rewrite IH. reflexivity.
Qed.

(** Without display the counter stays where it is, so every iteration makes
    the same turn; on a scene node that physics leaves alone the recorded
    poses follow. *)
Lemma loop_reaches_spin (HN : SceneNodeLaws E) env start_time t w t' w' h s :
  (∀ dt s, node_translation (step_physics dt s) = node_translation s) →
  (∀ dt s, node_rotation (step_physics dt s) = node_rotation s) →
  make_video env = true → display env = false → count t < 40 →
  loop_reaches env start_time t w t' w' →
  sim w = Some h → heap w !! h = Some s →
  ∃ n : nat,
    translations t' = translations t ++ replicate n (node_translation s) ∧
    rotations t' = rotations t ++
      ((λ k, Nat.iter k (rotated yaw_step y_axis) (node_rotation s)) <$> seq 1 n).
Proof.
  intros Hpt Hpr Hv Hd Hc Hr. revert s.
  induction Hr as [t w|t w t1 w1 t2 w2 _ Hb _ IH]; intros s Hs Hh.
  - exists 0%nat. simpl. rewrite !app_nil_r. split; reflexivity.
  - apply loop_body_Ok in Hb as (h0 & s0 & Hs0 & Hh0 & Hb). simpl in Hb.
    rewrite Hs in Hs0. injection Hs0 as <-. rewrite Hh in Hh0. injection Hh0 as <-.
    destruct Hb as (Hs1 & Hheap & _ & Hb). rewrite Hv, Hd in Hb.
    destruct Hb as (_ & Ht & Hro & Hc1 & _).
    assert (Hpose : pose_update (count t) s = node_rotate yaw_step y_axis s).
    { unfold pose_update, pose_cmds.
      rewrite (proj2 (Z.ltb_lt (count t) 40) Hc). reflexivity. }
    rewrite Hpose in *.
    set (s' := step_physics (1 / 30) (node_rotate yaw_step y_axis s)) in *.
    assert (Hh1 : heap w1 !! h = Some s').
    { rewrite Hheap. apply list_lookup_insert_eq. eapply lookup_lt_Some. exact Hh. }
    destruct (IH ltac:(lia) s' Hs1 Hh1) as (n & Ht2 & Hr2).
    assert (Htr' : node_translation s' = node_translation s).
    { unfold s'. rewrite Hpt. apply translation_rotate. }
    assert (Hro' : node_rotation s' = rotated yaw_step y_axis (node_rotation s)).
    { unfold s'. rewrite Hpr. apply rotation_rotate. }
    exists (S n). rewrite Ht2, Hr2, Ht, Hro, <- !app_assoc, Htr', Hro'. simpl.
    split; [reflexivity|]. f_equal. f_equal.
    rewrite <- (fmap_S_seq 1 n), <- list_fmap_compose.
    apply list_fmap_ext. intros i k _. simpl. symmetry.
    apply (Nat.iter_succ_r k (rotated yaw_step y_axis) (node_rotation s)).
Qed.

End MoreRuns.

(** With widgets, the last change the user makes in the dropdown decides
    the scene: the events are delivered to the handler in order and each
    replaces the stored selection, so the re-read finds the value of the
    last one, records it in the settings and, where it differs from the
    default scene "NONE", rebuilds the simulator for it; choosing "NONE"
    leaves the simulator alone. *)
Theorem last_dropdown_change_wins (E : Engine) (env : Env)
    (evs : list (gmap string string)) (ev : gmap string string) (new : string)
    (w : World) :
  HAS_WIDGETS env = true → ui_events env = evs ++ [ev] →
  Forall (λ ev : gmap string string, is_Some (ev !! "new")) evs →
  ev !! "new" = Some new →
  user_interaction env w = Ok tt (set_selected_scene (Some new) w) ∧
  (new = "NONE" →
   load_selected_scene env (make_default_settings env)
     (set_selected_scene (Some new) w)
   = Ok (make_default_settings env) (set_selected_scene (Some new) w)) ∧
  (∀ st w', new ≠ "NONE" →
     load_selected_scene env (make_default_settings env)
       (set_selected_scene (Some new) w) = Ok st w' →
     st = <["scene" := PStr new]> (make_default_settings env) ∧
     ∃ cfg s0, Simulator cfg = Some s0 ∧ scene_id (sim_cfg cfg) = PStr new ∧
       sim w' = Some (length (heap w)) ∧
       trace w' = trace w ++ from_option (λ h0, [EvClose h0]) [] (sim w)
                          ++ [EvCreate (length (heap w))]).
Proof.
  intros Hw Hevs Hall Hnew. split; [|split].
  - unfold user_interaction. rewrite Hw, Hevs.
    apply deliver_ui_events_last; assumption.
  - intros ->. unfold load_selected_scene.
    rewrite (bind_Ok_intro _ _ _ _ _
               (dict_get_Some _ _ _ _ (default_settings_scene env))).
    erewrite bind_Ok_intro by reflexivity.
    rewrite bool_decide_eq_false_2 by (intros Hne; apply Hne; reflexivity).
    reflexivity.
  - intros st w' Hne Hrun. unfold load_selected_scene in Hrun.
    rewrite (bind_Ok_intro _ _ _ _ _
               (dict_get_Some _ _ _ _ (default_settings_scene env))) in Hrun.
    erewrite bind_Ok_intro in Hrun by reflexivity.
    rewrite bool_decide_eq_true_2 in Hrun by congruence.
    apply bind_Ok in Hrun as ([] & w1 & Hre & [-> ->]%mret_Ok).
    split; [reflexivity|].
    apply make_simulator_from_settings_Ok in Hre
      as (cfg & s0 & Hscene & Hctor & Hsim & _ & _ & Htr & _).
    rewrite lookup_insert_eq in Hscene.
    exists cfg, s0. split; [exact Hctor|]. split; [congruence|].
    split; [exact Hsim|exact Htr].
Qed.

(** Without display the camera turns on the spot.  On a scene node that
    keeps translation and orientation side by side and that a physics step
    leaves alone, a capturing loop without display records the translation
    it started from for every frame, and as the rotation of frame [k]
    (counted from 1) the starting orientation turned [k] times by
    -(pi/2)/20 about Y: the counter never leaves the turning phase. *)
Theorem no_display_spins_in_place (E : Engine) (HN : SceneNodeLaws E) (env : Env)
    (fuel : nat) (start_time : R) (w w' : World) (t' : Traj) (h : nat)
    (s : SimState) :
  (∀ dt s, node_translation (step_physics dt s) = node_translation s) →
  (∀ dt s, node_rotation (step_physics dt s) = node_rotation s) →
  make_video env = true → display env = false →
  sim w = Some h → heap w !! h = Some s →
  trajectory_loop env fuel start_time traj_init w = Ok t' w' →
  ∃ n : nat,
    translations t' = replicate n (node_translation s) ∧
    rotations t' =
      (λ k, Nat.iter k (rotated yaw_step y_axis) (node_rotation s)) <$> seq 1 n.
Proof.
  intros Hpt Hpr Hv Hd Hs Hh [Hr _]%trajectory_loop_reaches.
  apply (loop_reaches_spin HN env start_time _ _ _ _ h s Hpt Hpr Hv Hd) in Hr;
    [exact Hr|simpl; lia|exact Hs|exact Hh].
Qed.

(** A run that completes has captured at least one frame when capture is
    on: the loop's guard holds on entry (changing the agent's pose does not
    move the clock).  The first frame is not taken at the starting pose: it
    shows the scene after the first turn and the first physics step from
    the translation (-2, 0, 0).  With display on, the three image files
    numbered 1 are the images of that frame. *)
Theorem first_frame_after_first_turn (E : Engine) (HL : EngineLaws E) (env : Env)
    (fuel : nat) (files0 : gmap string file) (w' : World) :
  make_video env = true →
  main env fuel (initial_world files0) = Ok tt w' →
  ∃ s t camera_info rest,
    let o := get_sensor_observations
               (step_physics (1 / 30)
                  (node_rotate yaw_step y_axis
                     (node_set_translation (Vec3 (- 2) 0 0) s))) in
    files w' !! output_filename env = Some (Pickle (data_to_save t camera_info)) ∧
    observations t = o :: rest ∧
    (display env = true →
     files w' !! rgb_image_path env 1 =
       Some (Png (FromArrayRGBA (color_sensor_1st_person o))) ∧
     files w' !! semantic_image_path env 1 =
       Some (Png (semantic_image (semantic_sensor o))) ∧
     files w' !! depth_image_path env 1 =
       Some (Png (FromArrayL (depth_pixels (depth_sensor o))))).
Proof.
  intros Hv (wa & wb & st & wc & h & s & t & wd & _ & _ & _ & Hs & Hh & Hloop & Hp)%main_inv.
  set (s4 := node_set_translation (Vec3 (- 2) 0 0) s) in *.
  set (w4 := set_heap (<[h := s4]> (heap wc)) wc) in *.
  assert (Hs4 : sim w4 = Some h) by exact Hs.
  assert (Hh4 : heap w4 !! h = Some s4).
  { simpl. apply list_lookup_insert_eq. eapply lookup_lt_Some. exact Hh. }
  pose proof (trajectory_loop_reaches _ _ _ _ _ _ _ Hloop) as [Hreach _].
  (* the first iteration *)
  assert (Hg : loop_guard (get_world_time s) w4 = Ok true w4).
  { rewrite (loop_guard_eval _ w4 h s4 Hs4 Hh4).
    rewrite bool_decide_eq_true_2; [reflexivity|].
    unfold s4. rewrite time_node_set_translation. lra. }
  rewrite trajectory_loop_unfold in Hloop.
  rewrite (bind_Ok_intro _ _ _ _ _ Hg) in Hloop.
  destruct fuel as [|fuel]; [discriminate Hloop|].
  apply bind_Ok in Hloop as (t1 & w1 & Hb & Hrest).
  apply loop_body_Ok in Hb as (h0 & s0 & Hs0 & Hh0 & Hb). simpl in Hb.
  rewrite Hs4 in Hs0. injection Hs0 as <-. rewrite Hh4 in Hh0. injection Hh0 as <-.
  destruct Hb as (Hs1 & _ & _ & Hb). rewrite Hv in Hb. destruct Hb as (Ho1 & _).
  apply trajectory_loop_reaches in Hrest as [Hr1 _].
  destruct (loop_reaches_states env _ _ _ _ _ h Hv Hr1 Hs1) as (states & Ho & _).
  rewrite Ho1 in Ho. simpl in Ho.
  (* the snapshot *)
  unfold save_pickle in Hp.
  apply bind_Ok in Hp as (ci & wd' & [-> _]%make_camera_info_Ok & Hp).
  apply write_file_Ok in Hp as [_ ->].
  exists s, t, ci, (get_sensor_observations <$> states).
  split; [simpl; apply lookup_insert_eq|]. split; [exact Ho|].
  intros Hd.
  destruct (loop_reaches_on_disk env _ _ _ _ _ 1 Hv Hd Hreach eq_refl) as [_ HJ].
  { intros k o Hk. discriminate Hk. }
  destruct (HJ 0%nat _ ltac:(rewrite Ho; reflexivity)) as (H1 & H2 & H3).
  simpl.
  rewrite !lookup_insert_ne
    by (first [ apply not_eq_sym, rgb_image_path_not_pickle
              | apply not_eq_sym, semantic_image_path_not_pickle
              | apply not_eq_sym, depth_image_path_not_pickle ]).
  repeat split; assumption.
Qed.

(** ** The further properties at concrete inputs *)

(** A capturing and displaying loop on the small engine ends. *)
Lemma toy_display_loop_run :
  ∃ fuel t' w',
    trajectory_loop (E := toy_engine toy_handles) (toy_env false false)
      fuel 0 traj_init toy_world = Ok t' w'.
Proof.
  destruct (trajectory_loop_terminates (E := toy_engine toy_handles)
              (toy_engine_laws toy_handles) (toy_env false false) 0 traj_init
              toy_world) as [n Hn].
  destruct (trajectory_loop_no_raise (E := toy_engine toy_handles)
              (toy_env false false) n 0 traj_init toy_world 0 (toy_state 0)
              (λ _, eq_refl) eq_refl eq_refl) as [Hoof|(t' & w' & Hrun)].
  - destruct (Hn n (le_n n) Hoof).
  - exists n, t', w'. exact Hrun.
Qed.

(** A run with [--no-make-video] on the small engine completes. *)
Lemma toy_no_video_main_run :
  ∃ fuel w', main (E := toy_engine toy_handles) toy_env_no_video fuel
               (initial_world ∅) = Ok tt w'.
Proof.
  destruct (script_completes (E := toy_engine toy_handles)
              (toy_engine_laws toy_handles) toy_env_no_video ∅) as [n Hn].
  - intros cfg. eexists. reflexivity.
  - intros path. reflexivity.
  - apply Forall_nil_2.
  - intros [=].
  - destruct (Hn n (le_n n)) as [w' Hrun]. exists n, w'. exact Hrun.
Qed.

(** On the engine that knows the empty scene only, the run is aborted when
    the re-read rebuilds for "apt_0". *)
Lemma picky_main_run :
  ∃ w', main (E := picky_engine toy_handles) (toy_env false true) 0
          (initial_world ∅) = Raise SimulatorError w'.
Proof. eexists. vm_compute. reflexivity. Qed.

(** Without the scene the default settings fail at "scene", although
    "scene_dataset" is read first. *)
Lemma make_cfg_key_errors_run :
  make_cfg (E := toy_engine toy_handles)
    (delete "scene" (make_default_settings (toy_env false false))) toy_world
  = Raise (KeyError "scene") toy_world.
Proof.
  assert (Hsub : delete "scene" (make_default_settings (toy_env false false))
                 ⊆ <["scene" := PStr "NONE"]>
                     (make_default_settings (toy_env false false))).
  { rewrite insert_id by reflexivity. apply delete_subseteq. }
  exact (proj1 (make_cfg_key_errors (toy_engine toy_handles)
                  (toy_env false false) "NONE"
                  (delete "scene" (make_default_settings (toy_env false false)))
                  toy_world Hsub)).
Defined.

(** The default settings give three sensors of 720 rows and 1280 columns. *)
Lemma make_cfg_sensors_run :
  ∃ cfg a,
    make_cfg (E := toy_engine toy_handles)
      (make_default_settings (toy_env false false)) toy_world = Ok cfg toy_world ∧
    agents cfg = [a] ∧
    Forall (λ sp, resolution sp = [PInt 720; PInt 1280]) (sensor_specifications a).
Proof.
  destruct (make_cfg_total (E := toy_engine toy_handles)
              (make_default_settings (toy_env false false)) toy_world
              (default_settings_has_cfg_keys _)) as [cfg Hrun].
  destruct (make_cfg_sensors _ _ _ _ _ Hrun)
    as (_ & ht & wd & sh & sp & sd & a & Hht & Hwd & _ & _ & _ & Ha & _ & _ & Hall & _).
  rewrite default_settings_height in Hht. rewrite default_settings_width in Hwd.
  injection Hht as <-. injection Hwd as <-.
  exists cfg, a. split; [exact Hrun|]. split; [exact Ha|].
  eapply Forall_impl; [exact Hall|]. intros x (Hres & _). exact Hres.
Defined.

(** A rebuild for "apt_0" on the engine that knows the empty scene only:
    the constructor raises after the running simulator was closed. *)
Lemma rebuild_failure_modes_run :
  let w := after_rebuild (E := picky_engine toy_handles) (toy_state 0) in
  ∃ w', make_simulator_from_settings (E := picky_engine toy_handles)
          (toy_env false false)
          (<["scene" := PStr "apt_0"]> (make_default_settings (toy_env false false)))
          w = Raise SimulatorError w' ∧
        sim w' = Some 0%nat ∧ trace w' = [EvCreate 0; EvClose 0] ∧
        live (trace w') = [].
Proof.
  intros w.
  assert (Hsane : sim_sane w) by (intros h [= <-]; eexists; reflexivity).
  pose proof (rebuild_failure_modes (picky_engine toy_handles) (toy_env false false)
                "apt_0"
                (<["scene" := PStr "apt_0"]>
                   (make_default_settings (toy_env false false)))
                w Hsane (reflexivity _)) as H.
  change (first_missing_key _) with (@None string) in H.
  assert (Hcfg : ∃ cfg, make_cfg (E := picky_engine toy_handles)
                    (<["scene" := PStr "apt_0"]>
                       (make_default_settings (toy_env false false))) w = Ok cfg w ∧
                  Simulator (Engine := picky_engine toy_handles) cfg = None)
    by (eexists; split; vm_compute; reflexivity).
  destruct Hcfg as (cfg & Hcfg & Hctor).
  destruct (H cfg Hcfg Hctor) as (w' & Hrun & Hsim & _ & _ & _ & Htr & _ & Hlive).
  exists w'. split; [exact Hrun|]. split; [exact Hsim|]. split; [exact Htr|].
  apply Hlive. right. exists 0%nat. split; reflexivity.
Defined.

(** The selection on the handles "NONE" and "apt_0", with widgets. *)
Lemma selected_scene_characterised_run :
  ∃ w', build_widget_ui (E := toy_engine toy_handles) (toy_env true false) 0
          toy_world = Ok tt w' ∧
    selected_scene w' = Some "apt_0" ∧
    ((toy_handles = [] ∧ selected_scene w' = Some "NONE") ∨
     (∃ pre x post, toy_handles = pre ++ x :: post ∧
        Forall (occurs_in "NONE") pre ∧ ¬ occurs_in "NONE" x ∧
        selected_scene w' = Some x) ∨
     (toy_handles ≠ [] ∧ Forall (occurs_in "NONE") toy_handles ∧
      selected_scene w' = selected_scene toy_world)).
Proof.
  assert (Hrun : ∃ w', build_widget_ui (E := toy_engine toy_handles)
                         (toy_env true false) 0 toy_world = Ok tt w' ∧
                       selected_scene w' = Some "apt_0")
    by (eexists; split; vm_compute; reflexivity).
  destruct Hrun as (w' & Hrun & Hsel). exists w'.
  split; [exact Hrun|]. split; [exact Hsel|].
  exact (selected_scene_characterised (toy_engine toy_handles) (toy_env true false)
           0 (toy_state 0) toy_world w' eq_refl Hrun).
Defined.

(** With widgets on the handles "NONE" and "apt_0" the selection cell ends
    as it does without them; on an engine that reports no handle at all
    the dropdown refuses the selection "NONE". *)
Lemma widgets_keep_or_refuse_selection_run :
  (∃ w', build_widget_ui (E := toy_engine toy_handles) (toy_env false false) 0
           toy_world = Ok tt w' ∧
         build_widget_ui (E := toy_engine toy_handles) (toy_env true false) 0
           toy_world = Ok tt w') ∧
  (∃ w', build_widget_ui (E := toy_engine []) (toy_env true false) 0
           (after_rebuild (E := toy_engine []) (toy_state 0))
         = Raise TraitError w').
Proof.
  split.
  - destruct (widgets_keep_or_refuse_selection (toy_engine toy_handles)
                (toy_env true false) (toy_env false false) 0 (toy_state 0)
                toy_world eq_refl eq_refl eq_refl) as (w' & Hno & Hwith & _).
    exists w'. split; [exact Hno|]. rewrite Hwith.
    revert Hno. vm_compute. intros [= <-]. reflexivity.
  - destruct (widgets_keep_or_refuse_selection (toy_engine [])
                (toy_env true false) (toy_env false false) 0 (toy_state 0)
                (after_rebuild (E := toy_engine []) (toy_state 0))
                eq_refl eq_refl eq_refl) as (w' & _ & _ & Hnil).
    exists w'. apply Hnil. reflexivity.
Defined.

(** The two frames of the run without display. *)
Lemma frames_and_poses_agree_run :
  ∃ t' w' states,
    trajectory_loop (E := toy_engine toy_handles) (toy_env false true)
      2 0 traj_init toy_world = Ok t' w' ∧
    observations t' = get_sensor_observations <$> states ∧
    translations t' = node_translation <$> states ∧
    rotations t' = node_rotation <$> states.
Proof.
  destruct toy_loop_run as (t' & w' & Hrun).
  destruct (frames_and_poses_agree (toy_engine toy_handles) (toy_env false true)
              2 0 toy_world w' t' 0 eq_refl eq_refl Hrun)
    as (states & Ho & Ht & Hr & _).
  exists t', w', states. repeat split; assumption.
Defined.

(** The frames of a displaying loop on the small engine are numbered from 1. *)
Lemma frames_numbered_from_one_run :
  ∃ fuel t' w' (n : nat),
    trajectory_loop (E := toy_engine toy_handles) (toy_env false false)
      fuel 0 traj_init toy_world = Ok t' w' ∧
    count t' = 1 + Z.of_nat n ∧ length (observations t') = n ∧
    NoDup (written_paths (concat (frame_events (toy_env false false) 0
                                    <$> seqZ 1 (Z.of_nat n)))).
Proof.
  destruct toy_display_loop_run as (fuel & t' & w' & Hrun).
  destruct (frames_numbered_from_one (toy_engine toy_handles) (toy_env false false)
              fuel 0 toy_world w' t' 0 eq_refl eq_refl eq_refl Hrun)
    as (n & Hc & Hl & evs & _ & -> & Hnd & _).
  exists fuel, t', w', n. repeat split; assumption.
Defined.

(** The image files of a displaying loop on the small engine. *)
Lemma image_files_match_observations_run :
  ∃ fuel t' w',
    trajectory_loop (E := toy_engine toy_handles) (toy_env false false)
      fuel 0 traj_init toy_world = Ok t' w' ∧
    ∀ (k : nat) o, observations t' !! k = Some o →
      files w' !! rgb_image_path (toy_env false false) (1 + Z.of_nat k) =
        Some (Png (FromArrayRGBA (color_sensor_1st_person o))).
Proof.
  destruct toy_display_loop_run as (fuel & t' & w' & Hrun).
  exists fuel, t', w'. split; [exact Hrun|]. intros k o Hk.
  exact (proj1 (image_files_match_observations (toy_engine toy_handles)
                  (toy_env false false) fuel 0 toy_world w' t' eq_refl eq_refl
                  Hrun k o Hk)).
Defined.

(** The aborted run on the engine that knows the empty scene only. *)
Lemma aborted_run_leaves_snapshot_run :
  ∃ w', main (E := picky_engine toy_handles) (toy_env false true) 0
          (initial_world ∅) = Raise SimulatorError w' ∧
        write_count (output_filename (toy_env false true)) (trace w') = 0%nat ∧
        files w' !! output_filename (toy_env false true) = None.
Proof.
  destruct picky_main_run as [w' Hrun]. exists w'. split; [exact Hrun|].
  exact (aborted_run_leaves_snapshot _ _ _ _ _ _ Hrun).
Defined.

(** In a checkout where nothing can be written the first image fails. *)
Lemma save_sample_stops_at_first_failure_run :
  save_sample (E := toy_engine toy_handles) toy_env_read_only
    (color_sensor_1st_person toy_observation) (semantic_sensor toy_observation)
    (depth_sensor toy_observation) 1 toy_world
  = Raise (OSError "/repo/output/rgb_image_1.png") toy_world.
Proof.
  exact (proj1 (save_sample_stops_at_first_failure (toy_engine toy_handles)
                  toy_env_read_only (color_sensor_1st_person toy_observation)
                  (semantic_sensor toy_observation) (depth_sensor toy_observation)
                  1 toy_world) eq_refl).
Defined.

(** The run of the small engine builds twice: first the empty scene, then
    "apt_0". *)
Lemma run_builds_once_or_twice_run :
  ∃ w', main (E := toy_engine toy_handles) (toy_env false true) 2
          (initial_world ∅) = Ok tt w' ∧
        lifecycle_part (trace w') = [EvCreate 0; EvClose 0; EvCreate 1] ∧
        sim w' = Some 1%nat.
Proof.
  destruct toy_main_run as (w' & Hrun). exists w'. split; [exact Hrun|].
  destruct (run_builds_once_or_twice (toy_engine toy_handles) (toy_env false true)
              2 ∅ w' eq_refl Hrun) as (cfg & s0 & _ & _ & H).
  change (first_without_NONE _) with (Some "apt_0") in H.
  destruct H as (Htr & Hsim & _). split; assumption.
Defined.

(** A run with [--no-make-video] on the small engine writes the snapshot
    only. *)
Lemma run_without_capture_run :
  ∃ fuel w' camera_info,
    main (E := toy_engine toy_handles) toy_env_no_video fuel (initial_world ∅)
      = Ok tt w' ∧
    written_paths (trace w') = ["/repo/output/data.pkl"] ∧
    files w' = {[ "/repo/output/data.pkl" :=
                    Pickle (data_to_save traj_init camera_info) ]}.
Proof.
  destruct toy_no_video_main_run as (fuel & w' & Hrun).
  destruct (run_without_capture (toy_engine toy_handles) toy_env_no_video fuel ∅ w'
              eq_refl Hrun) as (Hp & ci & Hf & _).
  exists fuel, w', ci. split; [exact Hrun|]. split; [exact Hp|exact Hf].
Defined.

(** [simulate] for two seconds on the small engine, whose clock advances
    one second per 60 Hz step: two steps, two observations. *)
Lemma simulate_steps_to_deadline_run :
  ∃ fuel r w',
    simulate (E := toy_engine toy_handles) fuel 0 2 true toy_world = Ok r w' ∧
    r = [toy_observation; toy_observation] ∧
    trace w' = trace toy_world ++ [EvStep 0; EvStep 0].
Proof.
  destruct (simulate_total (E := toy_engine toy_handles) 0 2 true toy_world
              (toy_state 0)) as [fuel Hfuel].
  { exists 1%R. split; [lra|]. intros s. simpl. lra. }
  { reflexivity. }
  destruct (Hfuel fuel (le_n fuel)) as (r & w' & Hrun).
  exists fuel, r, w'. split; [exact Hrun|].
  destruct (simulate_steps_to_deadline (toy_engine toy_handles) fuel 0 2 true
              toy_world w' (toy_state 0) r eq_refl Hrun)
    as (n & Hr & _ & Htr & _ & _ & _ & Hbefore & Hafter & _).
  assert (Htime : ∀ k, get_world_time (Engine := toy_engine toy_handles)
                         (after_steps (E := toy_engine toy_handles) (1 / 60) k
                            (toy_state 0)) = INR k).
  { induction k as [|k IH]; [reflexivity|].
    rewrite S_INR.
    change (after_steps (E := toy_engine toy_handles) (1 / 60) (S k) (toy_state 0))
      with (step_physics (Engine := toy_engine toy_handles) (1 / 60)
              (after_steps (E := toy_engine toy_handles) (1 / 60) k (toy_state 0))).
    simpl in IH |- *. rewrite IH. lra. }
  assert (n = 2%nat) as ->.
  { rewrite Htime in Hafter. simpl in Hafter.
    destruct n as [|[|[|n]]].
    - exfalso. apply Hafter. simpl. lra.
    - exfalso. apply Hafter. simpl. lra.
    - reflexivity.
    - exfalso. specialize (Hbefore 2%nat ltac:(lia)). rewrite Htime in Hbefore.
      simpl in Hbefore. lra. }
  split; [exact Hr|exact Htr].
Defined.

(** [simulate] returns on the small engine. *)
Lemma simulate_returns_run :
  ∃ n : nat, ∀ fuel, (n ≤ fuel)%nat →
    ∃ r w', simulate (E := toy_engine toy_handles) fuel 0 1 false toy_world
            = Ok r w'.
Proof.
  apply (simulate_returns (toy_engine toy_handles) 0 1 false toy_world (toy_state 0)).
  - exists 1%R. split; [lra|]. intros s. simpl. lra.
  - reflexivity.
Defined.

(** A user who picks "apt_0" in the dropdown. *)
Lemma last_dropdown_change_wins_run :
  let env := {| HAS_WIDGETS := true; is_main := true; no_display := true;
                no_make_video := false; dir_path := "/repo";
                writable := λ _, true;
                ui_events := [{[ "new" := "NONE" ]}; {[ "new" := "apt_0" ]}] |} in
  user_interaction (E := toy_engine toy_handles) env toy_world
    = Ok tt (set_selected_scene (Some "apt_0") toy_world).
Proof.
  intros env.
  apply (last_dropdown_change_wins (toy_engine toy_handles) env
           [{[ "new" := "NONE" ]}] {[ "new" := "apt_0" ]} "apt_0" toy_world).
  - reflexivity.
  - reflexivity.
  - apply Forall_cons_2; [|apply Forall_nil_2]. exists "NONE". reflexivity.
  - reflexivity.
Defined.

(** Without display the small engine's camera stays at its translation and
    has turned twice after two frames. *)
Lemma no_display_spins_in_place_run :
  ∃ t' w',
    trajectory_loop (E := toy_engine toy_handles) (toy_env false true)
      2 0 traj_init toy_world = Ok t' w' ∧
    ∃ n : nat, translations t' = replicate n (Vec3 0 0 0) ∧
               length (rotations t') = n.
Proof.
  destruct toy_loop_run as (t' & w' & Hrun). exists t', w'. split; [exact Hrun|].
  destruct (no_display_spins_in_place (toy_engine toy_handles)
              (toy_scene_node_laws toy_handles) (toy_env false true) 2 0
              toy_world w' t' 0 (toy_state 0)
              (λ _ _, eq_refl) (λ _ _, eq_refl) eq_refl eq_refl eq_refl eq_refl Hrun)
    as (n & Ht & Hr).
  exists n. split; [exact Ht|]. rewrite Hr, length_fmap, length_seq. reflexivity.
Defined.

(** The first frame of the run of the small engine. *)
Lemma first_frame_after_first_turn_run :
  ∃ w' t camera_info,
    main (E := toy_engine toy_handles) (toy_env false true) 2 (initial_world ∅)
      = Ok tt w' ∧
    files w' !! "/repo/output/data.pkl" = Some (Pickle (data_to_save t camera_info)) ∧
    observations t ≠ [].
Proof.
  destruct toy_main_run as (w' & Hrun).
  destruct (first_frame_after_first_turn (toy_engine toy_handles)
              (toy_engine_laws toy_handles) (toy_env false true) 2 ∅ w' eq_refl Hrun)
    as (s & t & ci & rest & Hf & Ho & _).
  exists w', t, ci. split; [exact Hrun|]. split; [exact Hf|].
  rewrite Ho. discriminate.
Defined.
